(** * html-to-pdf-server: request validation, rendering and image fitting

    A shallow embedding of [src/schema.ts] (the zod request schemas) and of
    [src/index.ts] ([generatePdf], [compressImage], [generateImage] and the
    two POST routes), followed by the properties of the specification that
    were checked against it.

    - JavaScript numbers are IEEE 754 binary64 values ([spec_float] at
      precision 53), so that [0.9 - 0.1 - 0.1] is the double the program
      computes and not the decimal 0.7.
    - Request bodies are JSON values; objects are finite maps from keys to
      values ([gmap string json]).
    - Puppeteer and sharp are outside the repository: every call to them is
      recorded in a trace of events and answered by an oracle that either
      resolves with a value or rejects with a message.
    - The two [while] loops of [compressImage] take fuel; the theorems show
      how much fuel is enough. *)

From Stdlib Require Import ZArith List String Bool Lia.
From Stdlib Require Import SpecFloat.
From stdpp Require Import gmap strings.
Import ListNotations.

Local Open Scope string_scope.
Local Open Scope list_scope.
Local Open Scope Z_scope.

(* ===================================================================== *)
(** * JavaScript numbers *)
(* ===================================================================== *)

Definition number : Type := spec_float.

Module Num.

Definition prec : Z := 53.
Definition emax : Z := 1024.

(** An integer as a double (exact below 2^53). *)
Definition of_Z (z : Z) : number := binary_normalize prec emax z 0 false.

Definition sub (a b : number) : number := SFsub prec emax a b.
Definition mul (a b : number) : number := SFmul prec emax a b.

(** [a < b], [a <= b], [a > b], [a >= b]: all false when an operand is NaN. *)
Definition ltb (a b : number) : bool := SFltb a b.
Definition leb (a b : number) : bool := SFleb a b.
Definition gtb (a b : number) : bool := SFltb b a.
Definition geb (a b : number) : bool := SFleb b a.

(** ToBoolean on a number: [0], [-0] and [NaN] are falsy. *)
Definition truthy (a : number) : bool :=
  match a with
  | S754_zero _ | S754_nan => false
  | _ => true
  end.

(** [Math.floor]. A finite double with a negative exponent has fractional
    bits; [Z.shiftr] rounds towards minus infinity. *)
Definition floor (a : number) : number :=
  match a with
  | S754_finite s m (Zneg k) =>
      match Z.shiftr (cond_Zopp s (Zpos m)) (Zpos k) with
      | Z0 => S754_zero s
      | n => of_Z n
      end
  | _ => a
  end.

(** Structural equality of two doubles, as a boolean. *)
Definition same (a b : number) : bool :=
  match a, b with
  | S754_zero s, S754_zero s' => Bool.eqb s s'
  | S754_infinity s, S754_infinity s' => Bool.eqb s s'
  | S754_nan, S754_nan => true
  | S754_finite s m e, S754_finite s' m' e' =>
      Bool.eqb s s' && Pos.eqb m m' && Z.eqb e e'
  | _, _ => false
  end.

(** The literals of the program, as mantissa and exponent. *)
Definition lit_0_1 : number := S754_finite false 7205759403792794 (-56).
Definition lit_0_3 : number := S754_finite false 5404319552844595 (-54).
Definition lit_0_9 : number := S754_finite false 8106479329266893 (-53).
Definition lit_1 : number := S754_finite false 4503599627370496 (-52).
Definition lit_2 : number := S754_finite false 4503599627370496 (-51).
Definition lit_0 : number := S754_zero false.
Definition lit_10 : number := S754_finite false 5629499534213120 (-49).
Definition lit_70 : number := S754_finite false 4925812092436480 (-46).
Definition lit_100 : number := S754_finite false 7036874417766400 (-46).
Definition lit_720 : number := S754_finite false 6333186975989760 (-43).
Definition lit_1280 : number := S754_finite false 5629499534213120 (-42).
(** [4 * 1024 * 1024] *)
Definition lit_4MiB : number := S754_finite false 4503599627370496 (-30).

(** The value [m * 2^e] of a finite positive double lies within half a unit
    in the last place of the decimal [n / d]: the double is a nearest one. *)
Definition nearest (a : number) (n d : Z) : bool :=
  match a with
  | S754_finite false m (Zneg k) =>
      (Z.abs (2 * (d * Zpos m - n * 2 ^ Zpos k)) <=? d)
      && (Zpos (digits2_pos m) =? prec)
  | _ => false
  end.

End Num.

(* ===================================================================== *)
(** * Values exchanged with the browser and the codec *)
(* ===================================================================== *)

(** A [Uint8Array] / [Buffer]. *)
Definition Buffer : Type := list Byte.byte.

(** [buf.length] as a number. *)
Definition byteLength (b : Buffer) : number := Num.of_Z (Z.of_nat (List.length b)).

Inductive ImageType := jpeg | png | webp.
Inductive Encoding := base64 | binary.

Module Clip.
Record t := { x : number; y : number; width : number; height : number }.
End Clip.

Module Viewport.
Record t := { width : number; height : number }.
End Viewport.

Module Margin.
Record t := { top : string; right : string; bottom : string; left : string }.
End Margin.

(** The validated [export] object of a PDF request. *)
Module PdfExport.
Record t := {
  scale : number;
  type : ImageType;
  quality : number;
  fullPage : bool;
  clip : option Clip.t;
  omitBackground : bool;
  encoding : Encoding;
  margin : Margin.t;
  printBackground : bool;
  viewport : option Viewport.t
}.
End PdfExport.

(** The validated [export] object of an image request. *)
Module ImageExport.
Record t := {
  scale : number;
  type : ImageType;
  quality : number;
  fullPage : bool;
  clip : option Clip.t;
  omitBackground : bool;
  encoding : Encoding;
  maxFileSize : number;
  viewport : option Viewport.t
}.
End ImageExport.

Module PdfRequest.
Record t := { url : option string; html : option string; export : PdfExport.t }.
End PdfRequest.

Module ImageRequest.
Record t := { url : option string; html : option string; export : ImageExport.t }.
End ImageRequest.

(** The argument of [page.screenshot]. *)
Module ScreenshotOptions.
Record t := {
  type : ImageType;
  quality : option number;
  fullPage : bool;
  clip : option Clip.t;
  omitBackground : bool;
  encoding : Encoding
}.
End ScreenshotOptions.

(** What [sharp(buf).metadata()] resolves to (the two fields that are read). *)
Module Metadata.
Record t := { width : option number; height : option number }.
End Metadata.

(** ToBoolean on an optional string and on an optional number. *)
Definition truthyString (s : option string) : bool :=
  match s with
  | Some s => negb (String.eqb s "")
  | None => false
  end.

Definition truthyNumber (n : option number) : bool :=
  match n with
  | Some n => Num.truthy n
  | None => false
  end.

(* ===================================================================== *)
(** * Effects: a trace of external calls, exceptions, and fuel *)
(* ===================================================================== *)

(** The outcome of awaiting a promise of an external library. *)
Inductive Settled (A : Type) :=
| Resolved (value : A)
| Rejected (message : string).
Arguments Resolved {A} value.
Arguments Rejected {A} message.

(** Every call into puppeteer or sharp, in program order. *)
Inductive Event :=
| EvNewPage
| EvSetViewport (v : Viewport.t)
| EvGoto (url : string)
| EvSetContent (html : string)
| EvPdf (options : PdfExport.t)
| EvScreenshot (options : ScreenshotOptions.t)
| EvClose
| EvToBuffer (format : ImageType) (quality : number)
| EvMetadata
| EvResizeToBuffer (width height : number) (format : ImageType) (quality : number).

(** How a function ends: it returns, it throws, or the model ran out of the
    fuel that bounds its loops. *)
Inductive Completion (A : Type) :=
| Return (value : A)
| Throw (message : string)
| OutOfFuel.
Arguments Return {A} value.
Arguments Throw {A} message.
Arguments OutOfFuel {A}.

(** A computation is its completion together with the calls it made, in
    order. The program never inspects the calls it has made, so the trace
    is written and never read. *)
Definition M (A : Type) : Type := (Completion A * list Event)%type.

Definition ret {A} (a : A) : M A := (Return a, []).

Definition throw {A} (message : string) : M A := (Throw message, []).

Definition diverge {A} : M A := (OutOfFuel, []).

Definition bind {A B} (m : M A) (k : A -> M B) : M B :=
  match m with
  | (Return a, calls) => let (c, calls') := k a in (c, calls ++ calls')
  | (Throw message, calls) => (Throw message, calls)
  | (OutOfFuel, calls) => (OutOfFuel, calls)
  end.

Declare Scope js_scope.
Delimit Scope js_scope with js.
Notation "x <- m ;; k" := (bind m (fun x => k))
  (at level 100, m at next level, right associativity) : js_scope.
Notation "m ;; k" := (bind m (fun _ => k))
  (at level 100, right associativity) : js_scope.
Local Open Scope js_scope.

(** [await call(...)]: the call is recorded, then its promise settles. *)
Definition await {A} (e : Event) (p : Settled A) : M A :=
  match p with
  | Resolved a => (Return a, [e])
  | Rejected message => (Throw message, [e])
  end.

(** [call(...)] without [await]: the call is recorded and its promise is
    dropped, so a rejection never reaches the caller. *)
Definition fireAndForget {A} (e : Event) (p : Settled A) : M unit :=
  (Return tt, [e]).

Definition outcome {A} (m : M A) : Completion A := fst m.
Definition trace {A} (m : M A) : list Event := snd m.

(** Number of events of a trace that satisfy [p]. *)
Definition count (p : Event -> bool) (tr : list Event) : nat :=
  List.length (List.filter p tr).

Definition isNewPage (e : Event) : bool :=
  match e with EvNewPage => true | _ => false end.
Definition isClose (e : Event) : bool :=
  match e with EvClose => true | _ => false end.
Definition isGoto (e : Event) : bool :=
  match e with EvGoto _ => true | _ => false end.
Definition isSetContent (e : Event) : bool :=
  match e with EvSetContent _ => true | _ => false end.
Definition isToBuffer (e : Event) : bool :=
  match e with EvToBuffer _ _ => true | _ => false end.
Definition isResizeToBuffer (e : Event) : bool :=
  match e with EvResizeToBuffer _ _ _ _ => true | _ => false end.
Definition isMetadata (e : Event) : bool :=
  match e with EvMetadata => true | _ => false end.
(** A re-encode is any call that runs the encoder. *)
Definition isReencode (e : Event) : bool := isToBuffer e || isResizeToBuffer e.
(** Calls into sharp, and calls into the browser. *)
Definition isCodec (e : Event) : bool := isReencode e || isMetadata e.
Definition isBrowser (e : Event) : bool := negb (isCodec e).

(* ===================================================================== *)
(** * The image codec (sharp) and [compressImage] *)
(* ===================================================================== *)

(** The three pipelines of sharp that [compressImage] runs on an input
    buffer. [toBuffer buf fmt q] is [sharp(buf).fmt({quality: q}).toBuffer()],
    [resizeToBuffer buf w h fmt q] is
    [sharp(buf).resize(w, h).fmt({quality: q}).toBuffer()]. *)
Record Sharp := {
  toBuffer : Buffer -> ImageType -> number -> Settled Buffer;
  resizeToBuffer : Buffer -> number -> number -> ImageType -> number -> Settled Buffer;
  metadata : Buffer -> Settled Metadata.t
}.

Section Fitter.

Variable sharp : Sharp.

(** [result.length <= maxFileSize] *)
Definition fits (result : Buffer) (maxFileSize : number) : bool :=
  Num.leb (byteLength result) maxFileSize.

(** [quality || 100] *)
Definition initialQuality (quality : option number) : number :=
  match quality with
  | Some q => if Num.truthy q then q else Num.lit_100
  | None => Num.lit_100
  end.

(** [await sharpInstance.<format>({quality}).toBuffer()]: the three
    branches on [targetFormat] differ only in the encoder they name. *)
Definition reencode (imageBuffer : Buffer) (targetFormat : ImageType)
    (currentQuality : number) : M Buffer :=
  await (EvToBuffer targetFormat currentQuality)
    (toBuffer sharp imageBuffer targetFormat currentQuality).

(** The body of the second loop up to its size test:
    [Math.floor(metadata.width * scale)], [Math.floor(metadata.height * scale)],
    then [sharp(imageBuffer).resize(newWidth, newHeight).<format>({quality: 70})]. *)
Definition resizeAndEncode (imageBuffer : Buffer) (targetFormat : ImageType)
    (width height : number) (scale : number) : M Buffer :=
  let newWidth := Num.floor (Num.mul width scale) in
  let newHeight := Num.floor (Num.mul height scale) in
  await (EvResizeToBuffer newWidth newHeight targetFormat Num.lit_70)
    (resizeToBuffer sharp imageBuffer newWidth newHeight targetFormat Num.lit_70).

(** The loop [while (currentQuality >= 10) { ... currentQuality -= 10 }].
    [Some result] is the early [return]; [None] is falling out of the
    loop. *)
Fixpoint qualityLoop (fuel : nat) (imageBuffer : Buffer) (targetFormat : ImageType)
    (maxFileSize : number) (currentQuality : number) : M (option Buffer) :=
  match fuel with
  | O => diverge
  | S fuel' =>
      if Num.geb currentQuality Num.lit_10 then
        result <- reencode imageBuffer targetFormat currentQuality ;;
        if fits result maxFileSize then ret (Some result)
        else qualityLoop fuel' imageBuffer targetFormat maxFileSize
               (Num.sub currentQuality Num.lit_10)
      else ret None
  end.

(** The loop [while (scale >= 0.3) { ... scale -= 0.1 }]. *)
Fixpoint scaleLoop (fuel : nat) (imageBuffer : Buffer) (targetFormat : ImageType)
    (maxFileSize : number) (width height : number) (scale : number) : M (option Buffer) :=
  match fuel with
  | O => diverge
  | S fuel' =>
      if Num.geb scale Num.lit_0_3 then
        result <- resizeAndEncode imageBuffer targetFormat width height scale ;;
        if fits result maxFileSize then ret (Some result)
        else scaleLoop fuel' imageBuffer targetFormat maxFileSize width height
               (Num.sub scale Num.lit_0_1)
      else ret None
  end.

(** [compressImage] from the comment "If still too large, try resizing"
    to its end. *)
Definition resizePhase (fuel : nat) (imageBuffer : Buffer) (targetFormat : ImageType)
    (maxFileSize : number) : M Buffer :=
  metadata <- await EvMetadata (metadata sharp imageBuffer) ;;
  match Metadata.width metadata, Metadata.height metadata with
  | Some width, Some height =>
      if Num.truthy width && Num.truthy height then
        early <- scaleLoop fuel imageBuffer targetFormat maxFileSize
                   width height Num.lit_0_9 ;;
        match early with
        | Some result => ret result
        | None => ret imageBuffer
        end
      else ret imageBuffer
  | _, _ => ret imageBuffer
  end.

Definition compressImage (fuel : nat) (imageBuffer : Buffer) (targetFormat : ImageType)
    (maxFileSize : number) (quality : option number) : M Buffer :=
  let currentQuality := initialQuality quality in
  early <- qualityLoop fuel imageBuffer targetFormat maxFileSize currentQuality ;;
  match early with
  | Some result => ret result
  | None => resizePhase fuel imageBuffer targetFormat maxFileSize
  end.

(** The statement of [generateImage]
    [if (res.length > body.export.maxFileSize) res = await compressImage(...)]. *)
Definition compressIfTooLarge (fuel : nat) (export : ImageExport.t) (res : Buffer) : M Buffer :=
  if Num.gtb (byteLength res) (ImageExport.maxFileSize export) then
    compressImage fuel res (ImageExport.type export)
      (ImageExport.maxFileSize export) (Some (ImageExport.quality export))
  else ret res.

End Fitter.

(* ===================================================================== *)
(** * The browser (puppeteer), [generatePdf] and [generateImage] *)
(* ===================================================================== *)

(** A page answers each of its methods by resolving or rejecting. *)
Record Page := {
  setViewport : Viewport.t -> Settled unit;
  goto : string -> Settled unit;
  setContent : string -> Settled unit;
  pdf : PdfExport.t -> Settled Buffer;
  screenshot : ScreenshotOptions.t -> Settled Buffer;
  close : Settled unit
}.

Record Browser := { newPage : Settled Page }.

(** [getBrowser()] reads the module variable [browser : Browser | null]. *)
Definition getBrowser (browser : option Browser) : M Browser :=
  match browser with
  | Some b => ret b
  | None => throw "Browser not launched"
  end.

(** The statement
    [if (body.url) goto(body.url) else if (body.html) setContent(body.html)
     else throw]. *)
Definition loadContent (page : Page) (url html : option string) : M unit :=
  match url with
  | Some u =>
      if truthyString (Some u) then await (EvGoto u) (goto page u)
      else
        match html with
        | Some h =>
            if truthyString (Some h) then await (EvSetContent h) (setContent page h)
            else throw "url or html is required"
        | None => throw "url or html is required"
        end
  | None =>
      match html with
      | Some h =>
          if truthyString (Some h) then await (EvSetContent h) (setContent page h)
          else throw "url or html is required"
      | None => throw "url or html is required"
      end
  end.

Definition applyViewport (page : Page) (viewport : option Viewport.t) : M unit :=
  match viewport with
  | Some v => await (EvSetViewport v) (setViewport page v)
  | None => ret tt
  end.

Definition generatePdf (browser : option Browser) (body : PdfRequest.t) : M Buffer :=
  browser <- getBrowser browser ;;
  page <- await EvNewPage (newPage browser) ;;
  applyViewport page (PdfExport.viewport (PdfRequest.export body)) ;;
  loadContent page (PdfRequest.url body) (PdfRequest.html body) ;;
  res <- await (EvPdf (PdfRequest.export body)) (pdf page (PdfRequest.export body)) ;;
  (* [page.close()] is not awaited here *)
  fireAndForget EvClose (close page) ;;
  ret res.

Definition screenshotOptions (e : ImageExport.t) : ScreenshotOptions.t :=
  {| ScreenshotOptions.type := ImageExport.type e;
     ScreenshotOptions.quality :=
       match ImageExport.type e with
       | jpeg => Some (ImageExport.quality e)
       | _ => None
       end;
     ScreenshotOptions.fullPage := ImageExport.fullPage e;
     ScreenshotOptions.clip := ImageExport.clip e;
     ScreenshotOptions.omitBackground := ImageExport.omitBackground e;
     ScreenshotOptions.encoding := ImageExport.encoding e |}.

Definition generateImage (fuel : nat) (sharp : Sharp) (browser : option Browser)
    (body : ImageRequest.t) : M Buffer :=
  let export := ImageRequest.export body in
  browser <- getBrowser browser ;;
  page <- await EvNewPage (newPage browser) ;;
  applyViewport page (ImageExport.viewport export) ;;
  loadContent page (ImageRequest.url body) (ImageRequest.html body) ;;
  res <- await (EvScreenshot (screenshotOptions export))
           (screenshot page (screenshotOptions export)) ;;
  await EvClose (close page) ;;
  compressIfTooLarge sharp fuel export res.

(* ===================================================================== *)
(** * Request bodies and the zod schemas *)
(* ===================================================================== *)

#[warnings="-register-all"]
Inductive json :=
| JNull
| JBool (b : bool)
| JNum (n : number)
| JStr (s : string)
| JArr (items : list json)
| JObj (fields : gmap string json).

(** The part of zod that the two schemas use. A schema reads an optional
    input ([None] is [undefined], an absent key) at a path. Parsing ends
    valid, dirty (a value with issues), aborted, or with the exception that
    a refinement function threw. *)
Module z.

Inductive IssueCode :=
| invalid_type | too_small | too_big | invalid_enum_value | custom.

(** [message] is [Some] for the messages that the schemas supply
    themselves; zod's own wording is left out. *)
Record ZodIssue := {
  code : IssueCode;
  path : list string;
  message : option string
}.

Definition issue (c : IssueCode) (p : list string) : ZodIssue :=
  {| code := c; path := p; message := None |}.

Inductive ParseReturn (A : Type) :=
| OK (value : A)
| DIRTY (value : A) (issues : list ZodIssue)
| INVALID (issues : list ZodIssue)
| THROWN (error : string).
Arguments OK {A} value.
Arguments DIRTY {A} value issues.
Arguments INVALID {A} issues.
Arguments THROWN {A} error.

Definition Schema (A : Type) : Type := list string -> option json -> ParseReturn A.

Definition issuesOf {A} (r : ParseReturn A) : list ZodIssue :=
  match r with
  | OK _ | THROWN _ => []
  | DIRTY _ issues | INVALID issues => issues
  end.

(** Merging the fields of an object, in the order of its shape: an
    exception escapes at once; otherwise all issues are kept, any aborted
    field aborts the object and any dirty field makes it dirty. *)
Definition ap {A B} (f : ParseReturn (A -> B)) (x : ParseReturn A) : ParseReturn B :=
  match f, x with
  | THROWN e, _ => THROWN e
  | _, THROWN e => THROWN e
  | OK g, OK a => OK (g a)
  | OK g, DIRTY a issues => DIRTY (g a) issues
  | DIRTY g issues, OK a => DIRTY (g a) issues
  | DIRTY g issues, DIRTY a issues' => DIRTY (g a) (issues ++ issues')
  | INVALID issues, _ => INVALID (issues ++ issuesOf x)
  | _, INVALID issues' => INVALID (issuesOf f ++ issues')
  end.

Definition field {A} (fields : gmap string json) (p : list string) (key : string)
    (s : Schema A) : ParseReturn A :=
  s (p ++ [key]) (fields !! key).

(** [z.object({...})]: unknown keys are dropped. *)
Definition object {A} (shape : list string -> gmap string json -> ParseReturn A) : Schema A :=
  fun p input =>
    match input with
    | Some (JObj fields) => shape p fields
    | _ => INVALID [issue invalid_type p]
    end.

Inductive NumberCheck :=
| Min (value : number) (inclusive : bool)
| Max (value : number) (inclusive : bool).

Definition runCheck (p : list string) (data : number) (c : NumberCheck) : list ZodIssue :=
  match c with
  | Min value inclusive =>
      let tooSmall := if inclusive then Num.ltb data value else Num.leb data value in
      if tooSmall then [issue too_small p] else []
  | Max value inclusive =>
      let tooBig := if inclusive then Num.gtb data value else Num.geb data value in
      if tooBig then [issue too_big p] else []
  end.

Definition isNaN (n : number) : bool :=
  match n with S754_nan => true | _ => false end.

Definition min (value : number) : NumberCheck := Min value true.
Definition max (value : number) : NumberCheck := Max value true.
Definition positive : NumberCheck := Min Num.lit_0 false.

(** [z.number()] followed by its checks. *)
Definition number (checks : list NumberCheck) : Schema number :=
  fun p input =>
    match input with
    | Some (JNum n) =>
        if isNaN n then INVALID [issue invalid_type p]
        else
          match flat_map (runCheck p n) checks with
          | [] => OK n
          | issues => DIRTY n issues
          end
    | _ => INVALID [issue invalid_type p]
    end.

Definition string : Schema string :=
  fun p input =>
    match input with
    | Some (JStr s) => OK s
    | _ => INVALID [issue invalid_type p]
    end.

Definition boolean : Schema bool :=
  fun p input =>
    match input with
    | Some (JBool b) => OK b
    | _ => INVALID [issue invalid_type p]
    end.

Fixpoint lookupEnum {A} (values : list (String.string * A)) (s : String.string) : option A :=
  match values with
  | [] => None
  | (name, a) :: rest => if String.eqb name s then Some a else lookupEnum rest s
  end.

Definition enum {A} (values : list (String.string * A)) : Schema A :=
  fun p input =>
    match input with
    | Some (JStr s) =>
        match lookupEnum values s with
        | Some a => OK a
        | None => INVALID [issue invalid_enum_value p]
        end
    | _ => INVALID [issue invalid_type p]
    end.

(** [.optional()] *)
Definition optional {A} (s : Schema A) : Schema (option A) :=
  fun p input =>
    match input with
    | None => OK None
    | _ => ap (OK Some) (s p input)
    end.

(** [.default(d)]: every default of the two schemas passes the checks of
    its own schema, so parsing it again gives it back. *)
Definition default {A} (d : A) (s : Schema A) : Schema A :=
  fun p input =>
    match input with
    | None => OK d
    | _ => s p input
    end.

(** [.refine(check, {message})]. The check is not run on an aborted
    value. It runs on a valid and on a dirty one: a falsy result records a
    custom issue, and an exception of the check escapes the parse
    ([inl] is a thrown message, [inr] a returned value). *)
Definition refine {A B} (truthy : B -> bool) (check : A -> String.string + B)
    (message : option String.string) (s : Schema A) : Schema A :=
  fun p input =>
    match s p input with
    | OK value =>
        match check value with
        | inl e => THROWN e
        | inr b =>
            if truthy b then OK value
            else DIRTY value [{| code := custom; path := p; message := message |}]
        end
    | DIRTY value issues =>
        match check value with
        | inl e => THROWN e
        | inr b =>
            if truthy b then DIRTY value issues
            else DIRTY value
                   (issues ++ [{| code := custom; path := p; message := message |}])
        end
    | INVALID issues => INVALID issues
    | THROWN e => THROWN e
    end.

Inductive SafeParseReturn (A : Type) :=
| Success (data : A)
| Failure (issues : list ZodIssue)
| Exception (error : String.string).
Arguments Success {A} data.
Arguments Failure {A} issues.
Arguments Exception {A} error.

(** [schema.safeParse(body)] *)
Definition safeParse {A} (s : Schema A) (body : json) : SafeParseReturn A :=
  match s [] (Some body) with
  | OK value => Success value
  | DIRTY _ issues | INVALID issues => Failure issues
  | THROWN e => Exception e
  end.

End z.

Declare Scope zod_scope.
Delimit Scope zod_scope with zod.
Notation "f <*> x" := (z.ap f x) (at level 61, left associativity) : zod_scope.

Section Schemas.

Local Open Scope zod_scope.

(** [new URL(value)] does not throw. *)
Variable validURL : string -> bool.

Definition urlCustom (value : string) : string + string :=
  if validURL value then inr value else inl "Invalid URL".

Definition htmlCustom (value : string) : string + string :=
  if negb (truthyString (Some value)) then inl "HTML content is required"
  else inr value.

Definition truthyReturn (value : string) : bool := truthyString (Some value).

Definition imageTypes : list (string * ImageType) :=
  [("jpeg", jpeg); ("png", png); ("webp", webp)].
Definition encodings : list (string * Encoding) :=
  [("base64", base64); ("binary", binary)].

Definition clipSchema : z.Schema Clip.t :=
  z.object (fun p o =>
    z.OK Clip.Build_t
      <*> z.field o p "x" (z.number [])
      <*> z.field o p "y" (z.number [])
      <*> z.field o p "width" (z.number [])
      <*> z.field o p "height" (z.number [])).

Definition viewportSchema : z.Schema Viewport.t :=
  z.object (fun p o =>
    z.OK Viewport.Build_t
      <*> z.field o p "width" (z.default Num.lit_1280 (z.number [z.positive]))
      <*> z.field o p "height" (z.default Num.lit_720 (z.number [z.positive]))).

Definition marginSchema : z.Schema Margin.t :=
  z.object (fun p o =>
    z.OK Margin.Build_t
      <*> z.field o p "top" z.string
      <*> z.field o p "right" z.string
      <*> z.field o p "bottom" z.string
      <*> z.field o p "left" z.string).

Definition scaleSchema : z.Schema number :=
  z.default Num.lit_1 (z.number [z.min Num.lit_0_1; z.max Num.lit_2]).
Definition qualitySchema : z.Schema number :=
  z.default Num.lit_100 (z.number [z.min Num.lit_0; z.max Num.lit_100]).

Definition pdfExportDefault : PdfExport.t :=
  {| PdfExport.scale := Num.lit_1;
     PdfExport.type := png;
     PdfExport.quality := Num.lit_100;
     PdfExport.fullPage := true;
     PdfExport.clip := None;
     PdfExport.omitBackground := false;
     PdfExport.encoding := binary;
     PdfExport.margin :=
       {| Margin.top := "0"; Margin.right := "0";
          Margin.bottom := "0"; Margin.left := "0" |};
     PdfExport.printBackground := false;
     PdfExport.viewport := None |}.

Definition pdfExportSchema : z.Schema PdfExport.t :=
  z.default pdfExportDefault
    (z.object (fun p o =>
       z.OK PdfExport.Build_t
         <*> z.field o p "scale" scaleSchema
         <*> z.field o p "type" (z.default png (z.enum imageTypes))
         <*> z.field o p "quality" qualitySchema
         <*> z.field o p "fullPage" (z.default true z.boolean)
         <*> z.field o p "clip" (z.optional clipSchema)
         <*> z.field o p "omitBackground" (z.default false z.boolean)
         <*> z.field o p "encoding" (z.default binary (z.enum encodings))
         <*> z.field o p "margin" marginSchema
         <*> z.field o p "printBackground" (z.default false z.boolean)
         <*> z.field o p "viewport" (z.optional viewportSchema))).

(** [data => data.url || data.html] *)
Definition urlOrHtml (url html : option string) : string + option string :=
  inr (if truthyString url then url else html).

Definition missingTarget : string := "Either url or html must be provided".

Definition PdfRequestSchema : z.Schema PdfRequest.t :=
  z.refine truthyString
    (fun data => urlOrHtml (PdfRequest.url data) (PdfRequest.html data))
    (Some missingTarget)
    (z.object (fun p o =>
       z.OK PdfRequest.Build_t
         <*> z.field o p "url" (z.optional (z.refine truthyReturn urlCustom None z.string))
         <*> z.field o p "html" (z.optional (z.refine truthyReturn htmlCustom None z.string))
         <*> z.field o p "export" pdfExportSchema)).

Definition imageExportDefault : ImageExport.t :=
  {| ImageExport.scale := Num.lit_1;
     ImageExport.type := png;
     ImageExport.quality := Num.lit_100;
     ImageExport.fullPage := true;
     ImageExport.clip := None;
     ImageExport.omitBackground := false;
     ImageExport.encoding := binary;
     ImageExport.maxFileSize := Num.lit_4MiB;
     ImageExport.viewport := None |}.

Definition imageExportSchema : z.Schema ImageExport.t :=
  z.default imageExportDefault
    (z.object (fun p o =>
       z.OK ImageExport.Build_t
         <*> z.field o p "scale" scaleSchema
         <*> z.field o p "type" (z.default png (z.enum imageTypes))
         <*> z.field o p "quality" qualitySchema
         <*> z.field o p "fullPage" (z.default true z.boolean)
         <*> z.field o p "clip" (z.optional clipSchema)
         <*> z.field o p "omitBackground" (z.default false z.boolean)
         <*> z.field o p "encoding" (z.default binary (z.enum encodings))
         <*> z.field o p "maxFileSize" (z.default Num.lit_4MiB (z.number [z.positive]))
         <*> z.field o p "viewport" (z.optional viewportSchema))).

Definition ImageRequestSchema : z.Schema ImageRequest.t :=
  z.refine truthyString
    (fun data => urlOrHtml (ImageRequest.url data) (ImageRequest.html data))
    (Some missingTarget)
    (z.object (fun p o =>
       z.OK ImageRequest.Build_t
         <*> z.field o p "url" (z.optional (z.refine truthyReturn urlCustom None z.string))
         <*> z.field o p "html" (z.optional (z.refine truthyReturn htmlCustom None z.string))
         <*> z.field o p "export" imageExportSchema)).

End Schemas.

(* ===================================================================== *)
(** * The routes [POST /pdf] and [POST /image] *)
(* ===================================================================== *)

Inductive Response :=
(** [c.body(buffer, {headers: {'Content-Type': ...}})] *)
| Body (contentType : string) (body : Buffer)
(** [c.json({error: errorMessage}, 400)] *)
| ErrorJson (status : Z) (error : string)
(** the 400 that the validator middleware sends for a failed parse *)
| Invalid (issues : list z.ZodIssue).

(** [try { ... } catch (error) { ... }] *)
Definition tryCatch {A} (body : M A) (handler : string -> M A) : M A :=
  match body with
  | (Throw message, calls) => let (c, calls') := handler message in (c, calls ++ calls')
  | r => r
  end.

Definition contentTypeOf (t : ImageType) : string :=
  match t with
  | jpeg => "image/jpeg"
  | png => "image/png"
  | webp => "image/webp"
  end.

Section Routes.

Variable validURL : string -> bool.
Variable sharp : Sharp.
Variable browser : option Browser.

Definition postPdf (body : json) : M Response :=
  match z.safeParse (PdfRequestSchema validURL) body with
  | z.Exception e => throw e
  | z.Failure issues => ret (Invalid issues)
  | z.Success data =>
      tryCatch
        (pdfBuffer <- generatePdf browser data ;;
         ret (Body "application/pdf" pdfBuffer))
        (fun errorMessage => ret (ErrorJson 400 errorMessage))
  end.

Definition postImage (fuel : nat) (body : json) : M Response :=
  match z.safeParse (ImageRequestSchema validURL) body with
  | z.Exception e => throw e
  | z.Failure issues => ret (Invalid issues)
  | z.Success data =>
      tryCatch
        (imageBuffer <- generateImage fuel sharp browser data ;;
         ret (Body (contentTypeOf (ImageExport.type (ImageRequest.export data)))
                imageBuffer))
        (fun errorMessage => ret (ErrorJson 400 errorMessage))
  end.

End Routes.

(* ===================================================================== *)
(** * The ladders, as the specification words them *)
(* ===================================================================== *)

(** "Try the candidates in order; stop at the first whose encoded size is
    at most [maxFileSize] and return it immediately." [None]: no candidate
    fitted. *)
Fixpoint tryInOrder {P : Type} (attempt : P -> M Buffer) (maxFileSize : number)
    (candidates : list P) : M (option Buffer) :=
  match candidates with
  | [] => ret None
  | c :: rest =>
      result <- attempt c ;;
      if fits result maxFileSize then ret (Some result)
      else tryInOrder attempt maxFileSize rest
  end.

Fixpoint countDown (steps : nat) (q : Z) : list Z :=
  match steps with
  | O => []
  | S steps' => q :: countDown steps' (q - 10)
  end.

(** "[q], then decreasing values in steps of 10, down to and including 10":
    the values [q - 10 * i] that are at least 10. *)
Definition qualitySteps (q : Z) : list Z :=
  if q <? 10 then [] else countDown (Z.to_nat ((q - 10) / 10 + 1)) q.

(** The values that the guard and the step of the first loop visit, read
    off the loop without its body. *)
Fixpoint qualityLadder (fuel : nat) (currentQuality : number) : option (list number) :=
  match fuel with
  | O => None
  | S fuel' =>
      if Num.geb currentQuality Num.lit_10 then
        match qualityLadder fuel' (Num.sub currentQuality Num.lit_10) with
        | Some rest => Some (currentQuality :: rest)
        | None => None
        end
      else Some []
  end.

(** The same for the second loop. *)
Fixpoint scaleLadder (fuel : nat) (scale : number) : option (list number) :=
  match fuel with
  | O => None
  | S fuel' =>
      if Num.geb scale Num.lit_0_3 then
        match scaleLadder fuel' (Num.sub scale Num.lit_0_1) with
        | Some rest => Some (scale :: rest)
        | None => None
        end
      else Some []
  end.

(** The doubles [0.9], [0.9 - 0.1], [0.9 - 0.1 - 0.1], ... that are at least
    [0.3]; they print as 0.9, 0.8, 0.7000000000000001, 0.6000000000000001,
    0.5000000000000001, 0.40000000000000013 and 0.30000000000000016. *)
Definition scaleFactors : list number :=
  [ S754_finite false 8106479329266893 (-53);
    S754_finite false 7205759403792794 (-53);
    S754_finite false 6305039478318695 (-53);
    S754_finite false 5404319552844596 (-53);
    S754_finite false 4503599627370497 (-53);
    S754_finite false 7205759403792796 (-54);
    S754_finite false 5404319552844598 (-54) ].

(** The tenths that the specification names for them. *)
Definition scaleTenths : list Z := [9; 8; 7; 6; 5; 4; 3].


(** [f] holds at [start], [start + 1], ..., [start + steps - 1]. *)
Fixpoint allFrom (f : Z -> bool) (steps : nat) (start : Z) : bool :=
  match steps with
  | O => true
  | S steps' => f start && allFrom f steps' (start + 1)
  end.

(** A quality as the specification types it: unset, or an integer. *)
Definition qualityOfZ (q : option Z) : option number := option_map Num.of_Z q.

(** The Z-level reading of [quality || 100]. *)
Definition startQuality (q : option Z) : Z :=
  match q with
  | Some n => if n =? 0 then 100 else n
  | None => 100
  end.

(** Unset, or an integer of the range that the schema admits. *)
Definition validQuality (q : option Z) : Prop :=
  match q with
  | Some n => 0 <= n <= 100
  | None => True
  end.

(** The value of a non-negative finite double, in units of 2^-1074. *)
Definition units (x : number) : Z :=
  match x with
  | S754_finite false m e => Zpos m * 2 ^ (e + 1074)
  | _ => 0
  end.

(** A positive double with a full mantissa of 53 bits. *)
Definition isNormal (x : number) : bool :=
  match x with
  | S754_finite false m e => (Zpos (digits2_pos m) =? 53) && (-1074 <=? e) && (e <=? 971)
  | _ => false
  end.

(** A quality as [qualitySchema] admits it: unset, or a double of 0 to
    100. *)
Definition inQualityRange (quality : option number) : Prop :=
  match quality with
  | Some q =>
      valid_binary Num.prec Num.emax q = true
      /\ Num.leb Num.lit_0 q = true /\ Num.leb q Num.lit_100 = true
  | None => True
  end.

(** The values that the first loop visits from [quality || 100], within 11
    rounds. *)
Definition qualityValues (quality : option number) : list number :=
  match qualityLadder 11 (initialQuality quality) with
  | Some l => l
  | None => []
  end.

(** The call that one step of the second loop makes at [scale]. *)
Definition resizeCall (width height : number) (targetFormat : ImageType)
    (scale : number) : Event :=
  EvResizeToBuffer (Num.floor (Num.mul width scale)) (Num.floor (Num.mul height scale))
    targetFormat Num.lit_70.

Fixpoint sameList (l l' : list number) : bool :=
  match l, l' with
  | [], [] => true
  | a :: r, a' :: r' => Num.same a a' && sameList r r'
  | _, _ => false
  end.

(** For the integer [n]: the double [n] is truthy and the first loop, started
    at it, visits the doubles of [qualitySteps n] within 11 rounds. *)
Definition qualityLadderIsSteps (n : Z) : bool :=
  Num.truthy (Num.of_Z n)
  && match qualityLadder 11 (Num.of_Z n) with
     | Some l => sameList l (map Num.of_Z (qualitySteps n))
     | None => false
     end.

(** The largest image side considered: 2^31 - 1 pixels. *)
Definition maxSide : Z := 2147483647.

(** The dimensions that the second phase uses, if it uses any: the test
    [metadata.width && metadata.height]. *)
Definition knownDimensions (m : Metadata.t) : option (number * number) :=
  match Metadata.width m, Metadata.height m with
  | Some w, Some h => if Num.truthy w && Num.truthy h then Some (w, h) else None
  | _, _ => None
  end.

(** The call that one step of the first loop makes at the integer [k]. *)
Definition toBufferCall (targetFormat : ImageType) (k : Z) : Event :=
  EvToBuffer targetFormat (Num.of_Z k).

(* ===================================================================== *)
(** * Render requests and ranges, as the specification words them *)
(* ===================================================================== *)

(** "Every render request (PDF or image)". *)
Inductive RenderRequest :=
| RenderPdf (body : PdfRequest.t)
| RenderImage (body : ImageRequest.t).

Definition render (fuel : nat) (sharp : Sharp) (browser : option Browser)
    (request : RenderRequest) : M Buffer :=
  match request with
  | RenderPdf body => generatePdf browser body
  | RenderImage body => generateImage fuel sharp browser body
  end.

Definition requestUrl (request : RenderRequest) : option string :=
  match request with
  | RenderPdf body => PdfRequest.url body
  | RenderImage body => ImageRequest.url body
  end.

Definition requestHtml (request : RenderRequest) : option string :=
  match request with
  | RenderPdf body => PdfRequest.html body
  | RenderImage body => ImageRequest.html body
  end.

(** [scale] in [0.1, 2] and [quality] in [0, 100], and their complements. *)
Definition scaleInRange (scale : number) : Prop :=
  Num.leb Num.lit_0_1 scale = true /\ Num.leb scale Num.lit_2 = true.

Definition qualityInRange (quality : number) : Prop :=
  Num.leb Num.lit_0 quality = true /\ Num.leb quality Num.lit_100 = true.

Definition scaleOutOfRange (scale : number) : Prop :=
  Num.ltb scale Num.lit_0_1 = true \/ Num.gtb scale Num.lit_2 = true.

Definition qualityOutOfRange (quality : number) : Prop :=
  Num.ltb quality Num.lit_0 = true \/ Num.gtb quality Num.lit_100 = true.

(** The value of a key of the request body; a body that is not an object
    has no keys. *)
Definition bodyField (body : json) (key : string) : option json :=
  match body with
  | JObj fields => fields !! key
  | _ => None
  end.

(** [body.export[key]], when [body.export] is an object. *)
Definition exportField (body : json) (key : string) : option json :=
  match bodyField body "export" with
  | Some export => bodyField export key
  | None => None
  end.

(** The issue of the refinement on the whole request. *)
Definition missingTargetIssue : z.ZodIssue :=
  {| z.code := z.custom; z.path := []; z.message := Some missingTarget |}.

(** No issue of the list carries the message. *)
Definition lacksMessage (issues : list z.ZodIssue) (message : string) : Prop :=
  forall i, In i issues -> z.message i <> Some message.

(** Parsing did not abort (and did not throw). *)
Definition notAborted {A} (r : z.ParseReturn A) : Prop :=
  match r with
  | z.OK _ | z.DIRTY _ _ => True
  | z.INVALID _ | z.THROWN _ => False
  end.

(** Parsing ended with an exception. *)
Definition thrown {A} (r : z.ParseReturn A) : bool :=
  match r with
  | z.THROWN _ => true
  | _ => false
  end.

(** What a valid [export] object of either schema says about its [scale]
    and [quality]: both in range, and equal to the numbers that were given. *)
Definition exportChecked (input : option json) (scale quality : number) : Prop :=
  scaleInRange scale /\ qualityInRange quality
  /\ (forall fields n, input = Some (JObj fields) ->
        fields !! "scale" = Some (JNum n) -> scale = n)
  /\ (forall fields n, input = Some (JObj fields) ->
        fields !! "quality" = Some (JNum n) -> quality = n).

(** Every call of a computation is a call into the codec. *)
Definition codecOnly {A} (m : M A) : Prop :=
  Forall (fun e => isCodec e = true) (trace m).

(* ===================================================================== *)
(** * Concrete codecs, browsers and requests for the examples *)
(* ===================================================================== *)

Module Examples.

Import Byte.

Definition oneByte : Buffer := [x2a].
Definition twoBytes : Buffer := [x2a; x2a].
Definition screenshotBytes : Buffer := [x89; x50; x4e; x47].

Definition square100 : Metadata.t :=
  {| Metadata.width := Some (Num.of_Z 100); Metadata.height := Some (Num.of_Z 100) |}.

(** Every encoding is two bytes long. *)
Definition stubbornSharp : Sharp :=
  {| toBuffer := fun _ _ _ => Resolved twoBytes;
     resizeToBuffer := fun _ _ _ _ _ => Resolved twoBytes;
     metadata := fun _ => Resolved square100 |}.

(** One byte at quality 80 or less, two bytes above. *)
Definition qualitySharp : Sharp :=
  {| toBuffer := fun _ _ q =>
       Resolved (if Num.leb q (Num.of_Z 80) then oneByte else twoBytes);
     resizeToBuffer := fun _ _ _ _ _ => Resolved twoBytes;
     metadata := fun _ => Resolved square100 |}.


(** A budget of one byte. *)
Definition oneByteBudget : number := Num.of_Z 1.

(** A page on which everything resolves. *)
Definition goodPage : Page :=
  {| setViewport := fun _ => Resolved tt;
     goto := fun _ => Resolved tt;
     setContent := fun _ => Resolved tt;
     pdf := fun _ => Resolved screenshotBytes;
     screenshot := fun _ => Resolved screenshotBytes;
     close := Resolved tt |}.

(** A page whose navigation times out. *)
Definition timeoutPage : Page :=
  {| setViewport := fun _ => Resolved tt;
     goto := fun _ => Rejected "Navigation timeout of 30000 ms exceeded";
     setContent := fun _ => Resolved tt;
     pdf := fun _ => Resolved screenshotBytes;
     screenshot := fun _ => Resolved screenshotBytes;
     close := Resolved tt |}.

Definition goodBrowser : option Browser := Some {| newPage := Resolved goodPage |}.
Definition timeoutBrowser : option Browser := Some {| newPage := Resolved timeoutPage |}.

Definition anyURL (value : string) : bool := negb (String.eqb value "").

Definition exampleUrl : string := "https://example.com".
Definition exampleHtml : string := "<h1>hi</h1>".

Definition pdfExport : PdfExport.t :=
  {| PdfExport.scale := Num.lit_1;
     PdfExport.type := png;
     PdfExport.quality := Num.lit_100;
     PdfExport.fullPage := true;
     PdfExport.clip := None;
     PdfExport.omitBackground := false;
     PdfExport.encoding := binary;
     PdfExport.margin :=
       {| Margin.top := "0"; Margin.right := "0";
          Margin.bottom := "0"; Margin.left := "0" |};
     PdfExport.printBackground := false;
     PdfExport.viewport := None |}.

Definition imageExport (maxFileSize : number) : ImageExport.t :=
  {| ImageExport.scale := Num.lit_1;
     ImageExport.type := png;
     ImageExport.quality := Num.lit_100;
     ImageExport.fullPage := true;
     ImageExport.clip := None;
     ImageExport.omitBackground := false;
     ImageExport.encoding := binary;
     ImageExport.maxFileSize := maxFileSize;
     ImageExport.viewport := None |}.

Definition pdfOfUrl : PdfRequest.t :=
  {| PdfRequest.url := Some exampleUrl; PdfRequest.html := None;
     PdfRequest.export := pdfExport |}.

Definition pdfOfBoth : PdfRequest.t :=
  {| PdfRequest.url := Some exampleUrl; PdfRequest.html := Some exampleHtml;
     PdfRequest.export := pdfExport |}.

Definition imageOfUrl (maxFileSize : number) : ImageRequest.t :=
  {| ImageRequest.url := Some exampleUrl; ImageRequest.html := None;
     ImageRequest.export := imageExport maxFileSize |}.

Definition imageOfBoth : ImageRequest.t :=
  {| ImageRequest.url := Some exampleUrl; ImageRequest.html := Some exampleHtml;
     ImageRequest.export := imageExport Num.lit_4MiB |}.

(** Request bodies. *)
Definition emptyBody : json := JObj ∅.
Definition emptyExportBody : json := JObj {[ "export" := JObj ∅ ]}.
Definition bothBody : json :=
  JObj {[ "url" := JStr exampleUrl; "html" := JStr exampleHtml ]}.
Definition scaleBody (scale : number) : json :=
  JObj {[ "url" := JStr exampleUrl; "export" := JObj {[ "scale" := JNum scale ]} ]}.
Definition qualityBody (quality : number) : json :=
  JObj {[ "url" := JStr exampleUrl; "export" := JObj {[ "quality" := JNum quality ]} ]}.

End Examples.

(* ===================================================================== *)
(** * Reading a trace of [compressImage] against the codec *)
(* ===================================================================== *)

(** The message with which the codec rejects a call on [imageBuffer], if it
    rejects it. *)
Definition rejection (sharp : Sharp) (imageBuffer : Buffer) (e : Event) : option string :=
  match e with
  | EvToBuffer format quality =>
      match toBuffer sharp imageBuffer format quality with
      | Rejected message => Some message
      | Resolved _ => None
      end
  | EvResizeToBuffer width height format quality =>
      match resizeToBuffer sharp imageBuffer width height format quality with
      | Rejected message => Some message
      | Resolved _ => None
      end
  | EvMetadata =>
      match metadata sharp imageBuffer with
      | Rejected message => Some message
      | Resolved _ => None
      end
  | _ => None
  end.

(** A computation whose calls all go to the codec on [imageBuffer], read
    against the codec's answers: a call that is followed by another one was
    resolved, and the computation throws exactly the rejection of its last
    call. *)
Definition stopsAtFirstRejection {A} (sharp : Sharp) (imageBuffer : Buffer) (m : M A) : Prop :=
  match outcome m with
  | Throw message =>
      exists before call,
        trace m = before ++ [call]
        /\ Forall (fun e => rejection sharp imageBuffer e = None) before
        /\ rejection sharp imageBuffer call = Some message
  | _ => Forall (fun e => rejection sharp imageBuffer e = None) (trace m)
  end.

(** What [compressImage] may pass to the encoder: on the quality ladder a
    quality of 10 to 100, on the scale ladder quality 70, always in the
    target format. *)
Definition encoderCallInRange (targetFormat : ImageType) (e : Event) : Prop :=
  match e with
  | EvToBuffer format quality =>
      format = targetFormat
      /\ Num.geb quality Num.lit_10 = true /\ Num.leb quality Num.lit_100 = true
  | EvResizeToBuffer _ _ format quality =>
      format = targetFormat /\ quality = Num.lit_70
  | EvMetadata => True
  | _ => False
  end.

(* ===================================================================== *)
(** * Reading a trace of a render *)
(* ===================================================================== *)

(** The call that loads the content, if the body names any:
    [goto(url)] for a truthy [url], else [setContent(html)] for a truthy
    [html]. *)
Definition navigationCall (url html : option string) : option Event :=
  if truthyString url then option_map EvGoto url
  else if truthyString html then option_map EvSetContent html
  else None.

(** The call that sets the viewport, if the body gives one. *)
Definition viewportCalls (viewport : option Viewport.t) : list Event :=
  match viewport with
  | Some v => [EvSetViewport v]
  | None => []
  end.

(** [page] with another answer to [close()]. *)
Definition withClose (page : Page) (answer : Settled unit) : Page :=
  {| setViewport := setViewport page;
     goto := goto page;
     setContent := setContent page;
     pdf := pdf page;
     screenshot := screenshot page;
     close := answer |}.

(** The viewport, if any, is accepted by the page. *)
Definition viewportAccepted (page : Page) (viewport : option Viewport.t) : Prop :=
  forall v, viewport = Some v -> setViewport page v = Resolved tt.

(* ===================================================================== *)
(** * The process: environment, module state and its effects *)
(* ===================================================================== *)

(** [process.env], the three variables that the program reads. *)
Module Env.
Record t := {
  API_KEY : option string;
  PORT : option string;
  PUPPETEER_SKIP_CHROMIUM_DOWNLOAD : option string
}.
End Env.

(** The argument of [puppeteer.launch]. *)
Module LaunchOptions.
Record t := {
  executablePath : option string;
  args : list string;
  headless : bool
}.
End LaunchOptions.

(** puppeteer. Of the browser that [launch] resolves to, the program reads
    [wsEndpoint()] and calls [disconnect()]; [connect] resolves to the
    browser that the renderers use. *)
Record Puppeteer := {
  launch : LaunchOptions.t -> Settled string;
  connect : string -> Settled Browser
}.

(** An argument of [log]: a string, a number, the template
    [`${n}ms`], or an object literal. *)
#[warnings="-register-all"]
Inductive LogArg :=
| LStr (s : string)
| LNum (n : number)
| LMs (n : number)
| LObj (fields : list (string * LogArg)).

(** What the process does besides computing, in program order. [EvLog]
    stands for [console.log(formatLog(...args))]; the line that [formatLog]
    builds from the clock and the arguments is not modelled. *)
Inductive Effect :=
| Call (e : Event)
| EvLaunch (options : LaunchOptions.t)
| EvDisconnect
| EvConnect (browserWSEndpoint : string)
| EvLog (args : list LogArg)
| EvConsoleError (message : string)
| EvServe (port : number).

(** A computation of the process reads and writes the module variable
    [browser] of browser.ts and records its effects. *)
Definition IO (A : Type) : Type :=
  option Browser -> Completion A * list Effect * option Browser.

Module io.

Definition ret {A} (a : A) : IO A := fun browser => (Return a, [], browser).

Definition throw {A} (message : string) : IO A :=
  fun browser => (Throw message, [], browser).

Definition bind {A B} (m : IO A) (k : A -> IO B) : IO B :=
  fun browser =>
    match m browser with
    | (Return a, effects, browser') =>
        let '(c, effects', browser'') := k a browser' in
        (c, effects ++ effects', browser'')
    | (Throw message, effects, browser') => (Throw message, effects, browser')
    | (OutOfFuel, effects, browser') => (OutOfFuel, effects, browser')
    end.

(** [await call(...)] *)
Definition await {A} (e : Effect) (p : Settled A) : IO A :=
  fun browser =>
    match p with
    | Resolved a => (Return a, [e], browser)
    | Rejected message => (Throw message, [e], browser)
    end.

(** A call whose result is not used. *)
Definition call (e : Effect) : IO unit := fun browser => (Return tt, [e], browser).

(** Reading and assigning the module variable. *)
Definition get : IO (option Browser) := fun browser => (Return browser, [], browser).
Definition set (b : Browser) : IO unit := fun _ => (Return tt, [], Some b).

(** A renderer, run against the current value of the module variable. *)
Definition lift {A} (m : option Browser -> M A) : IO A :=
  fun browser => let (c, calls) := m browser in (c, map Call calls, browser).

(** [try { ... } catch (error) { ... }] *)
Definition tryCatch {A} (body : IO A) (handler : string -> IO A) : IO A :=
  fun browser =>
    match body browser with
    | (Throw message, effects, browser') =>
        let '(c, effects', browser'') := handler message browser' in
        (c, effects ++ effects', browser'')
    | r => r
    end.

Definition outcome {A} (r : Completion A * list Effect * option Browser) : Completion A :=
  fst (fst r).
Definition effects {A} (r : Completion A * list Effect * option Browser) : list Effect :=
  snd (fst r).
Definition state {A} (r : Completion A * list Effect * option Browser) : option Browser :=
  snd r.

End io.

Declare Scope io_scope.
Delimit Scope io_scope with io.
Notation "x <- m ;; k" := (io.bind m (fun x => k))
  (at level 100, m at next level, right associativity) : io_scope.
Notation "m ;; k" := (io.bind m (fun _ => k))
  (at level 100, right associativity) : io_scope.

(** [log(...args)] *)
Definition log (args : list LogArg) : IO unit := io.call (EvLog args).

(* ===================================================================== *)
(** * browser.ts: [getBrowserWebsocket] and [launchBrowser] *)
(* ===================================================================== *)

Section BrowserModule.

Local Open Scope io_scope.

Variable env : Env.t.
Variable puppeteer : Puppeteer.

Definition launchOptions : LaunchOptions.t :=
  {| LaunchOptions.executablePath :=
       if truthyString (Env.PUPPETEER_SKIP_CHROMIUM_DOWNLOAD env)
       then Some "/usr/bin/chromium-browser" else None;
     LaunchOptions.args := ["--no-sandbox"; "--disable-dev-shm-usage"];
     LaunchOptions.headless := true |}.

Definition getBrowserWebsocket : IO string :=
  browserWSEndpoint <- io.await (EvLaunch launchOptions) (launch puppeteer launchOptions) ;;
  io.call EvDisconnect ;;
  io.ret browserWSEndpoint.

Definition launchBrowser : IO unit :=
  browser <- io.get ;;
  match browser with
  | Some _ => io.ret tt
  | None =>
      browserWSEndpoint <- getBrowserWebsocket ;;
      connected <- io.await (EvConnect browserWSEndpoint)
                     (connect puppeteer browserWSEndpoint) ;;
      io.set connected
  end.

End BrowserModule.

(* ===================================================================== *)
(** * index.ts: the middleware, the routes and [run] *)
(* ===================================================================== *)

(** The requests that the routes are registered for. *)
Inductive Method := GET | POST.

Definition methodName (m : Method) : string :=
  match m with GET => "GET" | POST => "POST" end.

(** A request: method, path, the header [X-API-Key] and the JSON body. *)
Module Request.
Record t := {
  method : Method;
  path : string;
  apiKey : option string;
  json : json
}.
End Request.

(** The two readings of [Date.now()] that the first middleware takes. *)
Module Clock.
Record t := { start : number; finish : number }.
End Clock.

Inductive AppResponse :=
(** a response of the handlers of [/pdf] and [/image], or a
    [c.json({error}, status)] of the middleware *)
| Routed (r : Response)
(** [c.json({status: value}, code)] *)
| StatusJson (code : Z) (value : string)
(** hono's answer when no handler responds *)
| NotFound
(** hono's answer to an exception of a handler *)
| InternalServerError.

(** [c.res.status] *)
Definition statusOf (res : AppResponse) : Z :=
  match res with
  | Routed (Body _ _) => 200
  | Routed (ErrorJson status _) => status
  | Routed (Invalid _) => 400
  | StatusJson code _ => code
  | NotFound => 404
  | InternalServerError => 500
  end.

(** The part of hono that index.ts uses. *)
Module hono.

(** A handler of hono: the request and [next], the rest of the chain. *)
Definition Handler : Type := Request.t -> IO AppResponse -> IO AppResponse.

Record Route := { matches : Request.t -> bool; handle : Handler }.

Definition isMethod (m m' : Method) : bool :=
  match m, m' with
  | GET, GET | POST, POST => true
  | _, _ => false
  end.

(** [app.use('*', handler)], [app.get(path, handler)] and
    [app.post(path, handler)]. *)
Definition use (handler : Handler) : Route :=
  {| matches := fun _ => true; handle := handler |}.

Definition get (path : string) (handler : Request.t -> IO AppResponse) : Route :=
  {| matches := fun c => isMethod (Request.method c) GET && String.eqb (Request.path c) path;
     handle := fun c _ => handler c |}.

Definition post (path : string) (handler : Request.t -> IO AppResponse) : Route :=
  {| matches := fun c => isMethod (Request.method c) POST && String.eqb (Request.path c) path;
     handle := fun c _ => handler c |}.

(** hono's default error handler: the error is printed and the answer is
    500. *)
Definition onError (m : IO AppResponse) : IO AppResponse :=
  io.tryCatch m
    (fun message => io.bind (io.call (EvConsoleError message))
                      (fun _ => io.ret InternalServerError)).

(** hono runs the handlers that match, in the order of their registration,
    each with the rest of the chain as [next]; when none responds the answer
    is 404. *)
Fixpoint compose (routes : list Route) (c : Request.t) : IO AppResponse :=
  match routes with
  | [] => io.ret NotFound
  | r :: rest =>
      if matches r c then onError (handle r c (compose rest c))
      else compose rest c
  end.

End hono.

Module index.

Section App.

Local Open Scope io_scope.

Variable env : Env.t.
Variable clock : Clock.t.
Variable validURL : string -> bool.
Variable sharp : Sharp.
Variable fuel : nat.

(** The first [app.use('*', ...)]: the request is logged after it has been
    handled. *)
Definition requestLogger : hono.Handler :=
  fun c next =>
    let method := Request.method c in
    let path := Request.path c in
    res <- next ;;
    let duration := Num.sub (Clock.finish clock) (Clock.start clock) in
    log [LStr "request";
         LObj [("method", LStr (methodName method)); ("path", LStr path);
               ("code", LNum (Num.of_Z (statusOf res))); ("duration", LMs duration)]] ;;
    io.ret res.

(** [===] on two values that are strings or [undefined]. *)
Definition sameString (a b : option string) : bool :=
  match a, b with
  | Some x, Some y => String.eqb x y
  | None, None => true
  | _, _ => false
  end.

(** The second [app.use('*', ...)]: the check of the API key. *)
Definition apiKeyMiddleware : hono.Handler :=
  fun c next =>
    let apiKey := Env.API_KEY env in
    if negb (truthyString apiKey) then next
    else
      let providedKey := Request.apiKey c in
      if negb (truthyString providedKey) then
        io.ret (Routed (ErrorJson 401 "API key is required"))
      else if negb (sameString providedKey apiKey) then
        io.ret (Routed (ErrorJson 401 "Invalid API key"))
      else next.

(** [zValidator('json', schema)] followed by the handler of the route: a
    failed parse is answered with 400 and the issues, an exception of the
    parse is thrown on. *)
Definition zValidator {A} (schema : z.Schema A) (handler : A -> IO AppResponse)
    : Request.t -> IO AppResponse :=
  fun c =>
    match z.safeParse schema (Request.json c) with
    | z.Exception e => io.throw e
    | z.Failure issues => io.ret (Routed (Invalid issues))
    | z.Success data => handler data
    end.

(** The [catch] block of both handlers. *)
Definition answerError (errorMessage : string) : IO AppResponse :=
  log [LStr "error"; LObj [("errorMessage", LStr errorMessage)]] ;;
  io.ret (Routed (ErrorJson 400 errorMessage)).

Definition pdfHandler (data : PdfRequest.t) : IO AppResponse :=
  io.tryCatch
    (pdfBuffer <- io.lift (fun browser => generatePdf browser data) ;;
     io.ret (Routed (Body "application/pdf" pdfBuffer)))
    answerError.

Definition imageHandler (data : ImageRequest.t) : IO AppResponse :=
  io.tryCatch
    (imageBuffer <- io.lift (fun browser => generateImage fuel sharp browser data) ;;
     let contentType := contentTypeOf (ImageExport.type (ImageRequest.export data)) in
     io.ret (Routed (Body contentType imageBuffer)))
    answerError.

(** The handlers in the order in which index.ts registers them. *)
Definition app : list hono.Route :=
  [ hono.use requestLogger;
    hono.get "/health" (fun _ => io.ret (StatusJson 200 "ok"));
    hono.use apiKeyMiddleware;
    hono.get "/" (fun _ => io.ret (StatusJson 200 "ready!"));
    hono.post "/pdf" (zValidator (PdfRequestSchema validURL) pdfHandler);
    hono.post "/image" (zValidator (ImageRequestSchema validURL) imageHandler) ].

(** [app.fetch] *)
Definition fetch (c : Request.t) : IO AppResponse := hono.compose app c.

End App.

Section Run.

Local Open Scope io_scope.

Variable env : Env.t.
Variable puppeteer : Puppeteer.
(** [parseInt(value, 10)] *)
Variable parseInt : string -> number.

(** [process.env.PORT ? parseInt(process.env.PORT, 10) : 80] *)
Definition PORT : number :=
  match Env.PORT env with
  | Some value => if truthyString (Some value) then parseInt value else Num.of_Z 80
  | None => Num.of_Z 80
  end.

Definition run : IO unit :=
  let apiKey := Env.API_KEY env in
  (if truthyString apiKey then log [LStr "info"; LStr "API key is required for all requests"]
   else log [LStr "info"; LStr "No API key is configured"]) ;;
  launchBrowser env puppeteer ;;
  io.call (EvServe PORT) ;;
  log [LStr "started"; LObj [("PORT", LNum PORT)]].

End Run.

End index.

(** The calls of the renderers among the effects. *)
Definition callsOf (effects : list Effect) : list Event :=
  flat_map (fun e => match e with Call c => [c] | _ => [] end) effects.

Definition isRequestLog (e : Effect) : bool :=
  match e with
  | EvLog (LStr tag :: _) => String.eqb tag "request"
  | _ => false
  end.

Definition isServe (e : Effect) : bool :=
  match e with EvServe _ => true | _ => false end.


(** The key of a request passes the check of [apiKeyMiddleware]: no key is
    configured, or the header is the configured key. *)
Definition keyAccepted (env : Env.t) (c : Request.t) : bool :=
  negb (truthyString (Env.API_KEY env))
  || index.sameString (Request.apiKey c) (Env.API_KEY env).

(** The line that the first middleware logs for a request and its
    response. *)
Definition requestLog (clock : Clock.t) (c : Request.t) (res : AppResponse) : Effect :=
  EvLog [LStr "request";
         LObj [("method", LStr (methodName (Request.method c)));
               ("path", LStr (Request.path c));
               ("code", LNum (Num.of_Z (statusOf res)));
               ("duration", LMs (Num.sub (Clock.finish clock) (Clock.start clock)))]].

(** A computation that logs no request line. *)
Definition noRequestLog {A} (m : IO A) : Prop :=
  forall browser, Forall (fun e => isRequestLog e = false) (io.effects (m browser)).

(** What the answer of a route becomes on its way through hono. *)
Definition answerOf (c : Completion Response) : Completion AppResponse :=
  match c with
  | Return res => Return (Routed res)
  | Throw _ => Return InternalServerError
  | OutOfFuel => OutOfFuel
  end.

(* ===================================================================== *)
(** * Concrete codecs, requests and environments for further examples *)
(* ===================================================================== *)

Module Samples.

Import Examples.

(** A codec that rejects every encoding. *)
Definition failingSharp : Sharp :=
  {| toBuffer := fun _ _ _ => Rejected "Input buffer contains unsupported image format";
     resizeToBuffer := fun _ _ _ _ _ =>
       Rejected "Input buffer contains unsupported image format";
     metadata := fun _ => Resolved square100 |}.

(** An image of 1 by 100 pixels. *)
Definition narrowStrip : Metadata.t :=
  {| Metadata.width := Some (Num.of_Z 1); Metadata.height := Some (Num.of_Z 100) |}.

(** The error of sharp for [resize(0, ...)]. *)
Definition zeroWidth : string :=
  "Expected positive integer for width but received 0 of type number".

(** A codec for an image of 1 by 100 pixels: every encoding is two bytes
    long, and a resize to a side of 0 is rejected, as sharp does. *)
Definition strictSharp : Sharp :=
  {| toBuffer := fun _ _ _ => Resolved twoBytes;
     resizeToBuffer := fun _ w h _ _ =>
       if Num.truthy w && Num.truthy h then Resolved twoBytes
       else Rejected zeroWidth;
     metadata := fun _ => Resolved narrowStrip |}.

(** A codec that cannot read the metadata of its input. *)
Definition unreadableSharp : Sharp :=
  {| toBuffer := fun _ _ _ => Resolved twoBytes;
     resizeToBuffer := fun _ _ _ _ _ => Resolved twoBytes;
     metadata := fun _ => Rejected "Input buffer contains unsupported image format" |}.

Definition goodBrowser' : Browser := {| newPage := Resolved goodPage |}.

(** Bodies with a url only, with an ill-formed url, with an [export]
    object without margin, and with an empty viewport. *)
Definition urlFields : gmap string json := {[ "url" := JStr exampleUrl ]}.
Definition badUrlFields : gmap string json := {[ "url" := JStr "" ]}.
Definition emptyHtmlFields : gmap string json := {[ "html" := JStr "" ]}.
Definition emptyExportFields : gmap string json :=
  {[ "url" := JStr exampleUrl; "export" := JObj ∅ ]}.
Definition emptyViewportFields : gmap string json :=
  {[ "url" := JStr exampleUrl; "export" := JObj {[ "viewport" := JObj ∅ ]} ]}.
Definition jpegFields : gmap string json :=
  {[ "url" := JStr exampleUrl; "export" := JObj {[ "type" := JStr "jpeg" ]} ]}.

Definition urlPdfRequest : PdfRequest.t :=
  {| PdfRequest.url := Some exampleUrl; PdfRequest.html := None;
     PdfRequest.export := pdfExportDefault |}.

Definition viewportImageRequest : ImageRequest.t :=
  {| ImageRequest.url := Some exampleUrl; ImageRequest.html := None;
     ImageRequest.export :=
       {| ImageExport.scale := Num.lit_1;
          ImageExport.type := png;
          ImageExport.quality := Num.lit_100;
          ImageExport.fullPage := true;
          ImageExport.clip := None;
          ImageExport.omitBackground := false;
          ImageExport.encoding := binary;
          ImageExport.maxFileSize := Num.lit_4MiB;
          ImageExport.viewport :=
            Some {| Viewport.width := Num.lit_1280; Viewport.height := Num.lit_720 |} |} |}.

Definition urlImageRequest : ImageRequest.t :=
  {| ImageRequest.url := Some exampleUrl; ImageRequest.html := None;
     ImageRequest.export := imageExportDefault |}.

Definition jpegImageRequest : ImageRequest.t :=
  {| ImageRequest.url := Some exampleUrl; ImageRequest.html := None;
     ImageRequest.export :=
       {| ImageExport.scale := Num.lit_1;
          ImageExport.type := jpeg;
          ImageExport.quality := Num.lit_100;
          ImageExport.fullPage := true;
          ImageExport.clip := None;
          ImageExport.omitBackground := false;
          ImageExport.encoding := binary;
          ImageExport.maxFileSize := Num.lit_4MiB;
          ImageExport.viewport := None |} |}.

(** An environment with a key, and requests against it. *)
Definition keyEnv : Env.t :=
  {| Env.API_KEY := Some "secret"; Env.PORT := None;
     Env.PUPPETEER_SKIP_CHROMIUM_DOWNLOAD := None |}.

Definition noon : Clock.t :=
  {| Clock.start := Num.of_Z 1000; Clock.finish := Num.of_Z 1012 |}.

Definition healthRequest : Request.t :=
  {| Request.method := GET; Request.path := "/health";
     Request.apiKey := None; Request.json := JNull |}.

Definition pdfRequestWithKey (key : option string) : Request.t :=
  {| Request.method := POST; Request.path := "/pdf";
     Request.apiKey := key; Request.json := JObj urlFields |}.

End Samples.

(* ===================================================================== *)
(** * Comparing doubles *)
(* ===================================================================== *)

Lemma SFcompare_antisym a b : SFcompare b a = option_map CompOpp (SFcompare a b).
Proof.
  destruct a as [s|s| |s m e], b as [s'|s'| |s' m' e']; simpl; try reflexivity;
    try (destruct s; reflexivity); try (destruct s'; reflexivity);
    try (destruct s, s'; reflexivity).
  destruct s, s'; simpl; try reflexivity.
  - rewrite (Z.compare_antisym e e'). destruct (e ?= e'); simpl; try reflexivity.
    do 2 f_equal. symmetry. exact (Pos.compare_cont_antisym m m' Eq).
  - rewrite (Z.compare_antisym e e'). destruct (e ?= e'); simpl; try reflexivity.
    f_equal. symmetry. exact (Pos.compare_cont_antisym m m' Eq).
Qed.

Lemma SFcompare_defined a b :
  z.isNaN a = false -> z.isNaN b = false -> exists c, SFcompare a b = Some c.
Proof.
  destruct a as [s|s| |s m e], b as [s'|s'| |s' m' e']; simpl; intros Ha Hb;
    try discriminate; eauto.
Qed.

(** [a <= b] excludes [a > b]. *)
Lemma leb_not_gtb a b : Num.leb a b = true -> Num.gtb a b = false.
Proof.
  unfold Num.leb, Num.gtb, SFleb, SFltb. rewrite (SFcompare_antisym a b).
  destruct (SFcompare a b) as [[| |]|]; simpl; congruence.
Qed.

(** For numbers that are not NaN, "not [a < b]" is [b <= a]. *)
Lemma not_ltb_leb a b :
  z.isNaN a = false -> z.isNaN b = false -> Num.ltb a b = false -> Num.leb b a = true.
Proof.
  intros Ha Hb. unfold Num.leb, Num.ltb, SFleb, SFltb. rewrite (SFcompare_antisym a b).
  destruct (SFcompare_defined a b Ha Hb) as [c ->]. destruct c; simpl; congruence.
Qed.

Lemma ltb_not_leb a b : Num.ltb a b = true -> Num.leb b a = false.
Proof.
  unfold Num.leb, Num.ltb, SFleb, SFltb. rewrite (SFcompare_antisym a b).
  destruct (SFcompare a b) as [[| |]|]; simpl; congruence.
Qed.

Lemma ltb_not_NaN a b : Num.ltb a b = true -> z.isNaN a = false.
Proof. destruct a; simpl; try reflexivity. discriminate. Qed.

(* ===================================================================== *)
(** * Traces and counting *)
(* ===================================================================== *)

Lemma count_app p (l l' : list Event) :
  count p (l ++ l') = (count p l + count p l')%nat.
Proof. unfold count. now rewrite List.filter_app, List.length_app. Qed.

Lemma count_le_length p (l : list Event) : (count p l <= List.length l)%nat.
Proof. unfold count. apply List.filter_length_le. Qed.

Lemma count_none p (l : list Event) :
  (forall e, In e l -> p e = false) -> count p l = 0%nat.
Proof.
  unfold count. induction l as [|e l IH]; intros H; [reflexivity|].
  simpl. rewrite (H e (or_introl eq_refl)). apply IH.
  intros e' He'. apply H. now right.
Qed.

Lemma count_all p (l : list Event) :
  (forall e, In e l -> p e = true) -> count p l = List.length l.
Proof.
  unfold count. induction l as [|e l IH]; intros H; [reflexivity|].
  simpl. rewrite (H e (or_introl eq_refl)). simpl. f_equal. apply IH.
  intros e' He'. apply H. now right.
Qed.

Lemma count_map {P} p (ev : P -> Event) (l : list P) :
  (forall c, p (ev c) = true) -> count p (map ev l) = List.length l.
Proof.
  intros H. rewrite count_all; [apply List.length_map|].
  intros e He. apply List.in_map_iff in He. destruct He as [c [<- _]]. apply H.
Qed.

Lemma count_map_none {P} p (ev : P -> Event) (l : list P) :
  (forall c, p (ev c) = false) -> count p (map ev l) = 0%nat.
Proof.
  intros H. apply count_none.
  intros e He. apply List.in_map_iff in He. destruct He as [c [<- _]]. apply H.
Qed.

(** Sequencing, by the completion of the first part. *)
Lemma bind_Return {A B} (k : A -> M B) a calls :
  bind (Return a, calls) k = (outcome (k a), calls ++ trace (k a)).
Proof. unfold bind, outcome, trace. now destruct (k a). Qed.

Lemma bind_Throw {A B} (k : A -> M B) e calls :
  bind (Throw e, calls) k = (Throw e, calls).
Proof. reflexivity. Qed.

Lemma bind_OutOfFuel {A B} (k : A -> M B) calls :
  bind (OutOfFuel, calls) k = (OutOfFuel, calls).
Proof. reflexivity. Qed.

Lemma bind_ext {A B} (m : M A) (k k' : A -> M B) :
  (forall a, k a = k' a) -> bind m k = bind m k'.
Proof.
  intros H. destruct m as [[a| |] calls]; simpl; [now rewrite H | reflexivity..].
Qed.

Lemma pair_outcome_trace {A} (m : M A) : m = (outcome m, trace m).
Proof. now destruct m. Qed.

Lemma await_trace {A} e (p : Settled A) : trace (await e p) = [e].
Proof. now destruct p. Qed.

Lemma await_Resolved {A} e (a : A) : await e (Resolved a) = (Return a, [e]).
Proof. reflexivity. Qed.

Lemma await_not_OutOfFuel {A} e (p : Settled A) : outcome (await e p) <> OutOfFuel.
Proof. now destruct p. Qed.

(* ===================================================================== *)
(** * Trying candidates in order *)
(* ===================================================================== *)

Section TryInOrder.

Context {P : Type} (attempt : P -> M Buffer) (maxFileSize : number).

(** The one call that an attempt makes. *)
Variable ev : P -> Event.

(** Whatever the attempts answer, the calls made are those of the first
    candidates, in order. *)
Lemma tryInOrder_trace_prefix candidates :
  (forall c, trace (attempt c) = [ev c]) ->
  exists tried rest,
    candidates = tried ++ rest
    /\ trace (tryInOrder attempt maxFileSize candidates) = map ev tried.
Proof.
  intros H1. induction candidates as [|c rest IH]; simpl.
  - now exists [], [].
  - specialize (H1 c).
    destruct (attempt c) as [[r| |] calls] eqn:E; simpl in *; subst calls.
    + destruct (fits r maxFileSize); simpl.
      * now exists [c], rest.
      * destruct IH as [tried [rest' [-> Ht]]].
        destruct (tryInOrder attempt maxFileSize (tried ++ rest')) as [c' calls'].
        simpl in *. subst calls'. now exists (c :: tried), rest'.
    + now exists [c], rest.
    + now exists [c], rest.
Qed.

Lemma tryInOrder_never_out_of_fuel candidates :
  (forall c, outcome (attempt c) <> OutOfFuel) ->
  outcome (tryInOrder attempt maxFileSize candidates) <> OutOfFuel.
Proof.
  intros H1. induction candidates as [|c rest IH]; simpl; [discriminate|].
  specialize (H1 c).
  destruct (attempt c) as [[r| |] calls] eqn:E; simpl in *; try discriminate.
  - destruct (fits r maxFileSize); simpl; [discriminate|].
    destruct (tryInOrder attempt maxFileSize rest) as [c' calls'] eqn:E'.
    simpl in *. assumption.
  - congruence.
Qed.

(** No candidate fits: all are tried and nothing is returned. *)
Lemma tryInOrder_none candidates :
  (forall c, In c candidates ->
     exists b, attempt c = (Return b, [ev c]) /\ fits b maxFileSize = false) ->
  tryInOrder attempt maxFileSize candidates = (Return None, map ev candidates).
Proof.
  induction candidates as [|c rest IH]; intros H; simpl; [reflexivity|].
  destruct (H c (or_introl eq_refl)) as [b [Ha Hf]].
  rewrite Ha. simpl. rewrite Hf.
  rewrite IH; [reflexivity|]. intros c' Hc'. apply H. now right.
Qed.

(** The first candidate that fits is returned, after the ones before it
    and without trying the ones after it. *)
Lemma tryInOrder_first before c after b :
  (forall c', In c' before ->
     exists b', attempt c' = (Return b', [ev c']) /\ fits b' maxFileSize = false) ->
  attempt c = (Return b, [ev c]) -> fits b maxFileSize = true ->
  tryInOrder attempt maxFileSize (before ++ c :: after)
  = (Return (Some b), map ev (before ++ [c])).
Proof.
  induction before as [|c0 rest IH]; intros H Ha Hf; simpl.
  - rewrite Ha. simpl. now rewrite Hf.
  - destruct (H c0 (or_introl eq_refl)) as [b0 [Ha0 Hf0]].
    rewrite Ha0. simpl. rewrite Hf0.
    rewrite IH; [reflexivity| |assumption..]. intros c' Hc'. apply H. now right.
Qed.

End TryInOrder.

(* ===================================================================== *)
(** * The two loops follow their ladders *)
(* ===================================================================== *)

Lemma qualityLadder_more_fuel fuel : forall q l extra,
  qualityLadder fuel q = Some l -> qualityLadder (fuel + extra) q = Some l.
Proof.
  induction fuel as [|fuel IH]; intros q l extra; simpl; [discriminate|].
  destruct (Num.geb q Num.lit_10); [|trivial].
  destruct (qualityLadder fuel (Num.sub q Num.lit_10)) as [rest|] eqn:E; [|discriminate].
  intros [= <-]. now rewrite (IH _ _ extra E).
Qed.

Lemma scaleLadder_more_fuel fuel : forall s l extra,
  scaleLadder fuel s = Some l -> scaleLadder (fuel + extra) s = Some l.
Proof.
  induction fuel as [|fuel IH]; intros s l extra; simpl; [discriminate|].
  destruct (Num.geb s Num.lit_0_3); [|trivial].
  destruct (scaleLadder fuel (Num.sub s Num.lit_0_1)) as [rest|] eqn:E; [|discriminate].
  intros [= <-]. now rewrite (IH _ _ extra E).
Qed.

Section Loops.

Variable sharp : Sharp.
Variables (imageBuffer : Buffer) (targetFormat : ImageType) (maxFileSize : number).

Lemma qualityLoop_follows_ladder fuel : forall q l,
  qualityLadder fuel q = Some l ->
  qualityLoop sharp fuel imageBuffer targetFormat maxFileSize q
  = tryInOrder (reencode sharp imageBuffer targetFormat) maxFileSize l.
Proof.
  induction fuel as [|fuel IH]; intros q l; simpl; [discriminate|].
  destruct (Num.geb q Num.lit_10); [|now intros [= <-]].
  destruct (qualityLadder fuel (Num.sub q Num.lit_10)) as [rest|] eqn:E; [|discriminate].
  intros [= <-]. simpl. apply bind_ext. intros result.
  destruct (fits result maxFileSize); [reflexivity|]. now apply IH.
Qed.

Lemma scaleLoop_follows_ladder width height fuel : forall s l,
  scaleLadder fuel s = Some l ->
  scaleLoop sharp fuel imageBuffer targetFormat maxFileSize width height s
  = tryInOrder (resizeAndEncode sharp imageBuffer targetFormat width height) maxFileSize l.
Proof.
  induction fuel as [|fuel IH]; intros s l; simpl; [discriminate|].
  destruct (Num.geb s Num.lit_0_3); [|now intros [= <-]].
  destruct (scaleLadder fuel (Num.sub s Num.lit_0_1)) as [rest|] eqn:E; [|discriminate].
  intros [= <-]. simpl. apply bind_ext. intros result.
  destruct (fits result maxFileSize); [reflexivity|]. now apply IH.
Qed.

End Loops.

(* ===================================================================== *)
(** * The ladders, evaluated *)
(* ===================================================================== *)

Lemma same_eq a b : Num.same a b = true -> a = b.
Proof.
  destruct a as [s|s| |s m e], b as [s'|s'| |s' m' e']; simpl; try discriminate;
    try reflexivity.
  - intros H. apply Bool.eqb_prop in H. now subst.
  - intros H. apply Bool.eqb_prop in H. now subst.
  - intros H. apply andb_prop in H. destruct H as [H He].
    apply andb_prop in H. destruct H as [Hs Hm].
    apply Bool.eqb_prop in Hs. apply Pos.eqb_eq in Hm. apply Z.eqb_eq in He.
    now subst.
Qed.

Lemma sameList_eq l : forall l', sameList l l' = true -> l = l'.
Proof.
  induction l as [|a l IH]; intros [|a' l']; simpl; try discriminate; [reflexivity|].
  intros H. apply andb_prop in H. destruct H as [Ha Hl].
  apply same_eq in Ha. apply IH in Hl. now subst.
Qed.

Lemma allFrom_spec f steps : forall start,
  allFrom f steps start = true ->
  forall k, start <= k < start + Z.of_nat steps -> f k = true.
Proof.
  induction steps as [|steps IH]; intros start H k Hk; [lia|].
  simpl in H. apply andb_prop in H. destruct H as [H0 H1].
  destruct (Z.eq_dec k start) as [->|Hne]; [assumption|].
  apply (IH (start + 1) H1). lia.
Qed.

Lemma scaleLadder_evaluated : scaleLadder 8 Num.lit_0_9 = Some scaleFactors.
Proof. vm_compute. reflexivity. Qed.

Lemma qualityLadder_evaluated : allFrom qualityLadderIsSteps 100 1 = true.
Proof. vm_compute. reflexivity. Qed.

Lemma quality_truthy n : 1 <= n <= 100 -> Num.truthy (Num.of_Z n) = true.
Proof.
  intros Hn. pose proof (allFrom_spec _ _ _ qualityLadder_evaluated n) as H.
  unfold qualityLadderIsSteps in H. apply andb_prop in H; [tauto | simpl; lia].
Qed.

Lemma qualityLadder_steps n :
  1 <= n <= 100 -> qualityLadder 11 (Num.of_Z n) = Some (map Num.of_Z (qualitySteps n)).
Proof.
  intros Hn. pose proof (allFrom_spec _ _ _ qualityLadder_evaluated n) as H.
  unfold qualityLadderIsSteps in H. apply andb_prop in H; [|simpl; lia].
  destruct H as [_ H].
  destruct (qualityLadder 11 (Num.of_Z n)) as [l|]; [|discriminate].
  now apply sameList_eq in H; subst.
Qed.

Lemma initialQuality_start q :
  validQuality q -> initialQuality (qualityOfZ q) = Num.of_Z (startQuality q).
Proof.
  destruct q as [n|]; simpl; [|intros _; reflexivity].
  intros Hn. destruct (Z.eqb_spec n 0) as [->|Hne]; [reflexivity|].
  rewrite quality_truthy; [reflexivity | lia].
Qed.

Lemma startQuality_range q : validQuality q -> 1 <= startQuality q <= 100.
Proof.
  destruct q as [n|]; simpl; [|lia]. destruct (Z.eqb_spec n 0); lia.
Qed.

Lemma qualitySteps_length n : 1 <= n <= 100 -> (List.length (qualitySteps n) <= 10)%nat.
Proof.
  intros Hn. unfold qualitySteps. destruct (n <? 10) eqn:E; [simpl; lia|].
  apply Z.ltb_ge in E.
  assert (Hlen : forall steps q, List.length (countDown steps q) = steps).
  { induction steps as [|steps IH]; intros q; simpl; [reflexivity | now rewrite IH]. }
  rewrite Hlen.
  assert ((n - 10) / 10 <= 9) by (apply Z.div_le_upper_bound; lia).
  assert (0 <= (n - 10) / 10) by (apply Z.div_pos; lia).
  lia.
Qed.

(* ===================================================================== *)
(** * Rounding a product of two doubles, in integer arithmetic *)
(* ===================================================================== *)

(** The number of binary digits of [p] is the [k] with [2^(k-1) <= p < 2^k]. *)
Lemma digits2_pos_bounds p :
  2 ^ (Zpos (digits2_pos p) - 1) <= Zpos p < 2 ^ Zpos (digits2_pos p).
Proof.
  induction p as [p IH|p IH|]; cbn [digits2_pos].
  - rewrite Pos2Z.inj_succ. change (Zpos p~1) with (2 * Zpos p + 1).
    replace (Z.succ (Zpos (digits2_pos p)) - 1) with (Z.succ (Zpos (digits2_pos p) - 1)) by lia.
    rewrite !Z.pow_succ_r by lia. lia.
  - rewrite Pos2Z.inj_succ. change (Zpos p~0) with (2 * Zpos p).
    replace (Z.succ (Zpos (digits2_pos p)) - 1) with (Z.succ (Zpos (digits2_pos p) - 1)) by lia.
    rewrite !Z.pow_succ_r by lia. lia.
  - split; [discriminate | reflexivity].
Qed.

Lemma digits2_pos_unique p k :
  2 ^ (k - 1) <= Zpos p < 2 ^ k -> Zpos (digits2_pos p) = k.
Proof.
  intros [Hlo Hhi]. pose proof (digits2_pos_bounds p) as [Dlo Dhi].
  assert (Hk : 0 < k).
  { destruct (Z.ltb_spec 0 k); [assumption|].
    rewrite Z.pow_neg_r in Hlo by lia.
    assert (2 ^ k <= 1); [|lia].
    destruct (Z.eq_dec k 0) as [->|]; [discriminate|rewrite Z.pow_neg_r by lia; lia]. }
  assert (H1 : Zpos (digits2_pos p) - 1 < k).
  { apply (Z.pow_lt_mono_r_iff 2); lia. }
  assert (H2 : k - 1 < Zpos (digits2_pos p)).
  { apply (Z.pow_lt_mono_r_iff 2); lia. }
  lia.
Qed.

(** One step of [shr] halves the mantissa; [p] steps divide it by [2^p]. *)
Lemma shr_1_m mrs : 0 <= shr_m mrs -> shr_m (shr_1 mrs) = shr_m mrs / 2.
Proof.
  destruct mrs as [m r s]. cbn [shr_m]. intros Hm.
  rewrite <- Z.div2_div.
  destruct m as [|[p|p|]|p]; try reflexivity. lia.
Qed.

Lemma iter_pos_shr_1_m p : forall mrs,
  0 <= shr_m mrs -> shr_m (SpecFloat.iter_pos shr_1 p mrs) = shr_m mrs / 2 ^ Zpos p.
Proof.
  assert (Hnn : forall m k, 0 <= m -> 0 <= m / 2 ^ Zpos k).
  { intros m k Hm. apply Z.div_pos; [assumption|]. apply Z.pow_pos_nonneg; lia. }
  induction p as [p IH|p IH|]; intros mrs Hm; cbn [SpecFloat.iter_pos];
    try assert (Hpow : 0 < 2 ^ Zpos p) by (apply Z.pow_pos_nonneg; lia).
  - assert (H1 : 0 <= shr_m (shr_1 mrs))
      by (rewrite shr_1_m by assumption; apply Z.div_pos; lia).
    assert (H2 : 0 <= shr_m (SpecFloat.iter_pos shr_1 p (shr_1 mrs)))
      by (rewrite IH by assumption; apply Hnn; assumption).
    rewrite (IH _ H2), (IH _ H1), (shr_1_m _ Hm).
    rewrite !Z.div_div by lia.
    f_equal. change (Zpos p~1) with (2 * Zpos p + 1).
    replace (2 * Zpos p + 1) with (1 + Zpos p + Zpos p) by lia.
    rewrite !Z.pow_add_r by lia. change (2 ^ 1) with 2. lia.
  - assert (H1 : 0 <= shr_m (SpecFloat.iter_pos shr_1 p mrs))
      by (rewrite IH by assumption; apply Hnn; assumption).
    rewrite (IH _ H1), (IH _ Hm).
    rewrite !Z.div_div by lia.
    f_equal. change (Zpos p~0) with (2 * Zpos p).
    replace (2 * Zpos p) with (Zpos p + Zpos p) by lia.
    rewrite !Z.pow_add_r by lia. lia.
  - now apply shr_1_m.
Qed.

Lemma round_nearest_even_bounds mx lx :
  mx <= round_nearest_even mx lx <= mx + 1.
Proof. destruct lx as [|[| |]]; cbn; try destruct (Z.even mx); lia. Qed.

(** [shr_fexp] at precision 53 on a mantissa of [j >= 53] digits drops the
    [j - 53] low bits. *)
Lemma shr_fexp_spec (m : positive) e :
  53 <= Zpos (digits2_pos m) ->
  -1074 <= e + (Zpos (digits2_pos m) - 53) ->
  exists mrs,
    shr_fexp 53 1024 (Zpos m) e loc_Exact = (mrs, e + (Zpos (digits2_pos m) - 53))
    /\ shr_m mrs = Zpos m / 2 ^ (Zpos (digits2_pos m) - 53)
    /\ (Zpos (digits2_pos m) = 53 -> mrs = Build_shr_record (Zpos m) false false).
Proof.
  intros Hj He. set (j := Zpos (digits2_pos m)) in *.
  assert (Hshift : fexp 53 1024 (Zdigits2 (Zpos m) + e) - e = j - 53).
  { unfold fexp, emin. cbn [Zdigits2]. fold j. lia. }
  unfold shr_fexp. rewrite Hshift. cbn [shr_record_of_loc].
  destruct (j - 53) as [|t|t] eqn:Et; [| |lia].
  - exists (Build_shr_record (Zpos m) false false). cbn [shr shr_m].
    rewrite Z.add_0_r, Z.div_1_r. auto.
  - exists (SpecFloat.iter_pos shr_1 t (Build_shr_record (Zpos m) false false)).
    cbn [shr]. split; [reflexivity|]. split; [|lia].
    rewrite iter_pos_shr_1_m by (cbn; lia). reflexivity.
Qed.

(** The high 53 bits of a mantissa of [j >= 53] digits. *)
Lemma high_bits_bounds (m : positive) :
  53 <= Zpos (digits2_pos m) ->
  2 ^ 52 <= Zpos m / 2 ^ (Zpos (digits2_pos m) - 53) < 2 ^ 53.
Proof.
  intros Hj. pose proof (digits2_pos_bounds m) as [Hlo Hhi].
  set (j := Zpos (digits2_pos m)) in *.
  assert (Hpow : 0 < 2 ^ (j - 53)) by (apply Z.pow_pos_nonneg; lia).
  assert (H1 : 2 ^ (j - 1) = 2 ^ 52 * 2 ^ (j - 53))
    by (rewrite <- Z.pow_add_r by lia; f_equal; lia).
  assert (H2 : 2 ^ j = 2 ^ 53 * 2 ^ (j - 53))
    by (rewrite <- Z.pow_add_r by lia; f_equal; lia).
  split.
  - apply Z.div_le_lower_bound; lia.
  - apply Z.div_lt_upper_bound; lia.
Qed.

(** Rounding a positive mantissa of at least 53 digits to a double: the
    result is finite, its mantissa comes from the high bits [q] of the
    input, kept or raised by one, and a carry into a 54th bit raises the
    exponent by one. *)
Lemma binary_round_aux_spec (m : positive) e :
  53 <= Zpos (digits2_pos m) ->
  -1074 <= e + (Zpos (digits2_pos m) - 53) ->
  e + (Zpos (digits2_pos m) - 53) + 1 <= 971 ->
  exists m' e' m1,
    binary_round_aux 53 1024 false (Zpos m) e loc_Exact = S754_finite false m' e'
    /\ Zpos m / 2 ^ (Zpos (digits2_pos m) - 53) <= m1
       <= Zpos m / 2 ^ (Zpos (digits2_pos m) - 53) + 1
    /\ (Zpos (digits2_pos m) = 53 -> m1 = Zpos m)
    /\ ((e' = e + (Zpos (digits2_pos m) - 53) /\ Zpos m' = m1 /\ m1 < 2 ^ 53)
        \/ (e' = e + (Zpos (digits2_pos m) - 53) + 1 /\ 2 * Zpos m' = m1
            /\ m1 = 2 ^ 53)).
Proof.
  intros Hj He Hemax.
  destruct (shr_fexp_spec m e Hj He) as [mrs [Hshr [Hm Hexact]]].
  pose proof (high_bits_bounds m Hj) as Hq.
  set (j := Zpos (digits2_pos m)) in *.
  set (q := Zpos m / 2 ^ (j - 53)) in *.
  unfold binary_round_aux. rewrite Hshr.
  set (m1 := round_nearest_even (shr_m mrs) (loc_of_shr_record mrs)).
  assert (Hm1 : q <= m1 <= q + 1).
  { unfold m1. rewrite <- Hm. apply round_nearest_even_bounds. }
  assert (Hm1' : j = 53 -> m1 = Zpos m).
  { intros Hj53. unfold m1. rewrite (Hexact Hj53). reflexivity. }
  assert (H52 : 2 ^ 52 = 4503599627370496) by reflexivity.
  assert (H53 : 2 ^ 53 = 9007199254740992) by reflexivity.
  destruct m1 as [|p1|p1] eqn:Ep1; [lia| |lia].
  destruct (Z.ltb_spec (Zpos p1) (2 ^ 53)) as [Hlt|Hge].
  - (* no carry *)
    assert (Hd : Zpos (digits2_pos p1) = 53)
      by (apply digits2_pos_unique; change (53 - 1) with 52; lia).
    destruct (shr_fexp_spec p1 (e + (j - 53))) as [mrs2 [Hshr2 [_ Hexact2]]];
      [lia | lia |].
    rewrite Hshr2, (Hexact2 Hd). cbn [shr_m].
    replace (e + (j - 53) + (Zpos (digits2_pos p1) - 53) <=? 1024 - 53) with true
      by (symmetry; apply Z.leb_le; lia).
    exists p1, (e + (j - 53) + (Zpos (digits2_pos p1) - 53)), (Zpos p1).
    split; [reflexivity|]. split; [lia|]. split; [assumption|]. left. lia.
  - (* the mantissa became 2^53 *)
    assert (Hp1 : p1 = 9007199254740992%positive) by lia. subst p1.
    destruct (shr_fexp_spec 9007199254740992%positive (e + (j - 53)))
      as [mrs2 [Hshr2 [Hm2 _]]]; [cbn; lia | cbn; lia |].
    rewrite Hshr2.
    change (Zpos (digits2_pos 9007199254740992)) with 54 in *.
    rewrite Hm2. change (Zpos 9007199254740992 / 2 ^ (54 - 53)) with 4503599627370496.
    replace (e + (j - 53) + (54 - 53) <=? 1024 - 53) with true
      by (symmetry; apply Z.leb_le; lia).
    exists 4503599627370496%positive, (e + (j - 53) + (54 - 53)), (Zpos 9007199254740992).
    split; [reflexivity|]. split; [lia|]. split; [assumption|]. right. lia.
Qed.

Lemma iter_xO_pow p t : Zpos (Pos.iter xO p t) = Zpos p * 2 ^ Zpos t.
Proof.
  induction t as [|t IH] using Pos.peano_ind.
  - change (Zpos (Pos.iter xO p 1)) with (2 * Zpos p). change (2 ^ 1) with 2. lia.
  - rewrite Pos.iter_succ, Pos2Z.inj_succ, Z.pow_succ_r by lia.
    change (Zpos (Pos.iter xO p t)~0) with (2 * Zpos (Pos.iter xO p t)). lia.
Qed.

(** An integer of 1 to 2^53 - 1 as a double: a 53-bit mantissa [d * 2^a]
    with the exponent [-a]. *)
Lemma of_Z_normal d :
  1 <= d < 2 ^ 53 ->
  exists m a,
    Num.of_Z d = S754_finite false m (- a)
    /\ Zpos (digits2_pos m) = 53
    /\ 0 <= a <= 52
    /\ Zpos m = d * 2 ^ a.
Proof.
  intros Hd. destruct d as [|p|p]; [lia| |lia].
  pose proof (digits2_pos_bounds p) as [Hlo Hhi].
  set (j := Zpos (digits2_pos p)) in *.
  assert (Hj : 1 <= j <= 53).
  { split; [unfold j; lia|].
    destruct (Z.ltb_spec 53 j) as [Hgt|]; [|assumption].
    assert (2 ^ 53 <= 2 ^ (j - 1)) by (apply Z.pow_le_mono_r; lia). lia. }
  unfold Num.of_Z, binary_normalize, binary_round.
  assert (Hfexp : fexp Num.prec Num.emax (Zpos (digits2_pos p) + 0) = j - 53).
  { unfold fexp, emin, Num.prec, Num.emax. fold j. lia. }
  rewrite Hfexp. unfold shl_align.
  destruct (j - 53 - 0) as [|t|t] eqn:Et; [|lia|].
  - (* 53 digits already *)
    assert (Hj53 : j = 53) by lia.
    destruct (binary_round_aux_spec p 0) as [m' [e' [m1 [Hr [_ [Hm1 Hcase]]]]]];
      fold j; try lia.
    unfold Num.prec, Num.emax. rewrite Hr. specialize (Hm1 Hj53).
    fold j in Hcase. destruct Hcase as [[He' [Hm' _]] | [_ [_ Hcarry]]]; [|lia].
    exists m', 0. replace e' with (- 0) by lia.
    split; [reflexivity|]. split; [|split; [lia|]].
    + replace m' with p by lia. exact Hj53.
    + rewrite Z.mul_1_r. lia.
  - (* shifted left by 53 - j *)
    assert (Ht : Zpos t = 53 - j) by lia.
    pose proof (iter_xO_pow p t) as Hmz. set (mz := Pos.iter xO p t) in *.
    assert (Hpow : 0 < 2 ^ Zpos t) by (apply Z.pow_pos_nonneg; lia).
    assert (Hdz : Zpos (digits2_pos mz) = 53).
    { apply digits2_pos_unique. rewrite Hmz, Ht.
      replace (2 ^ (53 - 1)) with (2 ^ (j - 1) * 2 ^ (53 - j))
        by (rewrite <- Z.pow_add_r by lia; f_equal; lia).
      replace (2 ^ 53) with (2 ^ j * 2 ^ (53 - j))
        by (rewrite <- Z.pow_add_r by lia; f_equal; lia).
      assert (0 < 2 ^ (53 - j)) by (apply Z.pow_pos_nonneg; lia).
      split; [apply Z.mul_le_mono_nonneg_r | apply Z.mul_lt_mono_pos_r]; lia. }
    destruct (binary_round_aux_spec mz (j - 53)) as [m' [e' [m1 [Hr [_ [Hm1 Hcase]]]]]];
      try lia.
    unfold Num.prec, Num.emax. rewrite Hr. specialize (Hm1 Hdz).
    destruct Hcase as [[He' [Hm' _]] | [_ [_ Hcarry]]].
    + exists m', (53 - j). replace e' with (- (53 - j)) by lia.
      split; [reflexivity|]. split; [|split; [lia|]].
      * replace m' with mz by lia. exact Hdz.
      * rewrite Hm', Hm1, Hmz, Ht. reflexivity.
    + pose proof (digits2_pos_bounds mz) as [_ Hhi']. rewrite Hdz in Hhi'. lia.
Qed.

(** [Math.floor] of a positive double with a negative exponent. *)
Lemma floor_finite m e :
  e < 0 -> Num.floor (S754_finite false m e) = Num.of_Z (Zpos m / 2 ^ (- e)).
Proof.
  intros He. destruct e as [|k|k]; [lia|lia|].
  cbn [Num.floor cond_Zopp]. rewrite Z.shiftr_div_pow2 by lia.
  change (- Zneg k) with (Zpos k).
  now destruct (Zpos m / 2 ^ Zpos k).
Qed.

(** The product of two 53-bit mantissas has 105 or 106 bits. *)
Lemma digits_of_product m1 m2 :
  Zpos (digits2_pos m1) = 53 -> Zpos (digits2_pos m2) = 53 ->
  (Zpos (digits2_pos (m1 * m2)) = 105 /\ 2 ^ 104 <= Zpos m1 * Zpos m2 < 2 ^ 105)
  \/ (Zpos (digits2_pos (m1 * m2)) = 106 /\ 2 ^ 105 <= Zpos m1 * Zpos m2 < 2 ^ 106).
Proof.
  intros H1 H2.
  pose proof (digits2_pos_bounds m1) as [L1 U1]. rewrite H1 in L1, U1.
  pose proof (digits2_pos_bounds m2) as [L2 U2]. rewrite H2 in L2, U2.
  change (53 - 1) with 52 in *.
  assert (Hlo : 2 ^ 104 <= Zpos m1 * Zpos m2).
  { change (2 ^ 104) with (2 ^ 52 * 2 ^ 52). apply Z.mul_le_mono_nonneg; lia. }
  assert (Hhi : Zpos m1 * Zpos m2 < 2 ^ 106).
  { change (2 ^ 106) with (2 ^ 53 * 2 ^ 53). apply Z.mul_lt_mono_nonneg; lia. }
  destruct (Z.ltb_spec (Zpos m1 * Zpos m2) (2 ^ 105)) as [Hlt|Hge].
  - left. split; [|lia]. apply digits2_pos_unique. rewrite Pos2Z.inj_mul.
    change (105 - 1) with 104. lia.
  - right. split; [|lia]. apply digits2_pos_unique. rewrite Pos2Z.inj_mul.
    change (106 - 1) with 105. lia.
Qed.

(** [Math.floor(d * s)] for an integer [d] below 2^31 and a double
    [s = ms * 2^-b] below 1: the product of the mantissas, cut to its high
    53 bits [q], kept or raised by one, then cut at the binary point. *)
Lemma floor_mul_shape d ms b :
  1 <= d < 2 ^ 31 -> Zpos (digits2_pos ms) = 53 -> 53 <= b <= 60 ->
  exists a n m1,
    22 <= a <= 52
    /\ 2 ^ 52 <= d * 2 ^ a < 2 ^ 53
    /\ (n = 52 \/ n = 53)
    /\ 2 ^ (52 + n) <= d * 2 ^ a * Zpos ms < 2 ^ (53 + n)
    /\ d * 2 ^ a * Zpos ms / 2 ^ n <= m1 <= d * 2 ^ a * Zpos ms / 2 ^ n + 1
    /\ Num.floor (Num.mul (Num.of_Z d) (S754_finite false ms (- b)))
       = Num.of_Z (m1 / 2 ^ (a + b - n)).
Proof.
  intros Hd Hms Hb.
  destruct (of_Z_normal d) as [md [a [Hof [Hdm [Ha Hmd]]]]].
  { split; [lia|]. apply Z.lt_trans with (2 ^ 31); [lia | reflexivity]. }
  pose proof (digits2_pos_bounds md) as [Lmd Umd]. rewrite Hdm in Lmd, Umd.
  change (53 - 1) with 52 in Lmd.
  assert (Ha22 : 22 <= a).
  { destruct (Z.ltb_spec a 22) as [Hlt|]; [|assumption].
    assert (2 ^ a <= 2 ^ 21) by (apply Z.pow_le_mono_r; lia).
    assert (0 < 2 ^ a) by (apply Z.pow_pos_nonneg; lia).
    assert (d * 2 ^ a <= (2 ^ 31 - 1) * 2 ^ 21) by (apply Z.mul_le_mono_nonneg; lia).
    lia. }
  rewrite Hof. unfold Num.mul, SFmul. cbn [xorb].
  destruct (digits_of_product md ms Hdm Hms) as [[HJ HP] | [HJ HP]].
  - destruct (binary_round_aux_spec (md * ms) (- a + - b))
      as [m' [e' [m1 [Hr [Hm1 [_ Hcase]]]]]]; rewrite ?HJ; try lia.
    unfold Num.prec, Num.emax. rewrite Hr. rewrite HJ in *.
    change (105 - 53) with 52 in *. rewrite Pos2Z.inj_mul, Hmd in *.
    exists a, 52, m1. repeat (split; [first [lia | assumption | now left]|]).
    rewrite floor_finite by (destruct Hcase as [[-> _]|[-> _]]; lia).
    f_equal.
    destruct Hcase as [[-> [-> _]] | [-> [Hm' _]]].
    + f_equal. f_equal. lia.
    + rewrite <- Hm'.
      replace (a + b - 52) with (1 + (- (- a + - b + 52 + 1))) by lia.
      rewrite Z.pow_add_r by lia. change (2 ^ 1) with 2.
      rewrite Z.div_mul_cancel_l; [reflexivity | | lia].
      apply Z.pow_nonzero; lia.
  - destruct (binary_round_aux_spec (md * ms) (- a + - b))
      as [m' [e' [m1 [Hr [Hm1 [_ Hcase]]]]]]; rewrite ?HJ; try lia.
    unfold Num.prec, Num.emax. rewrite Hr. rewrite HJ in *.
    change (106 - 53) with 53 in *. rewrite Pos2Z.inj_mul, Hmd in *.
    exists a, 53, m1. repeat (split; [first [lia | assumption | now right]|]).
    rewrite floor_finite by (destruct Hcase as [[-> _]|[-> _]]; lia).
    f_equal.
    destruct Hcase as [[-> [-> _]] | [-> [Hm' _]]].
    + f_equal. f_equal. lia.
    + rewrite <- Hm'.
      replace (a + b - 53) with (1 + (- (- a + - b + 53 + 1))) by lia.
      rewrite Z.pow_add_r by lia. change (2 ^ 1) with 2.
      rewrite Z.div_mul_cancel_l; [reflexivity | | lia].
      apply Z.pow_nonzero; lia.
Qed.

(** The exponents [a] of the integers below 2^31, one by one. *)
Lemma exponent_cases a :
  22 <= a <= 52 ->
  a = 22 \/ a = 23 \/ a = 24 \/ a = 25 \/ a = 26 \/ a = 27 \/ a = 28 \/ a = 29 \/ a = 30 \/ a = 31 \/ a = 32 \/ a = 33 \/ a = 34 \/ a = 35 \/ a = 36 \/ a = 37 \/ a = 38 \/ a = 39 \/ a = 40 \/ a = 41 \/ a = 42 \/ a = 43 \/ a = 44 \/ a = 45 \/ a = 46 \/ a = 47 \/ a = 48 \/ a = 49 \/ a = 50 \/ a = 51 \/ a = 52.
Proof. lia. Qed.

Ltac eval_pows :=
  repeat match goal with
    | |- context [2 ^ ?c] =>
        let v := eval vm_compute in (2 ^ c) in change (2 ^ c) with v
    | H : context [2 ^ ?c] |- _ =>
        let v := eval vm_compute in (2 ^ c) in change (2 ^ c) with v in H
    end.

(** With the scale factor and the two exponents fixed, the equation is
    linear in [d]. *)
Ltac tenth_case := subst; eval_pows; Z.div_mod_to_equations; lia.

Ltac tenth_by_cases Ha Hn :=
  apply exponent_cases in Ha;
  repeat (destruct Ha as [Ha|Ha]; [destruct Hn as [Hn|Hn]; tenth_case|]);
  destruct Hn as [Hn|Hn]; tenth_case.

Ltac floor_mul_tenth Hd ms b :=
  let a := fresh "a" in
  let n := fresh "n" in
  let m1 := fresh "m" in
  let Ha := fresh "Ha" in
  let Hn := fresh "Hn" in
  let Hfl := fresh "Hfl" in
  destruct (floor_mul_shape _ ms b Hd eq_refl ltac:(lia))
    as [a [n [m1 [Ha [? [Hn [? [? Hfl]]]]]]]];
  change (Z.opp b) with (Zneg (Z.to_pos b)) in Hfl;
  cbn [Z.to_pos] in Hfl;
  rewrite Hfl; clear Hfl; f_equal;
  tenth_by_cases Ha Hn.

(** For an image side of 1 to 2^31 - 1 pixels, [Math.floor(side * scale)]
    at each scale factor is the integer quotient [side * n / 10]. *)
Lemma floors_are_tenths d :
  1 <= d <= maxSide ->
  Forall2 (fun a n => Num.floor (Num.mul (Num.of_Z d) a) = Num.of_Z (d * n / 10))
    scaleFactors scaleTenths.
Proof.
  intros Hd'.
  assert (Hd : 1 <= d < 2 ^ 31) by (unfold maxSide in Hd'; change (2 ^ 31) with 2147483648; lia).
  clear Hd'. unfold scaleFactors, scaleTenths.
  repeat constructor.
  - floor_mul_tenth Hd 8106479329266893%positive 53.
  - floor_mul_tenth Hd 7205759403792794%positive 53.
  - floor_mul_tenth Hd 6305039478318695%positive 53.
  - floor_mul_tenth Hd 5404319552844596%positive 53.
  - floor_mul_tenth Hd 4503599627370497%positive 53.
  - floor_mul_tenth Hd 7205759403792796%positive 54.
  - floor_mul_tenth Hd 5404319552844598%positive 54.
Qed.

(* ===================================================================== *)
(** * Exact results: subtracting 10 from a quality *)
(* ===================================================================== *)

(** Shifting out bits that are all zero leaves no rounding information. *)
Lemma shr_1_exact m :
  0 <= m -> (2 | m) ->
  shr_1 (Build_shr_record m false false) = Build_shr_record (m / 2) false false.
Proof.
  intros Hm [k Hk]. rewrite <- Z.div2_div.
  destruct m as [|[p|p|]|p]; try reflexivity; lia.
Qed.

Lemma iter_pos_shr_1_exact p : forall m,
  0 <= m -> (2 ^ Zpos p | m) ->
  SpecFloat.iter_pos shr_1 p (Build_shr_record m false false)
  = Build_shr_record (m / 2 ^ Zpos p) false false.
Proof.
  assert (Hdiv : forall m a b, 0 <= a -> 0 <= b -> (2 ^ (a + b) | m) ->
                    (2 ^ a | m) /\ (2 ^ b | m / 2 ^ a)).
  { intros m a b Ha Hb [k Hk]. rewrite Z.pow_add_r in Hk by assumption.
    assert (0 < 2 ^ a) by (apply Z.pow_pos_nonneg; lia).
    split; [exists (k * 2 ^ b); lia|].
    exists k. subst m. replace (k * (2 ^ a * 2 ^ b)) with (k * 2 ^ b * 2 ^ a) by lia.
    rewrite Z.div_mul by lia. reflexivity. }
  induction p as [p IH|p IH|]; intros m Hm Hd; cbn [SpecFloat.iter_pos];
    try assert (Hpow : 0 < 2 ^ Zpos p) by (apply Z.pow_pos_nonneg; lia).
  - change (Zpos p~1) with (2 * Zpos p + 1) in *.
    replace (2 * Zpos p + 1) with (1 + (Zpos p + Zpos p)) in * by lia.
    destruct (Hdiv m 1 (Zpos p + Zpos p)) as [H1 H2]; try lia; [assumption|].
    change (2 ^ 1) with 2 in *.
    destruct (Hdiv (m / 2) (Zpos p) (Zpos p)) as [H3 H4]; try lia; [assumption|].
    assert (0 <= m / 2) by (apply Z.div_pos; lia).
    assert (0 <= m / 2 / 2 ^ Zpos p) by (apply Z.div_pos; lia).
    rewrite shr_1_exact, IH, IH by assumption.
    f_equal. rewrite !Z.div_div by lia. f_equal.
    rewrite !Z.pow_add_r by lia. change (2 ^ 1) with 2. lia.
  - change (Zpos p~0) with (2 * Zpos p) in *.
    replace (2 * Zpos p) with (Zpos p + Zpos p) in * by lia.
    destruct (Hdiv m (Zpos p) (Zpos p)) as [H3 H4]; try lia; [assumption|].
    assert (0 <= m / 2 ^ Zpos p) by (apply Z.div_pos; lia).
    rewrite IH, IH by assumption.
    f_equal. rewrite !Z.div_div by lia. f_equal.
    rewrite !Z.pow_add_r by lia. reflexivity.
  - change (2 ^ 1) with 2 in *. now apply shr_1_exact.
Qed.

(** Rounding is the identity on a mantissa whose bits beyond the 53rd are
    zero. *)
Lemma binary_round_aux_exact (m : positive) e :
  53 <= Zpos (digits2_pos m) ->
  (2 ^ (Zpos (digits2_pos m) - 53) | Zpos m) ->
  -1074 <= e + (Zpos (digits2_pos m) - 53) <= 971 ->
  exists m',
    binary_round_aux 53 1024 false (Zpos m) e loc_Exact
    = S754_finite false m' (e + (Zpos (digits2_pos m) - 53))
    /\ Zpos (digits2_pos m') = 53
    /\ Zpos m = Zpos m' * 2 ^ (Zpos (digits2_pos m) - 53).
Proof.
  intros Hj Hdiv He.
  pose proof (high_bits_bounds m Hj) as Hq.
  set (j := Zpos (digits2_pos m)) in *.
  assert (Hpow : 0 < 2 ^ (j - 53)) by (apply Z.pow_pos_nonneg; lia).
  assert (Hshift : fexp 53 1024 (Zdigits2 (Zpos m) + e) - e = j - 53).
  { unfold fexp, emin. cbn [Zdigits2]. fold j. lia. }
  assert (Hfirst : shr_fexp 53 1024 (Zpos m) e loc_Exact
                   = (Build_shr_record (Zpos m / 2 ^ (j - 53)) false false, e + (j - 53))).
  { unfold shr_fexp. rewrite Hshift. cbn [shr_record_of_loc].
    destruct (j - 53) as [|t|t] eqn:Et; [| |lia].
    - cbn [shr]. now rewrite Z.add_0_r, Z.div_1_r.
    - cbn [shr]. rewrite iter_pos_shr_1_exact by (try assumption; lia). reflexivity. }
  unfold binary_round_aux. rewrite Hfirst. cbn [shr_m loc_of_shr_record round_nearest_even].
  remember (Zpos m / 2 ^ (j - 53)) as hi eqn:Ehi.
  assert (H52 : 2 ^ 52 = 4503599627370496) by reflexivity.
  destruct hi as [|q|q]; [lia| |lia].
  assert (Hd : Zpos (digits2_pos q) = 53)
    by (apply digits2_pos_unique; change (53 - 1) with 52; lia).
  destruct (shr_fexp_spec q (e + (j - 53))) as [mrs2 [Hshr2 [_ Hexact2]]]; [lia | lia |].
  rewrite Hshr2, (Hexact2 Hd). cbn [shr_m].
  replace (e + (j - 53) + (Zpos (digits2_pos q) - 53) <=? 1024 - 53) with true
    by (symmetry; apply Z.leb_le; lia).
  exists q. rewrite Hd, Z.sub_diag, Z.add_0_r.
  split; [reflexivity|]. split; [reflexivity|].
  destruct Hdiv as [k Hk]. rewrite Ehi, Hk.
  rewrite Z.div_mul by lia. reflexivity.
Qed.

Lemma shl_align_fst m e e' :
  e' <= e -> Zpos (fst (shl_align m e e')) = Zpos m * 2 ^ (e - e').
Proof.
  intros He. unfold shl_align. destruct (e' - e) as [|t|t] eqn:Et; [|lia|]; cbn [fst].
  - replace (e - e') with 0 by lia. lia.
  - rewrite iter_xO_pow. f_equal. f_equal. lia.
Qed.

(** Normalising a mantissa that fits in 53 bits, or whose bits beyond the
    53rd are zero, keeps its value. *)
Lemma binary_round_exact (p : positive) ex :
  Zpos (digits2_pos p) <= 53 \/ (2 ^ (Zpos (digits2_pos p) - 53) | Zpos p) ->
  -1074 <= ex -> -1074 <= ex + (Zpos (digits2_pos p) - 53) <= 971 ->
  exists m',
    binary_round 53 1024 false p ex
    = S754_finite false m' (ex + (Zpos (digits2_pos p) - 53))
    /\ Zpos (digits2_pos m') = 53
    /\ Zpos m' * 2 ^ (ex + (Zpos (digits2_pos p) - 53) + 1074) = Zpos p * 2 ^ (ex + 1074).
Proof.
  intros Hfit Hex He.
  pose proof (digits2_pos_bounds p) as [Hlo Hhi].
  set (j := Zpos (digits2_pos p)) in *.
  assert (Hj : 1 <= j) by (unfold j; lia).
  unfold binary_round.
  assert (Hfexp : fexp 53 1024 (Zpos (digits2_pos p) + ex) = ex + (j - 53)).
  { unfold fexp, emin. fold j. lia. }
  rewrite Hfexp. unfold shl_align.
  destruct (ex + (j - 53) - ex) as [|t|t] eqn:Et.
  - assert (Hj53 : j = 53) by lia.
    destruct (binary_round_aux_exact p ex) as [m' [Hr [Hd Hm]]]; fold j; try lia.
    { rewrite Hj53. apply Z.divide_1_l. }
    fold j in Hr, Hm. exists m'. split; [exact Hr|]. split; [exact Hd|].
    rewrite Hm, Hj53. change (2 ^ (53 - 53)) with 1. f_equal; [lia | f_equal; lia].
  - destruct Hfit as [Hle|Hdiv]; [lia|].
    destruct (binary_round_aux_exact p ex) as [m' [Hr [Hd Hm]]]; fold j; try lia.
    { exact Hdiv. }
    fold j in Hr, Hm. exists m'. split; [exact Hr|]. split; [exact Hd|].
    rewrite Hm. replace (ex + (j - 53) + 1074) with ((j - 53) + (ex + 1074)) by lia.
    rewrite Z.pow_add_r by lia. lia.
  - assert (Ht : Zpos t = 53 - j) by lia.
    pose proof (iter_xO_pow p t) as Hmz. set (mz := Pos.iter xO p t) in *.
    assert (Hpow : 0 < 2 ^ Zpos t) by (apply Z.pow_pos_nonneg; lia).
    assert (Hdz : Zpos (digits2_pos mz) = 53).
    { apply digits2_pos_unique. rewrite Hmz, Ht.
      replace (2 ^ (53 - 1)) with (2 ^ (j - 1) * 2 ^ (53 - j))
        by (rewrite <- Z.pow_add_r by lia; f_equal; lia).
      replace (2 ^ 53) with (2 ^ j * 2 ^ (53 - j))
        by (rewrite <- Z.pow_add_r by lia; f_equal; lia).
      assert (0 < 2 ^ (53 - j)) by (apply Z.pow_pos_nonneg; lia).
      split; [apply Z.mul_le_mono_nonneg_r | apply Z.mul_lt_mono_pos_r]; lia. }
    destruct (binary_round_aux_exact mz (ex + (j - 53))) as [m' [Hr [Hd Hm]]];
      rewrite ?Hdz; try lia.
    { apply Z.divide_1_l. }
    rewrite Hdz, Z.sub_diag, Z.add_0_r in Hr. rewrite Hdz, Z.sub_diag in Hm.
    exists m'. split; [exact Hr|]. split; [exact Hd|].
    change (2 ^ 0) with 1 in Hm. rewrite Z.mul_1_r in Hm. rewrite <- Hm, Hmz, Ht.
    replace (ex + 1074) with ((53 - j) + (ex + (j - 53) + 1074)) by lia.
    rewrite (Z.pow_add_r 2 (53 - j)) by lia. lia.
Qed.

(** Two normal doubles compare as their values do. *)
Lemma compare_normal x y :
  isNormal x = true -> isNormal y = true ->
  SFcompare x y = Some (units x ?= units y).
Proof.
  destruct x as [| | |[] m e]; try discriminate.
  destruct y as [| | |[] m2 e2]; try discriminate.
  cbn [isNormal units SFcompare]. intros Hx Hy.
  apply andb_prop in Hx as [Hx Hx3]. apply andb_prop in Hx as [Hx1 Hx2].
  apply andb_prop in Hy as [Hy Hy3]. apply andb_prop in Hy as [Hy1 Hy2].
  apply Z.eqb_eq in Hx1, Hy1. apply Z.leb_le in Hx2, Hy2.
  pose proof (digits2_pos_bounds m) as [Hlo Hhi].
  pose proof (digits2_pos_bounds m2) as [Hlo2 Hhi2].
  rewrite Hx1 in Hlo, Hhi. rewrite Hy1 in Hlo2, Hhi2.
  change (2 ^ (53 - 1)) with 4503599627370496 in *.
  change (2 ^ 53) with (2 * 4503599627370496) in *.
  f_equal.
  assert (Hstep : forall a b ma mb : Z, 0 <= a -> a < b ->
            4503599627370496 <= mb -> ma < 2 * 4503599627370496 ->
            ma * 2 ^ a < mb * 2 ^ b).
  { intros a b ma mb Ha Hab Hmb Hma.
    replace b with (a + (b - a)) by lia. rewrite Z.pow_add_r by lia.
    assert (0 < 2 ^ a) by (apply Z.pow_pos_nonneg; lia).
    assert (2 ^ 1 <= 2 ^ (b - a)) by (apply Z.pow_le_mono_r; lia).
    change (2 ^ 1) with 2 in *.
    generalize dependent (2 ^ a). generalize dependent (2 ^ (b - a)).
    intros B HB A HA.
    assert (0 < A * B) by (apply Z.mul_pos_pos; lia).
    assert (ma * A < 2 * 4503599627370496 * A) by (apply Z.mul_lt_mono_pos_r; lia).
    assert (4503599627370496 * (A * B) <= mb * (A * B))
      by (apply Z.mul_le_mono_nonneg_r; lia).
    assert (A * 2 <= A * B) by (apply Z.mul_le_mono_nonneg_l; lia).
    lia. }
  destruct (Z.compare_spec e e2) as [Heq|Hlt|Hgt].
  - subst e2. assert (0 < 2 ^ (e + 1074)) by (apply Z.pow_pos_nonneg; lia).
    change (Pos.compare_cont Eq m m2) with (Zpos m ?= Zpos m2).
    destruct (Z.compare_spec (Zpos m) (Zpos m2)) as [E|E|E]; symmetry.
    + apply Z.compare_eq_iff. now rewrite E.
    + apply Z.compare_lt_iff. apply Z.mul_lt_mono_pos_r; assumption.
    + apply Z.compare_gt_iff. apply Z.mul_lt_mono_pos_r; assumption.
  - symmetry. apply Z.compare_lt_iff. apply Hstep; lia.
  - symmetry. apply Z.compare_gt_iff. apply Hstep; lia.
Qed.

(** [x - 10] is exact for a double [x] of 10 to 128. *)
Lemma sub_10_exact x :
  isNormal x = true ->
  units Num.lit_10 <= units x -> units x < 128 * 2 ^ 1074 ->
  units (Num.sub x Num.lit_10) = units x - units Num.lit_10
  /\ (Num.sub x Num.lit_10 = S754_zero false
      \/ isNormal (Num.sub x Num.lit_10) = true).
Proof.
  destruct x as [| | |[] m e]; try discriminate.
  cbn [isNormal]. intros Hx Hge Hlt.
  apply andb_prop in Hx as [Hx _]. apply andb_prop in Hx as [Hd He].
  apply Z.eqb_eq in Hd. apply Z.leb_le in He.
  pose proof (digits2_pos_bounds m) as [Hlo Hhi]. rewrite Hd in Hlo, Hhi.
  change (2 ^ (53 - 1)) with 4503599627370496 in Hlo.
  change (2 ^ 53) with 9007199254740992 in Hhi.
  cbn [units Num.lit_10] in *.
  (* the exponent of a double of 10 to 128 *)
  assert (Hpos : forall k, 0 <= k -> 0 < 2 ^ k) by (intros; apply Z.pow_pos_nonneg; lia).
  assert (Hlow : -49 <= e).
  { destruct (Z.ltb_spec e (-49)) as [Hs|]; [exfalso|assumption].
    replace (-49 + 1074) with ((-49 - e) + (e + 1074)) in Hge by lia.
    rewrite Z.pow_add_r in Hge by lia.
    assert (2 ^ 1 <= 2 ^ (-49 - e)) by (apply Z.pow_le_mono_r; lia).
    change (2 ^ 1) with 2 in *.
    specialize (Hpos (e + 1074)). nia. }
  assert (Hhigh : e <= -46).
  { destruct (Z.ltb_spec (-46) e) as [Hs|]; [exfalso|assumption].
    assert (E : 128 * 2 ^ 1074 = 4503599627370496 * 2 ^ 1029) by (vm_compute; reflexivity).
    assert (2 ^ 1029 <= 2 ^ (e + 1074)) by (apply Z.pow_le_mono_r; lia).
    rewrite E in Hlt. specialize (Hpos 1029 ltac:(lia)).
    generalize dependent (2 ^ (e + 1074)). generalize dependent (2 ^ 1029).
    intros P _ HP X _ HX HPX.
    assert (4503599627370496 * P <= Zpos m * P) by (apply Z.mul_le_mono_nonneg_r; lia).
    assert (Zpos m * P <= Zpos m * X) by (apply Z.mul_le_mono_nonneg_l; lia).
    lia. }
  set (t := e + 49).
  assert (Ht : 0 <= t <= 3) by (unfold t; lia).
  set (D := Zpos m * 2 ^ t - 5629499534213120).
  assert (Hsub : Num.sub (S754_finite false m e) Num.lit_10
                 = binary_normalize 53 1024 D (-49) false).
  { unfold Num.sub, Num.lit_10, SFsub. rewrite Z.min_r by lia.
    cbn [cond_Zopp]. rewrite !shl_align_fst by lia. unfold D, t.
    reflexivity. }
  assert (Hunits : Zpos m * 2 ^ (e + 1074) - 5629499534213120 * 2 ^ (-49 + 1074)
                   = D * 2 ^ 1025).
  { unfold D. replace (e + 1074) with (t + 1025) by (unfold t; lia).
    rewrite Z.pow_add_r by lia. change (-49 + 1074) with 1025. lia. }
  assert (HD : 0 <= D < 2 ^ (53 + t)).
  { split.
    - change (-49 + 1074) with 1025 in Hge.
      replace (e + 1074) with (t + 1025) in Hge by (unfold t; lia).
      rewrite Z.pow_add_r in Hge by lia. specialize (Hpos 1025). unfold D. nia.
    - rewrite Z.pow_add_r by lia. change (2 ^ 53) with 9007199254740992.
      specialize (Hpos t). unfold D. nia. }
  rewrite Hsub, Hunits. clear Hsub Hunits.
  destruct D as [|p|p] eqn:ED; [| |lia].
  - cbn [binary_normalize units]. split; [reflexivity | left; reflexivity].
  - cbn [binary_normalize].
    pose proof (digits2_pos_bounds p) as [Hplo Hphi].
    set (j := Zpos (digits2_pos p)) in *.
    assert (Hj : 1 <= j <= 53 + t).
    { split; [unfold j; lia|].
      destruct (Z.ltb_spec (53 + t) j) as [Hgt|]; [|assumption].
      assert (2 ^ (53 + t) <= 2 ^ (j - 1)) by (apply Z.pow_le_mono_r; lia). lia. }
    destruct (binary_round_exact p (-49)) as [m' [Hr [Hd' Hv]]]; fold j; try lia.
    { destruct (Z.leb_spec j 53) as [Hle|Hgt]; [left; assumption|right].
      apply Z.divide_trans with (2 ^ t).
      - exists (2 ^ (t - (j - 53))). rewrite <- Z.pow_add_r by lia. f_equal; lia.
      - rewrite <- ED. unfold D. apply Z.divide_sub_r.
        + apply Z.divide_factor_r.
        + exists (5629499534213120 / 2 ^ t).
          assert (Hc : t = 0 \/ t = 1 \/ t = 2 \/ t = 3) by lia.
          destruct Hc as [Hc|[Hc|[Hc|Hc]]]; rewrite Hc; reflexivity. }
    fold j in Hr, Hv. rewrite Hr. cbn [units isNormal].
    split.
    + rewrite Hv. reflexivity.
    + right. rewrite Hd'. cbn [Z.eqb Pos.eqb andb].
      apply andb_true_intro; split; apply Z.leb_le; lia.
Qed.

(** A valid positive double that is not normal has the least exponent. *)
Lemma valid_positive m e :
  bounded 53 1024 m e = true ->
  isNormal (S754_finite false m e) = true \/ e = -1074.
Proof.
  unfold bounded, canonical_mantissa, fexp, emin. intros H.
  apply andb_prop in H as [Hc He]. apply Z.eqb_eq in Hc. apply Z.leb_le in He.
  destruct (Z.eq_dec e (-1074)) as [|Hne]; [right; assumption|left].
  cbn [isNormal]. apply andb_true_intro; split; [|apply Z.leb_le; lia].
  apply andb_true_intro; split; [apply Z.eqb_eq | apply Z.leb_le]; lia.
Qed.

Lemma units_10 : units Num.lit_10 = 10 * 2 ^ 1074.
Proof. vm_compute. reflexivity. Qed.

Lemma units_100 : units Num.lit_100 = 100 * 2 ^ 1074.
Proof. vm_compute. reflexivity. Qed.

Lemma geb_10_normal x :
  isNormal x = true ->
  Num.geb x Num.lit_10 = (units Num.lit_10 <=? units x).
Proof.
  intros Hx. unfold Num.geb, SFleb.
  rewrite (compare_normal Num.lit_10 x eq_refl Hx).
  unfold Z.leb. now destruct (units Num.lit_10 ?= units x).
Qed.

Lemma qualityLadder_S fuel x :
  qualityLadder (S fuel) x
  = if Num.geb x Num.lit_10 then
      match qualityLadder fuel (Num.sub x Num.lit_10) with
      | Some rest => Some (x :: rest)
      | None => None
      end
    else Some [].
Proof. reflexivity. Qed.

(** Started at zero or at a normal double below [10 + 10 * n], for [n] up
    to 11, the first loop stops within [n + 1] rounds, after at most [n]
    steps. *)
Lemma qualityLadder_bounded n : forall x,
  (n <= 11)%nat ->
  x = S754_zero false \/ isNormal x = true ->
  units x < (10 + 10 * Z.of_nat n) * 2 ^ 1074 ->
  exists l, qualityLadder (S n) x = Some l /\ (List.length l <= n)%nat.
Proof.
  assert (Hpow : 0 < 2 ^ 1074) by (apply Z.pow_pos_nonneg; lia).
  induction n as [|n IH]; intros x Hn Hx Hlt; rewrite qualityLadder_S;
    (destruct Hx as [->|Hx]; [exists []; split; [reflexivity | simpl; lia]|]);
    rewrite (geb_10_normal x Hx), units_10;
    (destruct (Z.leb_spec (10 * 2 ^ 1074) (units x)) as [Hge|_];
      [|exists []; split; [reflexivity | simpl; lia]]).
  - lia.
  - destruct (sub_10_exact x Hx) as [Hunits Hshape]; rewrite ?units_10; try lia.
    rewrite units_10 in Hunits.
    destruct (IH (Num.sub x Num.lit_10)) as [l [Hl Hlen]]; try lia; [assumption|].
    rewrite Hl. exists (x :: l). split; [reflexivity | simpl; lia].
Qed.

(** Every quality of the validated range gives a ladder of at most ten
    values, found within 11 rounds. *)
Lemma qualityLadder_in_range quality :
  inQualityRange quality ->
  exists l, qualityLadder 11 (initialQuality quality) = Some l
            /\ (List.length l <= 10)%nat.
Proof.
  assert (Hpow : 0 < 2 ^ 1074) by (apply Z.pow_pos_nonneg; lia).
  assert (H100 : exists l, qualityLadder 11 Num.lit_100 = Some l
                           /\ (List.length l <= 10)%nat).
  { apply qualityLadder_bounded; [lia | right; reflexivity |].
    rewrite units_100. lia. }
  destruct quality as [q|]; [|intros _; exact H100].
  intros [Hvalid [Hlo Hhi]]. cbn [initialQuality].
  destruct q as [s|s| |s m e]; cbn [Num.truthy]; try exact H100.
  - destruct s; discriminate.
  - destruct s; [discriminate|].
    destruct (valid_positive m e Hvalid) as [Hn| ->].
    + apply qualityLadder_bounded; [lia | right; assumption |].
      unfold Num.leb, SFleb in Hhi.
      rewrite (compare_normal _ Num.lit_100 Hn eq_refl), units_100 in Hhi.
      destruct (Z.compare_spec (units (S754_finite false m e)) (100 * 2 ^ 1074));
        try discriminate; lia.
    + exists []. split; [reflexivity | simpl; lia].
Qed.

Lemma qualityValues_ladder quality :
  inQualityRange quality ->
  qualityLadder 11 (initialQuality quality) = Some (qualityValues quality)
  /\ (List.length (qualityValues quality) <= 10)%nat.
Proof.
  intros H. destruct (qualityLadder_in_range quality H) as [l [Hl Hlen]].
  unfold qualityValues. rewrite Hl. auto.
Qed.


(** The literals are the doubles nearest to their decimals. *)
Lemma literals_nearest :
  Num.nearest Num.lit_0_9 9 10 = true
  /\ Num.nearest Num.lit_0_1 1 10 = true
  /\ Num.nearest Num.lit_0_3 3 10 = true.
Proof. repeat split; vm_compute; reflexivity. Qed.

Lemma literals_integers :
  Num.lit_0 = Num.of_Z 0 /\ Num.lit_1 = Num.of_Z 1 /\ Num.lit_2 = Num.of_Z 2
  /\ Num.lit_10 = Num.of_Z 10 /\ Num.lit_70 = Num.of_Z 70
  /\ Num.lit_100 = Num.of_Z 100 /\ Num.lit_720 = Num.of_Z 720
  /\ Num.lit_1280 = Num.of_Z 1280 /\ Num.lit_4MiB = Num.of_Z (4 * 1024 * 1024).
Proof. repeat split; vm_compute; reflexivity. Qed.

(* ===================================================================== *)
(** * [compressImage], phase by phase *)
(* ===================================================================== *)

Section CompressImage.

Variable sharp : Sharp.
Variables (imageBuffer : Buffer) (targetFormat : ImageType) (maxFileSize : number).

Lemma reencode_trace q :
  trace (reencode sharp imageBuffer targetFormat q) = [EvToBuffer targetFormat q].
Proof. apply await_trace. Qed.

Lemma resizeAndEncode_trace width height s :
  trace (resizeAndEncode sharp imageBuffer targetFormat width height s)
  = [resizeCall width height targetFormat s].
Proof. apply await_trace. Qed.

(** With 11 rounds of fuel or more, the first loop of a quality of the
    validated range is the ladder of [qualityValues]. *)
Lemma qualityLoop_is_ladder quality fuel :
  inQualityRange quality -> (11 <= fuel)%nat ->
  qualityLoop sharp fuel imageBuffer targetFormat maxFileSize (initialQuality quality)
  = tryInOrder (reencode sharp imageBuffer targetFormat) maxFileSize
      (qualityValues quality).
Proof.
  intros Hq Hfuel. apply qualityLoop_follows_ladder.
  replace fuel with (11 + (fuel - 11))%nat by lia.
  apply qualityLadder_more_fuel, qualityValues_ladder, Hq.
Qed.

(** For an integer quality these values are [q], [q - 10], .... *)
Lemma qualityLoop_is_steps q fuel :
  validQuality q -> (11 <= fuel)%nat ->
  qualityLoop sharp fuel imageBuffer targetFormat maxFileSize
    (initialQuality (qualityOfZ q))
  = tryInOrder (reencode sharp imageBuffer targetFormat) maxFileSize
      (map Num.of_Z (qualitySteps (startQuality q))).
Proof.
  intros Hq Hfuel. rewrite (initialQuality_start q Hq).
  apply qualityLoop_follows_ladder.
  replace fuel with (11 + (fuel - 11))%nat by lia.
  apply qualityLadder_more_fuel, qualityLadder_steps, startQuality_range, Hq.
Qed.

(** With 8 rounds of fuel or more, the second loop is the ladder of
    [scaleFactors]. *)
Lemma scaleLoop_is_ladder width height fuel :
  (8 <= fuel)%nat ->
  scaleLoop sharp fuel imageBuffer targetFormat maxFileSize width height Num.lit_0_9
  = tryInOrder (resizeAndEncode sharp imageBuffer targetFormat width height)
      maxFileSize scaleFactors.
Proof.
  intros Hfuel. apply scaleLoop_follows_ladder.
  replace fuel with (8 + (fuel - 8))%nat by lia.
  apply scaleLadder_more_fuel, scaleLadder_evaluated.
Qed.

(** The calls of the second phase: one metadata read, then resizes only,
    at most one per scale factor. *)
Lemma resizePhase_calls fuel :
  (8 <= fuel)%nat ->
  outcome (resizePhase sharp fuel imageBuffer targetFormat maxFileSize) <> OutOfFuel
  /\ exists resizes,
       trace (resizePhase sharp fuel imageBuffer targetFormat maxFileSize)
       = EvMetadata :: resizes
       /\ (List.length resizes <= 7)%nat
       /\ (forall e, In e resizes -> isResizeToBuffer e = true).
Proof.
  intros Hfuel. unfold resizePhase.
  destruct (metadata sharp imageBuffer) as [m|e]; simpl.
  2:{ split; [discriminate|]. exists []. simpl. repeat split; try lia; tauto. }
  assert (Hnone : forall r : Buffer,
    outcome (A:=Buffer) (Return r, [EvMetadata] ++ []) <> OutOfFuel
    /\ exists resizes, trace (A:=Buffer) (Return r, [EvMetadata] ++ []) = EvMetadata :: resizes
         /\ (List.length resizes <= 7)%nat
         /\ (forall e, In e resizes -> isResizeToBuffer e = true)).
  { intros r. split; [discriminate|]. exists []. simpl. repeat split; try lia; tauto. }
  destruct (Metadata.width m) as [width|]; [|apply Hnone].
  destruct (Metadata.height m) as [height|]; [|apply Hnone].
  destruct (Num.truthy width && Num.truthy height); [|apply Hnone].
  rewrite (scaleLoop_is_ladder width height fuel Hfuel).
  pose proof (tryInOrder_trace_prefix
                (resizeAndEncode sharp imageBuffer targetFormat width height)
                maxFileSize (resizeCall width height targetFormat) scaleFactors
                (resizeAndEncode_trace width height)) as [tried [rest [Hsplit Htrace]]].
  pose proof (tryInOrder_never_out_of_fuel
                (resizeAndEncode sharp imageBuffer targetFormat width height)
                maxFileSize scaleFactors
                (fun c => await_not_OutOfFuel _ _)) as Hfuel'.
  destruct (tryInOrder _ maxFileSize scaleFactors) as [c calls]. simpl in *. subst calls.
  assert (Hlen : (List.length (map (resizeCall width height targetFormat) tried) <= 7)%nat).
  { rewrite List.length_map. apply (f_equal (@List.length _)) in Hsplit.
    rewrite List.length_app in Hsplit. simpl in Hsplit. lia. }
  assert (Hkind : forall e, In e (map (resizeCall width height targetFormat) tried) ->
                            isResizeToBuffer e = true).
  { intros e He. apply List.in_map_iff in He. now destruct He as [s [<- _]]. }
  destruct c as [[r|]| |]; simpl.
  - split; [discriminate|]. eexists. rewrite List.app_nil_r. split; [reflexivity|]. auto.
  - split; [discriminate|]. eexists. rewrite List.app_nil_r. split; [reflexivity|]. auto.
  - split; [discriminate|]. eexists. split; [reflexivity|]. auto.
  - contradiction.
Qed.

End CompressImage.

Section CompressImageCalls.

Variable sharp : Sharp.
Variables (imageBuffer : Buffer) (targetFormat : ImageType) (maxFileSize : number).

(** The shape of every trace of [compressImage]: re-encodes of the first
    ladder, then at most one metadata read, then resizes. *)
Lemma compressImage_calls quality fuel :
  inQualityRange quality -> (11 <= fuel)%nat ->
  outcome (compressImage sharp fuel imageBuffer targetFormat maxFileSize quality)
    <> OutOfFuel
  /\ exists tried reads resizes,
       trace (compressImage sharp fuel imageBuffer targetFormat maxFileSize quality)
       = map (EvToBuffer targetFormat) tried ++ reads ++ resizes
       /\ (List.length tried <= 10)%nat
       /\ (reads = [] \/ reads = [EvMetadata])
       /\ (List.length resizes <= 7)%nat
       /\ (forall e, In e resizes -> isResizeToBuffer e = true).
Proof.
  intros Hq Hfuel. unfold compressImage.
  rewrite (qualityLoop_is_ladder sharp imageBuffer targetFormat maxFileSize quality fuel
             Hq Hfuel).
  set (steps := qualityValues quality).
  pose proof (tryInOrder_trace_prefix
                (reencode sharp imageBuffer targetFormat) maxFileSize
                (EvToBuffer targetFormat) steps
                (reencode_trace sharp imageBuffer targetFormat))
    as [tried [rest [Hsplit Htrace]]].
  pose proof (tryInOrder_never_out_of_fuel
                (reencode sharp imageBuffer targetFormat) maxFileSize steps
                (fun c => await_not_OutOfFuel _ _)) as Hnot.
  assert (Hlen : (List.length tried <= 10)%nat).
  { apply (f_equal (@List.length _)) in Hsplit. unfold steps in Hsplit.
    rewrite List.length_app in Hsplit.
    pose proof (qualityValues_ladder quality Hq) as [_ Hten]. lia. }
  destruct (tryInOrder _ maxFileSize steps) as [c calls]. simpl in Htrace, Hnot.
  subst calls.
  destruct c as [[r|]| |]; simpl.
  - split; [discriminate|]. exists tried, [], []. simpl.
    rewrite ?List.app_nil_r. repeat split; auto; try lia; tauto.
  - assert (8 <= fuel)%nat as Hfuel8 by lia.
    destruct (resizePhase_calls sharp imageBuffer targetFormat maxFileSize fuel Hfuel8)
      as [Hnot2 [resizes [Htr [Hlen2 Hkind]]]].
    destruct (resizePhase sharp fuel imageBuffer targetFormat maxFileSize) as [c2 calls2].
    simpl in *. subst calls2. split; [assumption|].
    exists tried, [EvMetadata], resizes. simpl. repeat split; auto.
  - split; [discriminate|]. exists tried, [], []. simpl.
    rewrite ?List.app_nil_r. repeat split; auto; try lia; tauto.
  - contradiction.
Qed.

End CompressImageCalls.

Lemma resize_kinds e :
  isResizeToBuffer e = true ->
  isToBuffer e = false /\ isMetadata e = false /\ isReencode e = true.
Proof. destruct e; simpl; try discriminate. auto. Qed.

(** C2 (amended). A call of [compressImage] whose quality is unset or a
    double of 0 to 100, the range that the schema admits, ends without
    running out of 11 rounds of fuel, and it makes at most 10 re-encodes on
    the quality ladder, at most 7 on the scale ladder, at most 17 re-encodes
    in all, and at most one metadata read. *)
Theorem fitter_call_bounds sharp imageBuffer targetFormat maxFileSize quality fuel :
  inQualityRange quality -> (11 <= fuel)%nat ->
  let m := compressImage sharp fuel imageBuffer targetFormat maxFileSize quality in
  outcome m <> OutOfFuel
  /\ (count isToBuffer (trace m) <= 10)%nat
  /\ (count isResizeToBuffer (trace m) <= 7)%nat
  /\ (count isReencode (trace m) <= 17)%nat
  /\ (count isMetadata (trace m) <= 1)%nat.
Proof.
  intros Hq Hfuel m.
  destruct (compressImage_calls sharp imageBuffer targetFormat maxFileSize quality fuel
              Hq Hfuel)
    as [Hnot [tried [reads [resizes [Htr [Hlen [Hreads [Hlen2 Hkind]]]]]]]].
  fold m in Hnot, Htr. split; [assumption|]. rewrite Htr. clear Htr.
  rewrite !count_app.
  rewrite (count_map isToBuffer), (count_map_none isResizeToBuffer),
    (count_map isReencode), (count_map_none isMetadata) by reflexivity.
  rewrite (count_none isToBuffer resizes), (count_all isResizeToBuffer resizes),
    (count_all isReencode resizes), (count_none isMetadata resizes)
    by (intros e He; pose proof (Hkind e He);
        pose proof (resize_kinds e (Hkind e He)); tauto).
  destruct Hreads as [-> | ->]; cbn; lia.
Qed.

Lemma reencode_Resolved sharp imageBuffer targetFormat q b :
  toBuffer sharp imageBuffer targetFormat q = Resolved b ->
  reencode sharp imageBuffer targetFormat q = (Return b, [EvToBuffer targetFormat q]).
Proof. unfold reencode. now intros ->. Qed.

Lemma resizeAndEncode_Resolved sharp imageBuffer targetFormat width height s b :
  resizeToBuffer sharp imageBuffer (Num.floor (Num.mul width s))
    (Num.floor (Num.mul height s)) targetFormat Num.lit_70 = Resolved b ->
  resizeAndEncode sharp imageBuffer targetFormat width height s
  = (Return b, [resizeCall width height targetFormat s]).
Proof. unfold resizeAndEncode, resizeCall. now intros ->. Qed.

(** The second phase when the dimensions are known. *)
Lemma resizePhase_ladder sharp fuel imageBuffer targetFormat maxFileSize m w h :
  (8 <= fuel)%nat ->
  metadata sharp imageBuffer = Resolved m ->
  knownDimensions m = Some (w, h) ->
  resizePhase sharp fuel imageBuffer targetFormat maxFileSize
  = let attempts := tryInOrder (resizeAndEncode sharp imageBuffer targetFormat w h)
                      maxFileSize scaleFactors in
    (match outcome attempts with
     | Return (Some result) => Return result
     | Return None => Return imageBuffer
     | Throw e => Throw e
     | OutOfFuel => OutOfFuel
     end, EvMetadata :: trace attempts).
Proof.
  intros Hfuel Hm Hk. unfold resizePhase, knownDimensions in *. rewrite Hm.
  rewrite await_Resolved, bind_Return. cbv zeta.
  destruct (Metadata.width m) as [w'|]; [|discriminate].
  destruct (Metadata.height m) as [h'|]; [|discriminate].
  destruct (Num.truthy w' && Num.truthy h'); [|discriminate].
  injection Hk as -> ->.
  rewrite (scaleLoop_is_ladder sharp imageBuffer targetFormat maxFileSize w h fuel Hfuel).
  destruct (tryInOrder _ maxFileSize scaleFactors) as [[[r|]| |] calls]; simpl;
    now rewrite ?List.app_nil_r.
Qed.

(** The second phase when they are not. *)
Lemma resizePhase_unknown sharp fuel imageBuffer targetFormat maxFileSize m :
  metadata sharp imageBuffer = Resolved m ->
  knownDimensions m = None ->
  resizePhase sharp fuel imageBuffer targetFormat maxFileSize
  = (Return imageBuffer, [EvMetadata]).
Proof.
  intros Hm Hk. unfold resizePhase, knownDimensions in *. rewrite Hm. simpl.
  destruct (Metadata.width m) as [w'|]; [|reflexivity].
  destruct (Metadata.height m) as [h'|]; [|reflexivity].
  destruct (Num.truthy w' && Num.truthy h'); [discriminate|reflexivity].
Qed.

(** C3 (amended). For a quality that is unset or a double of 0 to 100,
    and when every call of the codec is resolved: if no step of the quality
    ladder fits and then either no step of the scale ladder fits or the
    metadata gives no usable dimensions, [compressImage] returns its input
    buffer, without an error, after trying every step. *)
Theorem fitter_falls_back_to_original
    sharp imageBuffer targetFormat maxFileSize quality fuel m :
  inQualityRange quality -> (11 <= fuel)%nat ->
  (forall q, In q (qualityValues quality) ->
     exists b, toBuffer sharp imageBuffer targetFormat q = Resolved b
               /\ fits b maxFileSize = false) ->
  metadata sharp imageBuffer = Resolved m ->
  (forall w h, knownDimensions m = Some (w, h) ->
     forall s, In s scaleFactors ->
       exists b, resizeToBuffer sharp imageBuffer (Num.floor (Num.mul w s))
                   (Num.floor (Num.mul h s)) targetFormat Num.lit_70 = Resolved b
                 /\ fits b maxFileSize = false) ->
  compressImage sharp fuel imageBuffer targetFormat maxFileSize quality
  = (Return imageBuffer,
     map (EvToBuffer targetFormat) (qualityValues quality)
     ++ EvMetadata ::
        match knownDimensions m with
        | Some (w, h) => map (resizeCall w h targetFormat) scaleFactors
        | None => []
        end).
Proof.
  intros Hq Hfuel Hquality Hm Hscale. unfold compressImage.
  rewrite (qualityLoop_is_ladder sharp imageBuffer targetFormat maxFileSize quality fuel
             Hq Hfuel).
  rewrite (tryInOrder_none _ maxFileSize (EvToBuffer targetFormat)).
  2:{ intros q Hin. destruct (Hquality q Hin) as [b [Hb Hf]]. exists b.
      split; [now apply reencode_Resolved | assumption]. }
  rewrite bind_Return.
  destruct (knownDimensions m) as [[w h]|] eqn:Hk.
  - rewrite (resizePhase_ladder sharp fuel imageBuffer targetFormat maxFileSize m w h)
      by (try lia; assumption).
    cbv zeta.
    rewrite (tryInOrder_none _ maxFileSize (resizeCall w h targetFormat)).
    + reflexivity.
    + intros s Hs. destruct (Hscale w h eq_refl s Hs) as [b [Hb Hf]]. exists b.
      split; [now apply resizeAndEncode_Resolved | assumption].
  - now rewrite (resizePhase_unknown sharp fuel imageBuffer targetFormat maxFileSize m).
Qed.

(** C5 (amended). For a quality that is unset or an integer of 1..100, the
    first phase re-encodes at [q], [q - 10], ... as long as the value is at
    least 10, and [compressImage] returns the first encoding that fits,
    without trying a later step; unset starts at 100. *)
Theorem quality_ladder_first_fit
    sharp imageBuffer targetFormat maxFileSize q fuel before k after result :
  match q with Some n => 1 <= n <= 100 | None => True end ->
  (11 <= fuel)%nat ->
  qualitySteps (match q with Some n => n | None => 100 end) = before ++ k :: after ->
  (forall k', In k' before ->
     exists b, toBuffer sharp imageBuffer targetFormat (Num.of_Z k') = Resolved b
               /\ fits b maxFileSize = false) ->
  toBuffer sharp imageBuffer targetFormat (Num.of_Z k) = Resolved result ->
  fits result maxFileSize = true ->
  compressImage sharp fuel imageBuffer targetFormat maxFileSize (qualityOfZ q)
  = (Return result, map (toBufferCall targetFormat) (before ++ [k])).
Proof.
  intros Hq Hfuel Hsteps Hbefore Hk Hfit.
  assert (Hvalid : validQuality q) by (destruct q; simpl in *; lia).
  assert (Hstart : startQuality q = match q with Some n => n | None => 100 end).
  { destruct q as [n|]; simpl in *; [|reflexivity].
    destruct (Z.eqb_spec n 0); [lia | reflexivity]. }
  unfold compressImage.
  rewrite (qualityLoop_is_steps sharp imageBuffer targetFormat maxFileSize q fuel Hvalid Hfuel).
  rewrite Hstart, Hsteps, List.map_app. simpl.
  rewrite (tryInOrder_first _ maxFileSize (EvToBuffer targetFormat) _ _ _ result).
  - rewrite bind_Return. simpl. rewrite List.app_nil_r.
    rewrite !List.map_app, List.map_map. reflexivity.
  - intros c Hc. apply List.in_map_iff in Hc. destruct Hc as [k' [<- Hk']].
    destruct (Hbefore k' Hk') as [b [Hb Hf]]. exists b.
    split; [now apply reencode_Resolved | assumption].
  - now apply reencode_Resolved.
  - assumption.
Qed.


(** C10. Quality 0 passes the range check of the schema, and
    [compressImage] treats it as it treats 100: [0 || 100] is 100, so the
    first re-encode is at quality 100. *)
Theorem zero_quality_starts_at_100 :
  (forall p, qualitySchema p (Some (JNum Num.lit_0)) = z.OK Num.lit_0)
  /\ initialQuality (Some Num.lit_0) = Num.lit_100
  /\ (forall sharp fuel imageBuffer targetFormat maxFileSize,
        compressImage sharp fuel imageBuffer targetFormat maxFileSize (Some Num.lit_0)
        = compressImage sharp fuel imageBuffer targetFormat maxFileSize (Some Num.lit_100))
  /\ (forall sharp fuel imageBuffer targetFormat maxFileSize,
        exists rest,
          trace (compressImage sharp (S fuel) imageBuffer targetFormat maxFileSize
                   (Some Num.lit_0))
          = EvToBuffer targetFormat Num.lit_100 :: rest).
Proof.
  repeat split.
  - intros sharp fuel imageBuffer targetFormat maxFileSize.
    unfold compressImage. cbn [initialQuality Num.truthy Num.lit_0 Num.lit_100].
    cbn [qualityLoop].
    replace (Num.geb Num.lit_100 Num.lit_10) with true by (vm_compute; reflexivity).
    unfold reencode.
    destruct (toBuffer sharp imageBuffer targetFormat Num.lit_100) as [b|e]; simpl.
    + destruct (fits b maxFileSize); simpl; [now eexists|].
      destruct (qualityLoop _ _ _ _ _ _) as [[[r|]| |] calls]; simpl; try now eexists.
      destruct (resizePhase _ _ _ _ _) as [c calls']. now eexists.
    + now eexists.
Qed.

(* ===================================================================== *)
(** * The calls of a sequence *)
(* ===================================================================== *)

Lemma outcome_bind {A B} (m : M A) (k : A -> M B) :
  outcome (bind m k)
  = match outcome m with
    | Return a => outcome (k a)
    | Throw e => Throw e
    | OutOfFuel => OutOfFuel
    end.
Proof. destruct m as [[a| |] calls]; simpl; try reflexivity. now destruct (k a). Qed.

Lemma trace_bind {A B} (m : M A) (k : A -> M B) :
  trace (bind m k)
  = trace m ++ match outcome m with
               | Return a => trace (k a)
               | _ => []
               end.
Proof.
  destruct m as [[a| |] calls]; simpl; try now rewrite List.app_nil_r.
  now destruct (k a).
Qed.

Lemma count_bind {A B} p (m : M A) (k : A -> M B) :
  count p (trace (bind m k))
  = (count p (trace m)
     + match outcome m with
       | Return a => count p (trace (k a))
       | _ => 0
       end)%nat.
Proof. rewrite trace_bind, count_app. now destruct (outcome m). Qed.

Lemma applyViewport_count p page viewport :
  (forall v, p (EvSetViewport v) = false) ->
  count p (trace (applyViewport page viewport)) = 0%nat.
Proof.
  intros Hp. destruct viewport as [v|]; simpl; [|reflexivity].
  rewrite await_trace. unfold count. simpl. now rewrite Hp.
Qed.

Lemma loadContent_cases page url html :
  (exists u, url = Some u /\ truthyString url = true
             /\ loadContent page url html = await (EvGoto u) (goto page u))
  \/ (exists h, html = Some h /\ truthyString url = false /\ truthyString html = true
                /\ loadContent page url html = await (EvSetContent h) (setContent page h))
  \/ (truthyString url = false /\ truthyString html = false
      /\ loadContent page url html = throw "url or html is required").
Proof.
  unfold loadContent.
  destruct url as [u|], html as [h|]; simpl;
    repeat match goal with
      | |- context [String.eqb ?s ""] => destruct (String.eqb s ""); simpl
      end;
    first [ left; eexists; repeat split; reflexivity
          | right; left; eexists; repeat split; reflexivity
          | right; right; repeat split; reflexivity ].
Qed.

Lemma loadContent_count p page url html :
  (forall u, p (EvGoto u) = false) -> (forall h, p (EvSetContent h) = false) ->
  count p (trace (loadContent page url html)) = 0%nat.
Proof.
  intros Hg Hs.
  destruct (loadContent_cases page url html)
    as [[u [_ [_ ->]]] | [[h [_ [_ [_ ->]]]] | [_ [_ ->]]]];
    rewrite ?await_trace; unfold count; simpl; now rewrite ?Hg, ?Hs.
Qed.

Lemma bind_ret_l {A B} (a : A) (k : A -> M B) : bind (ret a) k = k a.
Proof. unfold bind, ret. now destruct (k a). Qed.

Lemma count_one p e : count p [e] = if p e then 1%nat else 0%nat.
Proof. unfold count. simpl. now destruct (p e). Qed.

(* ===================================================================== *)
(** * The fitting step *)
(* ===================================================================== *)

(** C4. A screenshot that is already within [maxFileSize] is returned as
    it is: the fitting step of [generateImage] makes no call, and a run of
    [generateImage] whose screenshot fits calls neither the encoder nor the
    metadata reader and returns the screenshot if it returns. *)
Theorem fitting_skipped_within_budget fuel sharp export res :
  fits res (ImageExport.maxFileSize export) = true ->
  compressIfTooLarge sharp fuel export res = (Return res, [])
  /\ forall browser page url html,
       newPage browser = Resolved page ->
       screenshot page (screenshotOptions export) = Resolved res ->
       let m := generateImage fuel sharp (Some browser)
                  {| ImageRequest.url := url; ImageRequest.html := html;
                     ImageRequest.export := export |} in
       count isCodec (trace m) = 0%nat
       /\ forall out, outcome m = Return out -> out = res.
Proof.
  intros Hfit.
  assert (Hstep : compressIfTooLarge sharp fuel export res = (Return res, [])).
  { unfold compressIfTooLarge. now rewrite (leb_not_gtb _ _ Hfit). }
  split; [exact Hstep|].
  intros browser page url html Hpage Hshot m. subst m.
  unfold generateImage. cbn [getBrowser ImageRequest.export ImageRequest.url
                               ImageRequest.html].
  rewrite bind_ret_l, Hpage, await_Resolved, bind_Return. cbn [outcome trace fst snd].
  split.
  - rewrite count_app, count_one. cbn [isCodec isReencode isToBuffer isResizeToBuffer
      isMetadata orb Nat.add].
    rewrite count_bind, applyViewport_count by reflexivity.
    destruct (outcome (applyViewport page (ImageExport.viewport export))); [|reflexivity..].
    rewrite count_bind, loadContent_count by reflexivity.
    destruct (outcome (loadContent page url html)); [|reflexivity..].
    rewrite Hshot, await_Resolved, bind_Return. cbn [trace snd].
    rewrite count_app, count_one.
    rewrite count_bind, await_trace, count_one, Hstep. cbn.
    now destruct (outcome (await EvClose (close page))).
  - intros out. rewrite outcome_bind.
    destruct (outcome (applyViewport page (ImageExport.viewport export))); try discriminate.
    rewrite outcome_bind.
    destruct (outcome (loadContent page url html)); try discriminate.
    rewrite Hshot, await_Resolved, bind_Return. cbn [outcome fst]. rewrite outcome_bind.
    destruct (outcome (await EvClose (close page))); try discriminate.
    rewrite Hstep. cbn. congruence.
Qed.

(* ===================================================================== *)
(** * The calls of the fitter are calls into the codec *)
(* ===================================================================== *)

Section CodecOnly.

Variable sharp : Sharp.
Variables (imageBuffer : Buffer) (targetFormat : ImageType) (maxFileSize : number).

Lemma bind_codecOnly {A B} (m : M A) (k : A -> M B) :
  codecOnly m -> (forall a, codecOnly (k a)) -> codecOnly (bind m k).
Proof.
  unfold codecOnly. intros Hm Hk. rewrite trace_bind. apply List.Forall_app. split; [assumption|].
  destruct (outcome m); auto.
Qed.

Lemma qualityLoop_codecOnly fuel : forall q,
  codecOnly (qualityLoop sharp fuel imageBuffer targetFormat maxFileSize q).
Proof.
  induction fuel as [|fuel IH]; intros q; simpl; [constructor|].
  destruct (Num.geb q Num.lit_10); [|constructor].
  apply bind_codecOnly.
  - unfold codecOnly. rewrite reencode_trace. now repeat constructor.
  - intros result. destruct (fits result maxFileSize); [constructor | apply IH].
Qed.

Lemma scaleLoop_codecOnly width height fuel : forall s,
  codecOnly (scaleLoop sharp fuel imageBuffer targetFormat maxFileSize width height s).
Proof.
  induction fuel as [|fuel IH]; intros s; simpl; [constructor|].
  destruct (Num.geb s Num.lit_0_3); [|constructor].
  apply bind_codecOnly.
  - unfold codecOnly. rewrite resizeAndEncode_trace. now repeat constructor.
  - intros result. destruct (fits result maxFileSize); [constructor | apply IH].
Qed.

Lemma compressImage_codecOnly fuel quality :
  codecOnly (compressImage sharp fuel imageBuffer targetFormat maxFileSize quality).
Proof.
  unfold compressImage. apply bind_codecOnly; [apply qualityLoop_codecOnly|].
  intros [result|]; [constructor|].
  unfold resizePhase. apply bind_codecOnly.
  - unfold codecOnly. rewrite await_trace. now repeat constructor.
  - intros m. destruct (Metadata.width m) as [w|]; [|constructor].
    destruct (Metadata.height m) as [h|]; [|constructor].
    destruct (Num.truthy w && Num.truthy h); [|constructor].
    apply bind_codecOnly; [apply scaleLoop_codecOnly|].
    intros [result|]; constructor.
Qed.

End CodecOnly.

Lemma compressIfTooLarge_count p sharp fuel export res :
  (forall e, isCodec e = true -> p e = false) ->
  count p (trace (compressIfTooLarge sharp fuel export res)) = 0%nat.
Proof.
  intros Hp. apply count_none. intros e He. apply Hp.
  unfold compressIfTooLarge in He.
  destruct (Num.gtb _ _); [|destruct He].
  pose proof (compressImage_codecOnly sharp res (ImageExport.type export)
                (ImageExport.maxFileSize export) fuel
                (Some (ImageExport.quality export))) as H.
  unfold codecOnly in H. rewrite List.Forall_forall in H. now apply H.
Qed.

(* ===================================================================== *)
(** * Opening, loading, closing *)
(* ===================================================================== *)

Lemma codec_not_page e :
  isCodec e = true ->
  isClose e = false /\ isNewPage e = false /\ isGoto e = false /\ isSetContent e = false.
Proof. destruct e; simpl; try discriminate; auto. Qed.

Lemma render_shape fuel sharp browser request :
  (exists e, render fuel sharp browser request = (Throw e, []))
  \/ (exists e, render fuel sharp browser request = (Throw e, [EvNewPage]))
  \/ exists page viewport capture (after : Buffer -> M Buffer),
       render fuel sharp browser request
       = (page' <- (Return page, [EvNewPage]) ;;
          applyViewport page' viewport ;;
          loadContent page' (requestUrl request) (requestHtml request) ;;
          res <- capture ;;
          after res)%js
       /\ (exists e, trace capture = [e] /\ isClose e = false /\ isNewPage e = false
                     /\ isGoto e = false /\ isSetContent e = false)
       /\ (forall res, count isClose (trace (after res)) = 1%nat
                       /\ count isNewPage (trace (after res)) = 0%nat
                       /\ count isGoto (trace (after res)) = 0%nat
                       /\ count isSetContent (trace (after res)) = 0%nat).
Proof.
  destruct browser as [browser|]; [|left; destruct request; now eexists].
  destruct (newPage browser) as [page|e] eqn:Hpage.
  2:{ right. left. exists e. destruct request; simpl; unfold generatePdf, generateImage;
      cbn [getBrowser]; rewrite bind_ret_l, Hpage; reflexivity. }
  right. right. destruct request as [body|body].
  - exists page, (PdfExport.viewport (PdfRequest.export body)),
      (await (EvPdf (PdfRequest.export body)) (pdf page (PdfRequest.export body))),
      (fun res => (fireAndForget EvClose (close page) ;; ret res)%js).
    split; [|split].
    + simpl. unfold generatePdf. cbn [getBrowser]. now rewrite bind_ret_l, Hpage.
    + eexists. rewrite await_trace. now repeat split.
    + intros res. cbn. auto.
  - exists page, (ImageExport.viewport (ImageRequest.export body)),
      (await (EvScreenshot (screenshotOptions (ImageRequest.export body)))
         (screenshot page (screenshotOptions (ImageRequest.export body)))),
      (fun res => (await EvClose (close page) ;;
                   compressIfTooLarge sharp fuel (ImageRequest.export body) res)%js).
    split; [|split].
    + simpl. unfold generateImage. cbn [getBrowser]. now rewrite bind_ret_l, Hpage.
    + eexists. rewrite await_trace. now repeat split.
    + intros res. rewrite !count_bind, await_trace, !count_one. cbn [isClose isNewPage
        isGoto isSetContent].
      rewrite !compressIfTooLarge_count by (intros e He; now apply codec_not_page).
      destruct (outcome (await EvClose (close page))); auto.
Qed.

Lemma seq_count p (m1 m2 : M unit) (m3 : M Buffer) (k : Buffer -> M Buffer) :
  count p (trace (m1 ;; m2 ;; r <- m3 ;; k r)%js)
  = (count p (trace m1)
     + match outcome m1 with
       | Return _ =>
           count p (trace m2)
           + match outcome m2 with
             | Return _ =>
                 count p (trace m3)
                 + match outcome m3 with
                   | Return r => count p (trace (k r))
                   | _ => 0
                   end
             | _ => 0
             end
       | _ => 0
       end)%nat.
Proof.
  rewrite count_bind. destruct (outcome m1); [|reflexivity..].
  rewrite count_bind. destruct (outcome m2); [|reflexivity..].
  now rewrite count_bind.
Qed.

Lemma seq_outcome (m1 m2 : M unit) (m3 : M Buffer) (k : Buffer -> M Buffer) res :
  outcome (m1 ;; m2 ;; r <- m3 ;; k r)%js = Return res ->
  exists r, outcome m1 = Return tt /\ outcome m2 = Return tt /\ outcome m3 = Return r
            /\ outcome (k r) = Return res.
Proof.
  rewrite outcome_bind. destruct (outcome m1) as [[]| |]; try discriminate.
  rewrite outcome_bind. destruct (outcome m2) as [[]| |]; try discriminate.
  rewrite outcome_bind. destruct (outcome m3) as [r| |]; try discriminate.
  intros H. now exists r.
Qed.

(** The counts of page calls on every path of a render. *)
Lemma render_counts fuel sharp browser request :
  let m := render fuel sharp browser request in
  (count isClose (trace m) <= count isNewPage (trace m) <= 1)%nat
  /\ (forall res, outcome m = Return res ->
        count isNewPage (trace m) = 1%nat /\ count isClose (trace m) = 1%nat)
  /\ (truthyString (requestUrl request) = true ->
        count isSetContent (trace m) = 0%nat
        /\ forall res u, outcome m = Return res -> requestUrl request = Some u ->
              In (EvGoto u) (trace m)).
Proof.
  intros m. subst m.
  destruct (render_shape fuel sharp browser request)
    as [[e ->] | [[e ->] | [page [viewport [capture [after [-> [Hcap Hafter]]]]]]]].
  - cbn. repeat split; try lia; discriminate.
  - cbn. repeat split; try lia; discriminate.
  - destruct Hcap as [ec [Hec [Hc1 [Hc2 [Hc3 Hc4]]]]].
    rewrite bind_Return. cbn [outcome trace fst snd].
    pose (view := applyViewport page viewport).
    set (load := loadContent page (requestUrl request) (requestHtml request)).
    rewrite !count_app, !count_one, !seq_count.
    cbn [isClose isNewPage isGoto isSetContent].
    rewrite !applyViewport_count by reflexivity. fold view.
    rewrite Hec, !count_one, Hc1, Hc2, Hc4.
    assert (Hload : count isClose (trace load) = 0%nat /\ count isNewPage (trace load) = 0%nat)
      by (split; apply loadContent_count; reflexivity).
    destruct Hload as [-> ->].
    repeat split.
    + destruct (outcome view); try lia. destruct (outcome load); try lia.
      destruct (outcome capture) as [r| |]; try lia.
      destruct (Hafter r) as [Ha1 [Ha2 [Ha3 Ha4]]]; rewrite ?Ha1, ?Ha2, ?Ha3, ?Ha4; lia.
    + destruct (outcome view); try lia. destruct (outcome load); try lia.
      destruct (outcome capture) as [r| |]; try lia.
      destruct (Hafter r) as [Ha1 [Ha2 [Ha3 Ha4]]]; rewrite ?Ha1, ?Ha2, ?Ha3, ?Ha4; lia.
    + apply seq_outcome in H. destruct H as [r [-> [-> [-> Hr]]]].
      destruct (Hafter r) as [Ha1 [Ha2 [Ha3 Ha4]]]; rewrite ?Ha1, ?Ha2, ?Ha3, ?Ha4; lia.
    + apply seq_outcome in H. destruct H as [r [-> [-> [-> Hr]]]].
      destruct (Hafter r) as [Ha1 [Ha2 [Ha3 Ha4]]]; rewrite ?Ha1, ?Ha2, ?Ha3, ?Ha4; lia.
    + destruct (loadContent_cases page (requestUrl request) (requestHtml request))
        as [[u [Hu [Hut Hl]]] | [[h [Hh [Hut [Hht Hl]]]] | [Hut [Hht Hl]]]];
        try congruence.
      fold load in Hl. rewrite Hl, await_trace, count_one. cbn [isSetContent].
      destruct (outcome view); try lia. destruct (outcome (await _ _)); try lia.
      destruct (outcome capture) as [r| |]; try lia.
      destruct (Hafter r) as [Ha1 [Ha2 [Ha3 Ha4]]]; rewrite ?Ha1, ?Ha2, ?Ha3, ?Ha4; lia.
    + intros res u Hres Hu. right. cbn [app].
      apply seq_outcome in Hres. destruct Hres as [r [Hv [Hl [Hc Hr]]]].
      rewrite trace_bind, Hv. apply in_or_app. right.
      rewrite trace_bind. apply in_or_app. left.
      destruct (loadContent_cases page (requestUrl request) (requestHtml request))
        as [[u' [Hu' [Hut Hl']]] | [[h [Hh [Hut [Hht Hl']]]] | [Hut [Hht Hl']]]];
        try congruence.
      unfold load in *. rewrite Hl', await_trace.
      left. congruence.
Qed.

Local Open Scope zod_scope.

(* ===================================================================== *)
(** * Parsing with zod *)
(* ===================================================================== *)

Lemma ap_OK_inv {A B} (f : z.ParseReturn (A -> B)) (x : z.ParseReturn A) v :
  f <*> x = z.OK v -> exists g a, f = z.OK g /\ x = z.OK a /\ v = g a.
Proof.
  destruct f as [g|g i|i|e], x as [a|a i'|i'|e']; simpl; try discriminate.
  intros [= <-]. now exists g, a.
Qed.

Lemma thrown_ap {A B} (f : z.ParseReturn (A -> B)) (x : z.ParseReturn A) :
  thrown (f <*> x) = thrown f || thrown x.
Proof. now destruct f, x. Qed.

Lemma thrown_number checks p input : thrown (z.number checks p input) = false.
Proof.
  unfold z.number. destruct input as [[]|]; try reflexivity.
  destruct (z.isNaN n); [reflexivity|]. now destruct (flat_map _ _).
Qed.

Lemma thrown_string p input : thrown (z.string p input) = false.
Proof. now destruct input as [[]|]. Qed.

Lemma thrown_boolean p input : thrown (z.boolean p input) = false.
Proof. now destruct input as [[]|]. Qed.

Lemma thrown_enum {A} (values : list (string * A)) p input :
  thrown (z.enum values p input) = false.
Proof.
  unfold z.enum. destruct input as [[]|]; try reflexivity.
  now destruct (z.lookupEnum values s).
Qed.

Lemma thrown_default {A} (d : A) (s : z.Schema A) p input :
  (forall p input, thrown (s p input) = false) ->
  thrown (z.default d s p input) = false.
Proof. intros H. destruct input; [apply H | reflexivity]. Qed.

Lemma thrown_optional {A} (s : z.Schema A) p input :
  (forall p input, thrown (s p input) = false) ->
  thrown (z.optional s p input) = false.
Proof.
  intros H. unfold z.optional. destruct input; [|reflexivity].
  now rewrite thrown_ap, H.
Qed.

Lemma thrown_object {A} (shape : list string -> gmap string json -> z.ParseReturn A) p input :
  (forall p fields, thrown (shape p fields) = false) ->
  thrown (z.object shape p input) = false.
Proof. intros H. destruct input as [[]|]; try reflexivity. apply H. Qed.

Lemma thrown_clip p input : thrown (clipSchema p input) = false.
Proof. unfold clipSchema. apply thrown_object. intros. unfold z.field. 
  rewrite !thrown_ap, !thrown_number. reflexivity. Qed.

Lemma thrown_viewport p input : thrown (viewportSchema p input) = false.
Proof.
  unfold viewportSchema. apply thrown_object. intros. unfold z.field.
  rewrite !thrown_ap, !thrown_default; try reflexivity; intros; apply thrown_number.
Qed.

Lemma thrown_margin p input : thrown (marginSchema p input) = false.
Proof.
  unfold marginSchema. apply thrown_object. intros. unfold z.field.
  rewrite !thrown_ap, !thrown_string. reflexivity.
Qed.

Lemma thrown_scale p input : thrown (scaleSchema p input) = false.
Proof. apply thrown_default. intros. apply thrown_number. Qed.

Lemma thrown_quality p input : thrown (qualitySchema p input) = false.
Proof. apply thrown_default. intros. apply thrown_number. Qed.

Lemma thrown_pdfExport p input : thrown (pdfExportSchema p input) = false.
Proof.
  unfold pdfExportSchema. apply thrown_default. intros. apply thrown_object. intros.
  unfold z.field.
  rewrite !thrown_ap, thrown_scale, thrown_quality, thrown_margin.
  rewrite !thrown_default, !thrown_optional; try reflexivity; intros;
    first [apply thrown_enum | apply thrown_boolean | apply thrown_clip
          | apply thrown_viewport].
Qed.

Lemma thrown_imageExport p input : thrown (imageExportSchema p input) = false.
Proof.
  unfold imageExportSchema. apply thrown_default. intros. apply thrown_object. intros.
  unfold z.field.
  rewrite !thrown_ap, thrown_scale, thrown_quality.
  rewrite !thrown_default, !thrown_optional; try reflexivity; intros;
    first [apply thrown_enum | apply thrown_boolean | apply thrown_clip
          | apply thrown_viewport | apply thrown_number].
Qed.

(* ===================================================================== *)
(** * The range checks *)
(* ===================================================================== *)

(** A number that passes [min(lo)] and [max(hi)] lies between them, and it
    is the number that was given. *)
Lemma number_min_max lo hi p input n :
  z.isNaN lo = false -> z.isNaN hi = false ->
  z.number [z.min lo; z.max hi] p input = z.OK n ->
  input = Some (JNum n) /\ Num.leb lo n = true /\ Num.leb n hi = true.
Proof.
  intros Hlo Hhi. unfold z.number.
  destruct input as [[| |n'| | |]|]; try discriminate.
  destruct (z.isNaN n') eqn:Hnan; [discriminate|].
  cbn [flat_map z.runCheck z.min z.max].
  destruct (Num.ltb n' lo) eqn:Hlt; [discriminate|].
  destruct (Num.gtb n' hi) eqn:Hgt; [discriminate|].
  cbn. intros [= <-]. repeat split.
  - now apply not_ltb_leb.
  - apply not_ltb_leb; assumption.
Qed.

(** Below [min(lo)] or above [max(hi)], the number is not accepted. *)
Lemma number_out_of_range lo hi p n v :
  Num.ltb n lo = true \/ Num.gtb n hi = true ->
  z.number [z.min lo; z.max hi] p (Some (JNum n)) <> z.OK v.
Proof.
  intros H. unfold z.number. destruct (z.isNaN n); [discriminate|].
  cbn [flat_map z.runCheck z.min z.max].
  destruct H as [-> | ->]; [discriminate|].
  destruct (Num.ltb n lo); discriminate.
Qed.

Lemma scaleSchema_OK p input s :
  scaleSchema p input = z.OK s ->
  scaleInRange s /\ (forall n, input = Some (JNum n) -> s = n).
Proof.
  unfold scaleSchema, z.default. destruct input as [j|].
  - intros H. apply number_min_max in H; [|reflexivity..].
    destruct H as [-> [H1 H2]]. split; [now split|]. now intros n [= ->].
  - intros [= <-]. split; [split; reflexivity | discriminate].
Qed.

Lemma qualitySchema_OK p input q :
  qualitySchema p input = z.OK q ->
  qualityInRange q /\ (forall n, input = Some (JNum n) -> q = n).
Proof.
  unfold qualitySchema, z.default. destruct input as [j|].
  - intros H. apply number_min_max in H; [|reflexivity..].
    destruct H as [-> [H1 H2]]. split; [now split|]. now intros n [= ->].
  - intros [= <-]. split; [split; reflexivity | discriminate].
Qed.

Lemma in_range_not_out s :
  (scaleInRange s -> ~ scaleOutOfRange s) /\ (qualityInRange s -> ~ qualityOutOfRange s).
Proof.
  unfold scaleInRange, scaleOutOfRange, qualityInRange, qualityOutOfRange.
  split; intros [H1 H2] [H|H].
  - apply ltb_not_leb in H. congruence.
  - unfold Num.gtb in H. apply (ltb_not_leb Num.lit_2 s) in H. congruence.
  - apply ltb_not_leb in H. congruence.
  - unfold Num.gtb in H. apply (ltb_not_leb Num.lit_100 s) in H. congruence.
Qed.

Ltac invert_ap H :=
  repeat match type of H with
    | z.ap _ _ = z.OK _ =>
        let g := fresh "g" in
        let a := fresh "a" in
        let Ha := fresh "Ha" in
        let Hv := fresh "Hv" in
        apply ap_OK_inv in H; destruct H as [g [a [H [Ha Hv]]]]
    end;
  match type of H with
  | z.OK _ = z.OK _ => injection H as H
  end;
  subst.

Ltac use_range_lemmas :=
  repeat match goal with
    | H : z.field _ _ "scale" scaleSchema = z.OK _ |- _ =>
        apply scaleSchema_OK in H; destruct H as [? ?]
    | H : z.field _ _ "quality" qualitySchema = z.OK _ |- _ =>
        apply qualitySchema_OK in H; destruct H as [? ?]
    end.

Lemma default_ranges :
  scaleInRange Num.lit_1 /\ qualityInRange Num.lit_100.
Proof. repeat split. Qed.

Lemma pdfExportSchema_OK p input e :
  pdfExportSchema p input = z.OK e ->
  exportChecked input (PdfExport.scale e) (PdfExport.quality e).
Proof.
  unfold pdfExportSchema, z.default, exportChecked. destruct input as [j|].
  - unfold z.object. destruct j as [| | | | |fields]; try discriminate.
    intros H. invert_ap H. cbn [PdfExport.scale PdfExport.quality].
    use_range_lemmas.
    split; [assumption|split; [assumption|split]]; intros fields' n [= <-] Hn; auto.
  - intros [= <-]. cbn.
    split; [apply default_ranges|split; [apply default_ranges|split]]; discriminate.
Qed.

Lemma imageExportSchema_OK p input e :
  imageExportSchema p input = z.OK e ->
  exportChecked input (ImageExport.scale e) (ImageExport.quality e).
Proof.
  unfold imageExportSchema, z.default, exportChecked. destruct input as [j|].
  - unfold z.object. destruct j as [| | | | |fields]; try discriminate.
    intros H. invert_ap H. cbn [ImageExport.scale ImageExport.quality].
    use_range_lemmas.
    split; [assumption|split; [assumption|split]]; intros fields' n [= <-] Hn; auto.
  - intros [= <-]. cbn.
    split; [apply default_ranges|split; [apply default_ranges|split]]; discriminate.
Qed.

Lemma refine_OK_inv {A B} (truthy : B -> bool) (check : A -> string + B) message
    (s : z.Schema A) p input v :
  z.refine truthy check message s p input = z.OK v -> s p input = z.OK v.
Proof.
  unfold z.refine. destruct (s p input) as [a|a i|i|e]; try discriminate.
  - destruct (check a) as [e|b]; [discriminate|]. now destruct (truthy b).
  - destruct (check a) as [e|b]; [discriminate|]. now destruct (truthy b).
Qed.

Lemma safeParse_Success {A} (s : z.Schema A) body r :
  z.safeParse s body = z.Success r -> s [] (Some body) = z.OK r.
Proof.
  unfold z.safeParse. destruct (s [] (Some body)); try discriminate. now intros [= ->].
Qed.

(** A successful parse of a request comes from an object whose [export]
    parsed without an issue. *)
Lemma PdfRequestSchema_Success validURL body r :
  z.safeParse (PdfRequestSchema validURL) body = z.Success r ->
  exists fields, body = JObj fields
    /\ pdfExportSchema ["export"] (fields !! "export") = z.OK (PdfRequest.export r).
Proof.
  intros H. apply safeParse_Success in H. unfold PdfRequestSchema in H.
  apply refine_OK_inv in H. unfold z.object in H.
  destruct body as [| | | | |fields]; try discriminate.
  invert_ap H. now exists fields.
Qed.

Lemma ImageRequestSchema_Success validURL body r :
  z.safeParse (ImageRequestSchema validURL) body = z.Success r ->
  exists fields, body = JObj fields
    /\ imageExportSchema ["export"] (fields !! "export") = z.OK (ImageRequest.export r).
Proof.
  intros H. apply safeParse_Success in H. unfold ImageRequestSchema in H.
  apply refine_OK_inv in H. unfold z.object in H.
  destruct body as [| | | | |fields]; try discriminate.
  invert_ap H. now exists fields.
Qed.

Lemma exportField_object fields export key :
  fields !! "export" = Some export ->
  exportField (JObj fields) key = bodyField export key.
Proof. unfold exportField, bodyField. now intros ->. Qed.

(** C6. A request that either schema accepts has its [scale] in
    [0.1, 2] and its [quality] in [0, 100]; a given value is passed on as
    it is; and a body whose [export.scale] or [export.quality] is a number
    outside its interval is not accepted by either schema. *)
Theorem scale_and_quality_checked validURL body :
  (forall r, z.safeParse (PdfRequestSchema validURL) body = z.Success r ->
     scaleInRange (PdfExport.scale (PdfRequest.export r))
     /\ qualityInRange (PdfExport.quality (PdfRequest.export r))
     /\ (forall s, exportField body "scale" = Some (JNum s) ->
           PdfExport.scale (PdfRequest.export r) = s)
     /\ (forall q, exportField body "quality" = Some (JNum q) ->
           PdfExport.quality (PdfRequest.export r) = q))
  /\ (forall r, z.safeParse (ImageRequestSchema validURL) body = z.Success r ->
     scaleInRange (ImageExport.scale (ImageRequest.export r))
     /\ qualityInRange (ImageExport.quality (ImageRequest.export r))
     /\ (forall s, exportField body "scale" = Some (JNum s) ->
           ImageExport.scale (ImageRequest.export r) = s)
     /\ (forall q, exportField body "quality" = Some (JNum q) ->
           ImageExport.quality (ImageRequest.export r) = q))
  /\ (forall s, exportField body "scale" = Some (JNum s) -> scaleOutOfRange s ->
        (forall r, z.safeParse (PdfRequestSchema validURL) body <> z.Success r)
        /\ (forall r, z.safeParse (ImageRequestSchema validURL) body <> z.Success r))
  /\ (forall q, exportField body "quality" = Some (JNum q) -> qualityOutOfRange q ->
        (forall r, z.safeParse (PdfRequestSchema validURL) body <> z.Success r)
        /\ (forall r, z.safeParse (ImageRequestSchema validURL) body <> z.Success r)).
Proof.
  assert (Hpdf : forall r, z.safeParse (PdfRequestSchema validURL) body = z.Success r ->
     scaleInRange (PdfExport.scale (PdfRequest.export r))
     /\ qualityInRange (PdfExport.quality (PdfRequest.export r))
     /\ (forall s, exportField body "scale" = Some (JNum s) ->
           PdfExport.scale (PdfRequest.export r) = s)
     /\ (forall q, exportField body "quality" = Some (JNum q) ->
           PdfExport.quality (PdfRequest.export r) = q)).
  { intros r Hr. apply PdfRequestSchema_Success in Hr. destruct Hr as [fields [-> He]].
    apply pdfExportSchema_OK in He. destruct He as [Hs [Hq [Hs' Hq']]].
    repeat split; try apply Hs; try apply Hq.
    - intros s. unfold exportField, bodyField.
      destruct (fields !! "export") as [[| | | | |export]|] eqn:E; try discriminate.
      intros Hf. now apply (Hs' export).
    - intros q. unfold exportField, bodyField.
      destruct (fields !! "export") as [[| | | | |export]|] eqn:E; try discriminate.
      intros Hf. now apply (Hq' export). }
  assert (Himage : forall r, z.safeParse (ImageRequestSchema validURL) body = z.Success r ->
     scaleInRange (ImageExport.scale (ImageRequest.export r))
     /\ qualityInRange (ImageExport.quality (ImageRequest.export r))
     /\ (forall s, exportField body "scale" = Some (JNum s) ->
           ImageExport.scale (ImageRequest.export r) = s)
     /\ (forall q, exportField body "quality" = Some (JNum q) ->
           ImageExport.quality (ImageRequest.export r) = q)).
  { intros r Hr. apply ImageRequestSchema_Success in Hr. destruct Hr as [fields [-> He]].
    apply imageExportSchema_OK in He. destruct He as [Hs [Hq [Hs' Hq']]].
    repeat split; try apply Hs; try apply Hq.
    - intros s. unfold exportField, bodyField.
      destruct (fields !! "export") as [[| | | | |export]|] eqn:E; try discriminate.
      intros Hf. now apply (Hs' export).
    - intros q. unfold exportField, bodyField.
      destruct (fields !! "export") as [[| | | | |export]|] eqn:E; try discriminate.
      intros Hf. now apply (Hq' export). }
  split; [exact Hpdf|]. split; [exact Himage|].
  split.
  - intros s Hs Hout. split; intros r Hr.
    + destruct (Hpdf r Hr) as [Hin [_ [Heq _]]]. rewrite (Heq s Hs) in Hin.
      now apply (proj1 (in_range_not_out s)) in Hin.
    + destruct (Himage r Hr) as [Hin [_ [Heq _]]]. rewrite (Heq s Hs) in Hin.
      now apply (proj1 (in_range_not_out s)) in Hin.
  - intros q Hq Hout. split; intros r Hr.
    + destruct (Hpdf r Hr) as [_ [Hin [_ Heq]]]. rewrite (Heq q Hq) in Hin.
      now apply (proj2 (in_range_not_out q)) in Hin.
    + destruct (Himage r Hr) as [_ [Hin [_ Heq]]]. rewrite (Heq q Hq) in Hin.
      now apply (proj2 (in_range_not_out q)) in Hin.
Qed.

(* ===================================================================== *)
(** * Requests without a target, and requests with both *)
(* ===================================================================== *)

Lemma PdfRequestSchema_no_target validURL fields :
  fields !! "url" = None -> fields !! "html" = None ->
  PdfRequestSchema validURL [] (Some (JObj fields))
  = match pdfExportSchema ["export"] (fields !! "export") with
    | z.OK e => z.DIRTY (PdfRequest.Build_t None None e) [missingTargetIssue]
    | z.DIRTY e issues =>
        z.DIRTY (PdfRequest.Build_t None None e) (issues ++ [missingTargetIssue])
    | z.INVALID issues => z.INVALID issues
    | z.THROWN e => z.THROWN e
    end.
Proof.
  intros Hurl Hhtml. unfold PdfRequestSchema, z.refine, z.object, z.field.
  rewrite Hurl, Hhtml. cbn [z.optional z.ap app].
  now destruct (pdfExportSchema ["export"] (fields !! "export")).
Qed.

Lemma ImageRequestSchema_no_target validURL fields :
  fields !! "url" = None -> fields !! "html" = None ->
  ImageRequestSchema validURL [] (Some (JObj fields))
  = match imageExportSchema ["export"] (fields !! "export") with
    | z.OK e => z.DIRTY (ImageRequest.Build_t None None e) [missingTargetIssue]
    | z.DIRTY e issues =>
        z.DIRTY (ImageRequest.Build_t None None e) (issues ++ [missingTargetIssue])
    | z.INVALID issues => z.INVALID issues
    | z.THROWN e => z.THROWN e
    end.
Proof.
  intros Hurl Hhtml. unfold ImageRequestSchema, z.refine, z.object, z.field.
  rewrite Hurl, Hhtml. cbn [z.optional z.ap app].
  now destruct (imageExportSchema ["export"] (fields !! "export")).
Qed.

(** C9 (amended). A body with neither [url] nor [html] fails validation and
    the route answers with the issues without calling the browser or the
    codec. When the [export] part does not abort the parse, the issues
    include "Either url or html must be provided"; when [export] is absent
    it is the only issue. *)
Theorem missing_target_is_rejected validURL sharp browser fuel body :
  bodyField body "url" = None -> bodyField body "html" = None ->
  (exists issues,
     z.safeParse (PdfRequestSchema validURL) body = z.Failure issues
     /\ postPdf validURL browser body = (Return (Invalid issues), [])
     /\ (forall fields, body = JObj fields ->
           notAborted (pdfExportSchema ["export"] (fields !! "export")) ->
           In missingTargetIssue issues)
     /\ (forall fields, body = JObj fields -> fields !! "export" = None ->
           issues = [missingTargetIssue]))
  /\ (exists issues,
     z.safeParse (ImageRequestSchema validURL) body = z.Failure issues
     /\ postImage validURL sharp browser fuel body = (Return (Invalid issues), [])
     /\ (forall fields, body = JObj fields ->
           notAborted (imageExportSchema ["export"] (fields !! "export")) ->
           In missingTargetIssue issues)
     /\ (forall fields, body = JObj fields -> fields !! "export" = None ->
           issues = [missingTargetIssue])).
Proof.
  intros Hurl Hhtml. unfold postPdf, postImage, z.safeParse.
  destruct body as [| | | | |fields];
    try (split; exists [z.issue z.invalid_type []];
         repeat split; discriminate).
  cbn [bodyField] in Hurl, Hhtml.
  rewrite (PdfRequestSchema_no_target validURL fields Hurl Hhtml).
  rewrite (ImageRequestSchema_no_target validURL fields Hurl Hhtml).
  split.
  - pose proof (thrown_pdfExport ["export"] (fields !! "export")) as Hthrown.
    destruct (pdfExportSchema ["export"] (fields !! "export")) as [e|e i|i|e] eqn:E;
      [| | |discriminate]; eexists; (split; [reflexivity|]); (split; [reflexivity|]);
      split; intros fields' [= <-].
    + intros _. now left.
    + now intros _.
    + intros _. apply in_or_app. right. now left.
    + intros Hnone. rewrite Hnone in E. discriminate.
    + rewrite E. intros [].
    + intros Hnone. rewrite Hnone in E. discriminate.
  - pose proof (thrown_imageExport ["export"] (fields !! "export")) as Hthrown.
    destruct (imageExportSchema ["export"] (fields !! "export")) as [e|e i|i|e] eqn:E;
      [| | |discriminate]; eexists; (split; [reflexivity|]); (split; [reflexivity|]);
      split; intros fields' [= <-].
    + intros _. now left.
    + now intros _.
    + intros _. apply in_or_app. right. now left.
    + intros Hnone. rewrite Hnone in E. discriminate.
    + rewrite E. intros [].
    + intros Hnone. rewrite Hnone in E. discriminate.
Qed.


(* ===================================================================== *)
(** * The page of a render *)
(* ===================================================================== *)

(** C1 (amended). A render (PDF or image) never closes more pages than it
    opened and opens at most one; when it returns, it has opened exactly
    one page and closed it exactly once. *)
Theorem page_closed_once_on_success fuel sharp browser request :
  let m := render fuel sharp browser request in
  (count isClose (trace m) <= count isNewPage (trace m) <= 1)%nat
  /\ (forall res, outcome m = Return res ->
        count isNewPage (trace m) = 1%nat /\ count isClose (trace m) = 1%nat).
Proof.
  intros m. pose proof (render_counts fuel sharp browser request) as H.
  cbv zeta in H. fold m in H. tauto.
Qed.


(* ===================================================================== *)
(** * Examples: the theorems at concrete inputs *)
(* ===================================================================== *)

Import Examples.

(** C1, the claim as it was stated, refuted: when navigation times out the
    PDF render throws with its page opened and never closed. *)
Lemma page_left_open_on_timeout :
  let m := render 11 stubbornSharp timeoutBrowser (RenderPdf pdfOfUrl) in
  m = (Throw "Navigation timeout of 30000 ms exceeded", [EvNewPage; EvGoto exampleUrl])
  /\ count isNewPage (trace m) = 1%nat
  /\ count isClose (trace m) <> 1%nat.
Proof. cbv zeta. repeat split. discriminate. Qed.

Lemma page_closed_once_on_success_witness :
  let m := render 11 stubbornSharp goodBrowser (RenderPdf pdfOfUrl) in
  (count isClose (trace m) <= count isNewPage (trace m) <= 1)%nat
  /\ (forall res, outcome m = Return res ->
        count isNewPage (trace m) = 1%nat /\ count isClose (trace m) = 1%nat).
Proof.
  exact (page_closed_once_on_success 11 stubbornSharp goodBrowser (RenderPdf pdfOfUrl)).
Defined.

(** C2, the claim as it was stated, refuted: from quality 100 with a one-byte
    budget the quality ladder makes 10 re-encodes and the call 17. *)
Lemma ten_quality_steps_from_100 :
  let m := compressImage stubbornSharp 11 screenshotBytes png oneByteBudget
             (qualityOfZ (Some 100)) in
  count isToBuffer (trace m) = 10%nat
  /\ count isReencode (trace m) = 17%nat
  /\ ~ ((count isToBuffer (trace m) <= 9)%nat
        /\ (count isResizeToBuffer (trace m) <= 7)%nat
        /\ (count isReencode (trace m) <= 16)%nat).
Proof.
  cbv zeta.
  assert (H : count isToBuffer
                (trace (compressImage stubbornSharp 11 screenshotBytes png oneByteBudget
                          (qualityOfZ (Some 100)))) = 10%nat
              /\ count isReencode
                   (trace (compressImage stubbornSharp 11 screenshotBytes png oneByteBudget
                             (qualityOfZ (Some 100)))) = 17%nat)
    by (split; vm_compute; reflexivity).
  destruct H as [H1 H2]. rewrite H1, H2. repeat split. lia.
Qed.

Lemma fitter_call_bounds_witness :
  let m := compressImage stubbornSharp 11 screenshotBytes png oneByteBudget
             (qualityOfZ (Some 100)) in
  outcome m <> OutOfFuel
  /\ (count isToBuffer (trace m) <= 10)%nat
  /\ (count isResizeToBuffer (trace m) <= 7)%nat
  /\ (count isReencode (trace m) <= 17)%nat
  /\ (count isMetadata (trace m) <= 1)%nat.
Proof.
  apply (fitter_call_bounds stubbornSharp screenshotBytes png oneByteBudget
           (Some Num.lit_100) 11); [repeat split | lia].
Defined.

Lemma fitter_falls_back_to_original_witness :
  compressImage stubbornSharp 11 screenshotBytes png oneByteBudget (qualityOfZ None)
  = (Return screenshotBytes,
     map (toBufferCall png) (qualitySteps 100)
     ++ EvMetadata :: map (resizeCall (Num.of_Z 100) (Num.of_Z 100) png) scaleFactors).
Proof.
  apply (fitter_falls_back_to_original stubbornSharp screenshotBytes png oneByteBudget
           None 11 square100).
  - exact I.
  - lia.
  - intros q _. exists twoBytes. split; reflexivity.
  - reflexivity.
  - intros w h _ s _. exists twoBytes. split; reflexivity.
Defined.

Lemma fitting_skipped_within_budget_witness :
  compressIfTooLarge stubbornSharp 11 (imageExport Num.lit_4MiB) screenshotBytes
  = (Return screenshotBytes, []).
Proof.
  apply (fitting_skipped_within_budget 11 stubbornSharp (imageExport Num.lit_4MiB)
           screenshotBytes).
  reflexivity.
Defined.

(** C5, the claim as it was stated, refuted: from quality 0 the re-encodes
    are at 100, 90 and 80, which are not steps down from 0. *)
Lemma quality_zero_restarts_at_100 :
  let m := compressImage qualitySharp 11 screenshotBytes png oneByteBudget
             (qualityOfZ (Some 0)) in
  m = (Return oneByte, map (toBufferCall png) [100; 90; 80])
  /\ ~ (exists tried rest,
          qualitySteps 0 = tried ++ rest
          /\ List.filter isToBuffer (trace m) = map (toBufferCall png) tried).
Proof.
  cbv zeta. split; [vm_compute; reflexivity|].
  intros [tried [rest [Hsteps Htrace]]].
  change (qualitySteps 0) with (@nil Z) in Hsteps.
  destruct tried; [|discriminate]. vm_compute in Htrace. discriminate.
Qed.

Lemma quality_ladder_first_fit_witness :
  compressImage qualitySharp 11 screenshotBytes png oneByteBudget (qualityOfZ (Some 100))
  = (Return oneByte, map (toBufferCall png) ([100; 90] ++ [80])).
Proof.
  apply (quality_ladder_first_fit qualitySharp screenshotBytes png oneByteBudget
           (Some 100) 11 [100; 90] 80 [70; 60; 50; 40; 30; 20; 10] oneByte).
  - lia.
  - lia.
  - reflexivity.
  - intros k' [<-|[<-|[]]]; exists twoBytes; split; reflexivity.
  - reflexivity.
  - reflexivity.
Defined.


(** The resized sides of the example: 100 pixels become 90, 80 and 70. *)
Example resized_sides_of_100 :
  map (fun s => Num.floor (Num.mul (Num.of_Z 100) s)) (firstn 3 scaleFactors)
  = map Num.of_Z [90; 80; 70].
Proof. vm_compute. reflexivity. Qed.

(** The ends of both intervals are accepted, and a default is filled in. *)
Example interval_ends_accepted :
  scaleSchema ["export"; "scale"] (Some (JNum Num.lit_0_1)) = z.OK Num.lit_0_1
  /\ scaleSchema ["export"; "scale"] (Some (JNum Num.lit_2)) = z.OK Num.lit_2
  /\ qualitySchema ["export"; "quality"] (Some (JNum Num.lit_0)) = z.OK Num.lit_0
  /\ qualitySchema ["export"; "quality"] (Some (JNum Num.lit_100)) = z.OK Num.lit_100
  /\ scaleSchema ["export"; "scale"] None = z.OK Num.lit_1
  /\ qualitySchema ["export"; "quality"] None = z.OK Num.lit_100.
Proof. repeat split. Qed.

Lemma scale_and_quality_checked_witness :
  (forall r, z.safeParse (PdfRequestSchema anyURL) (scaleBody (Num.of_Z 5)) <> z.Success r)
  /\ (forall r, z.safeParse (ImageRequestSchema anyURL) (scaleBody (Num.of_Z 5))
                <> z.Success r).
Proof.
  apply (proj1 (proj2 (proj2 (scale_and_quality_checked anyURL (scaleBody (Num.of_Z 5)))))
           (Num.of_Z 5)).
  - vm_compute. reflexivity.
  - right. vm_compute. reflexivity.
Defined.

(** An image request with [scale] 5 fails with "too big" at [export.scale]. *)
Example scale_5_is_too_big :
  z.safeParse (ImageRequestSchema anyURL) (scaleBody (Num.of_Z 5))
  = z.Failure [z.issue z.too_big ["export"; "scale"]].
Proof. vm_compute. reflexivity. Qed.


(** Both renders of a request with both targets navigate and capture. *)
Example renders_of_both_targets :
  render 11 stubbornSharp goodBrowser (RenderPdf pdfOfBoth)
  = (Return screenshotBytes, [EvNewPage; EvGoto exampleUrl; EvPdf pdfExport; EvClose])
  /\ render 11 stubbornSharp goodBrowser (RenderImage imageOfBoth)
     = (Return screenshotBytes,
        [EvNewPage; EvGoto exampleUrl;
         EvScreenshot (screenshotOptions (imageExport Num.lit_4MiB)); EvClose]).
Proof. split; vm_compute; reflexivity. Qed.

(** C9, the claim as it was stated, refuted: the body [{"export": {}}] has
    neither [url] nor [html], and the PDF schema fails it for the missing
    [export.margin] alone, without the message about the target. *)
Lemma empty_export_hides_missing_target :
  bodyField emptyExportBody "url" = None
  /\ bodyField emptyExportBody "html" = None
  /\ z.safeParse (PdfRequestSchema anyURL) emptyExportBody
     = z.Failure [z.issue z.invalid_type ["export"; "margin"]]
  /\ lacksMessage [z.issue z.invalid_type ["export"; "margin"]] missingTarget.
Proof.
  repeat split; try (vm_compute; reflexivity).
  intros i [<-|[]]. discriminate.
Qed.

Lemma missing_target_is_rejected_witness :
  z.safeParse (PdfRequestSchema anyURL) emptyBody = z.Failure [missingTargetIssue]
  /\ postPdf anyURL goodBrowser emptyBody = (Return (Invalid [missingTargetIssue]), []).
Proof.
  destruct (missing_target_is_rejected anyURL stubbornSharp goodBrowser 11 emptyBody
              eq_refl eq_refl) as [[issues [H1 [H2 [_ H4]]]] _].
  rewrite (H4 ∅ eq_refl (lookup_empty _)) in H1, H2. split; assumption.
Defined.

(** The image route on the empty body and on a body with both targets. *)
Example image_route_examples :
  postImage anyURL stubbornSharp goodBrowser 11 emptyBody
  = (Return (Invalid [missingTargetIssue]), [])
  /\ postImage anyURL stubbornSharp goodBrowser 11 bothBody
     = (Return (Body "image/png" screenshotBytes),
        [EvNewPage; EvGoto exampleUrl;
         EvScreenshot (screenshotOptions (imageExport Num.lit_4MiB)); EvClose])
  /\ postPdf anyURL timeoutBrowser bothBody
     = (Return (ErrorJson 400 "Navigation timeout of 30000 ms exceeded"),
        [EvNewPage; EvGoto exampleUrl]).
Proof. repeat split; vm_compute; reflexivity. Qed.

(* ===================================================================== *)
(** * [compressImage]: what it returns and what it throws *)
(* ===================================================================== *)

Section FitterResults.

Variable sharp : Sharp.
Variables (imageBuffer : Buffer) (targetFormat : ImageType) (maxFileSize : number).

Lemma qualityLoop_fits fuel : forall q r,
  outcome (qualityLoop sharp fuel imageBuffer targetFormat maxFileSize q) = Return (Some r) ->
  fits r maxFileSize = true.
Proof.
  induction fuel as [|fuel IH]; intros q r; cbn [qualityLoop]; [discriminate|].
  destruct (Num.geb q Num.lit_10); [|discriminate].
  rewrite outcome_bind.
  destruct (outcome (reencode sharp imageBuffer targetFormat q)) as [b| |];
    try discriminate.
  destruct (fits b maxFileSize) eqn:Hb; [|apply IH].
  cbn. now intros [= <-].
Qed.

Lemma scaleLoop_fits width height fuel : forall s r,
  outcome (scaleLoop sharp fuel imageBuffer targetFormat maxFileSize width height s)
  = Return (Some r) ->
  fits r maxFileSize = true.
Proof.
  induction fuel as [|fuel IH]; intros s r; cbn [scaleLoop]; [discriminate|].
  destruct (Num.geb s Num.lit_0_3); [|discriminate].
  rewrite outcome_bind.
  destruct (outcome (resizeAndEncode sharp imageBuffer targetFormat width height s))
    as [b| |]; try discriminate.
  destruct (fits b maxFileSize) eqn:Hb; [|apply IH].
  cbn. now intros [= <-].
Qed.

Lemma resizePhase_fits fuel r :
  outcome (resizePhase sharp fuel imageBuffer targetFormat maxFileSize) = Return r ->
  fits r maxFileSize = true \/ r = imageBuffer.
Proof.
  unfold resizePhase. rewrite outcome_bind.
  destruct (outcome (await EvMetadata (metadata sharp imageBuffer))) as [m| |];
    try discriminate.
  assert (Hsame : outcome (ret (A:=Buffer) imageBuffer) = Return r -> 
                  fits r maxFileSize = true \/ r = imageBuffer)
    by (cbn; intros [= <-]; now right).
  destruct (Metadata.width m) as [width|]; [|exact Hsame].
  destruct (Metadata.height m) as [height|]; [|exact Hsame].
  destruct (Num.truthy width && Num.truthy height); [|exact Hsame].
  rewrite outcome_bind.
  destruct (outcome (scaleLoop sharp fuel imageBuffer targetFormat maxFileSize
                       width height Num.lit_0_9)) as [[b|]| |] eqn:E; try discriminate.
  - cbn. intros [= <-]. left. exact (scaleLoop_fits _ _ _ _ _ E).
  - exact Hsame.
Qed.

Lemma compressImage_fits fuel quality r :
  outcome (compressImage sharp fuel imageBuffer targetFormat maxFileSize quality) = Return r ->
  fits r maxFileSize = true \/ r = imageBuffer.
Proof.
  unfold compressImage. cbv zeta. rewrite outcome_bind.
  destruct (outcome (qualityLoop sharp fuel imageBuffer targetFormat maxFileSize
                       (initialQuality quality))) as [[b|]| |] eqn:E; try discriminate.
  - cbn. intros [= <-]. left. exact (qualityLoop_fits _ _ _ E).
  - apply resizePhase_fits.
Qed.

End FitterResults.

(** X1. Whatever the codec answers and whatever the quality: a buffer that
    [compressImage] returns is within [maxFileSize], or it is the input
    buffer itself. *)
Theorem compressed_fits_or_is_input
    sharp fuel imageBuffer targetFormat maxFileSize quality result :
  outcome (compressImage sharp fuel imageBuffer targetFormat maxFileSize quality)
  = Return result ->
  fits result maxFileSize = true \/ result = imageBuffer.
Proof. apply compressImage_fits. Qed.

(* ===================================================================== *)
(** * [compressImage] stops at the first call that the codec rejects *)
(* ===================================================================== *)

Section FirstRejection.

Variable sharp : Sharp.
Variable imageBuffer : Buffer.

Lemma stops_ret {A} (a : A) : stopsAtFirstRejection sharp imageBuffer (ret a).
Proof. constructor. Qed.

Lemma stops_await {A} e (p : Settled A) :
  rejection sharp imageBuffer e
  = match p with Rejected message => Some message | Resolved _ => None end ->
  stopsAtFirstRejection sharp imageBuffer (await e p).
Proof.
  intros He. unfold stopsAtFirstRejection. destruct p as [a|message]; cbn.
  - constructor; [assumption | constructor].
  - exists [], e. repeat split; [constructor | assumption].
Qed.

Lemma stops_bind {A B} (m : M A) (k : A -> M B) :
  stopsAtFirstRejection sharp imageBuffer m ->
  (forall a, stopsAtFirstRejection sharp imageBuffer (k a)) ->
  stopsAtFirstRejection sharp imageBuffer (bind m k).
Proof.
  unfold stopsAtFirstRejection. intros Hm Hk.
  rewrite outcome_bind, trace_bind.
  destruct (outcome m) as [a|message|]; [|now rewrite List.app_nil_r..].
  specialize (Hk a).
  destruct (outcome (k a)) as [b|message|].
  - apply List.Forall_app; split; assumption.
  - destruct Hk as [before [call [Htr [Hbefore Hcall]]]].
    exists (trace m ++ before), call. rewrite Htr, List.app_assoc.
    repeat split; [|assumption]. apply List.Forall_app; split; assumption.
  - apply List.Forall_app; split; assumption.
Qed.

Variables (targetFormat : ImageType) (maxFileSize : number).

Lemma stops_qualityLoop fuel : forall q,
  stopsAtFirstRejection sharp imageBuffer
    (qualityLoop sharp fuel imageBuffer targetFormat maxFileSize q).
Proof.
  induction fuel as [|fuel IH]; intros q; cbn [qualityLoop]; [constructor|].
  destruct (Num.geb q Num.lit_10); [|apply stops_ret].
  apply stops_bind; [now apply stops_await|].
  intros b. destruct (fits b maxFileSize); [apply stops_ret | apply IH].
Qed.

Lemma stops_scaleLoop width height fuel : forall s,
  stopsAtFirstRejection sharp imageBuffer
    (scaleLoop sharp fuel imageBuffer targetFormat maxFileSize width height s).
Proof.
  induction fuel as [|fuel IH]; intros s; cbn [scaleLoop]; [constructor|].
  destruct (Num.geb s Num.lit_0_3); [|apply stops_ret].
  apply stops_bind; [now apply stops_await|].
  intros b. destruct (fits b maxFileSize); [apply stops_ret | apply IH].
Qed.

Lemma stops_compressImage fuel quality :
  stopsAtFirstRejection sharp imageBuffer
    (compressImage sharp fuel imageBuffer targetFormat maxFileSize quality).
Proof.
  unfold compressImage. cbv zeta.
  apply stops_bind; [apply stops_qualityLoop|].
  intros [b|]; [apply stops_ret|].
  unfold resizePhase. apply stops_bind; [now apply stops_await|].
  intros m.
  destruct (Metadata.width m) as [width|]; [|apply stops_ret].
  destruct (Metadata.height m) as [height|]; [|apply stops_ret].
  destruct (Num.truthy width && Num.truthy height); [|apply stops_ret].
  apply stops_bind; [apply stops_scaleLoop|].
  intros [b|]; apply stops_ret.
Qed.

End FirstRejection.

(** X2. [compressImage] raises no error of its own and swallows none: it
    throws exactly when the codec rejects a call, with the message of that
    rejection, and that call is its last one; every earlier call was
    resolved. *)
Theorem codec_rejection_ends_compression
    sharp fuel imageBuffer targetFormat maxFileSize quality :
  let m := compressImage sharp fuel imageBuffer targetFormat maxFileSize quality in
  (forall message,
     outcome m = Throw message <->
     exists before call,
       trace m = before ++ [call]
       /\ rejection sharp imageBuffer call = Some message)
  /\ (forall before call after,
        trace m = before ++ call :: after -> after <> [] ->
        rejection sharp imageBuffer call = None).
Proof.
  intros m.
  pose proof (stops_compressImage sharp imageBuffer targetFormat maxFileSize fuel quality)
    as H.
  fold m in H. unfold stopsAtFirstRejection in H.
  assert (Hlast : forall (before : list Event) call l,
            l = before ++ [call] ->
            Forall (fun e => rejection sharp imageBuffer e = None) l ->
            rejection sharp imageBuffer call = None).
  { intros before call l -> Hall. apply List.Forall_app in Hall as [_ Hall].
    now inversion Hall. }
  assert (Hmid : forall (before : list Event) call after l,
            l = before ++ call :: after ->
            Forall (fun e => rejection sharp imageBuffer e = None) l ->
            rejection sharp imageBuffer call = None).
  { intros before call after l -> Hall. apply List.Forall_app in Hall as [_ Hall].
    now inversion Hall. }
  split.
  - intros message. split.
    + intros Hthrow. rewrite Hthrow in H.
      destruct H as [before [call [Htr [_ Hcall]]]]. now exists before, call.
    + intros [before [call [Htr Hcall]]].
      destruct (outcome m) as [b|message'|].
      * rewrite (Hlast before call _ Htr H) in Hcall. discriminate.
      * destruct H as [before' [call' [Htr' [_ Hcall']]]].
        rewrite Htr in Htr'. apply List.app_inj_tail in Htr' as [_ <-].
        congruence.
      * rewrite (Hlast before call _ Htr H) in Hcall. discriminate.
  - intros before call after Htr Hafter.
    destruct (outcome m) as [b|message|]; try exact (Hmid _ _ _ _ Htr H).
    destruct H as [before' [call' [Htr' [Hbefore _]]]].
    rewrite Htr' in Htr.
    destruct (List.exists_last Hafter) as [after' [last Hsplit]]. subst after.
    change (before ++ call :: after' ++ [last])
      with (before ++ (call :: after') ++ [last]) in Htr.
    rewrite List.app_assoc in Htr. apply List.app_inj_tail in Htr as [-> _].
    apply List.Forall_app in Hbefore as [_ Hbefore]. now inversion Hbefore.
Qed.

(* ===================================================================== *)
(** * What [compressImage] asks of the encoder *)
(* ===================================================================== *)

Section EncoderCalls.

Variable sharp : Sharp.
Variables (imageBuffer : Buffer) (targetFormat : ImageType) (maxFileSize : number).

Lemma qualityLoop_in_range fuel : forall q,
  (Num.geb q Num.lit_10 = true ->
   isNormal q = true /\ units q <= 100 * 2 ^ 1074) ->
  Forall (encoderCallInRange targetFormat)
    (trace (qualityLoop sharp fuel imageBuffer targetFormat maxFileSize q)).
Proof.
  assert (Hpow : 0 < 2 ^ 1074) by (apply Z.pow_pos_nonneg; lia).
  induction fuel as [|fuel IH]; intros q Hq; cbn [qualityLoop]; [constructor|].
  destruct (Num.geb q Num.lit_10) eqn:Hge; [|constructor].
  destruct (Hq eq_refl) as [Hn Hle].
  rewrite trace_bind, reencode_trace.
  apply List.Forall_app; split.
  - constructor; [|constructor]. cbn [encoderCallInRange].
    split; [reflexivity|]. split; [assumption|].
    unfold Num.leb, SFleb. rewrite (compare_normal q Num.lit_100 Hn eq_refl), units_100.
    destruct (Z.compare_spec (units q) (100 * 2 ^ 1074)); [reflexivity..|lia].
  - destruct (outcome (reencode sharp imageBuffer targetFormat q)) as [b| |];
      try constructor.
    destruct (fits b maxFileSize); [constructor|].
    apply IH. intros Hge'.
    rewrite (geb_10_normal q Hn), units_10 in Hge. apply Z.leb_le in Hge.
    destruct (sub_10_exact q Hn) as [Hunits Hshape]; rewrite ?units_10; try lia.
    rewrite units_10 in Hunits.
    destruct Hshape as [Hzero|Hn']; [rewrite Hzero in Hge'; discriminate|].
    split; [assumption | lia].
Qed.

Lemma initialQuality_in_range quality :
  inQualityRange quality ->
  Num.geb (initialQuality quality) Num.lit_10 = true ->
  isNormal (initialQuality quality) = true
  /\ units (initialQuality quality) <= 100 * 2 ^ 1074.
Proof.
  assert (H100 : isNormal Num.lit_100 = true /\ units Num.lit_100 <= 100 * 2 ^ 1074)
    by (split; [reflexivity | rewrite units_100; lia]).
  destruct quality as [q|]; [|intros _ _; exact H100].
  intros [Hvalid [Hlo Hhi]]. cbn [initialQuality].
  destruct q as [s|s| |s m e]; cbn [Num.truthy]; try (intros _; exact H100).
  - destruct s; discriminate.
  - destruct s; [discriminate|]. intros Hge.
    destruct (valid_positive m e Hvalid) as [Hn| ->]; [|discriminate].
    split; [assumption|].
    unfold Num.leb, SFleb in Hhi.
    rewrite (compare_normal _ Num.lit_100 Hn eq_refl), units_100 in Hhi.
    destruct (Z.compare_spec (units (S754_finite false m e)) (100 * 2 ^ 1074));
      try discriminate; lia.
Qed.

Lemma scaleLoop_in_range width height fuel : forall s,
  Forall (encoderCallInRange targetFormat)
    (trace (scaleLoop sharp fuel imageBuffer targetFormat maxFileSize width height s)).
Proof.
  induction fuel as [|fuel IH]; intros s; cbn [scaleLoop]; [constructor|].
  destruct (Num.geb s Num.lit_0_3); [|constructor].
  rewrite trace_bind, resizeAndEncode_trace.
  apply List.Forall_app; split.
  - constructor; [|constructor]. split; reflexivity.
  - destruct (outcome (resizeAndEncode sharp imageBuffer targetFormat width height s))
      as [b| |]; try constructor.
    destruct (fits b maxFileSize); [constructor | apply IH].
Qed.

Lemma resizePhase_in_range fuel :
  Forall (encoderCallInRange targetFormat)
    (trace (resizePhase sharp fuel imageBuffer targetFormat maxFileSize)).
Proof.
  unfold resizePhase. rewrite trace_bind, await_trace.
  apply List.Forall_app; split; [repeat constructor|].
  destruct (outcome (await EvMetadata (metadata sharp imageBuffer))) as [m| |];
    try constructor.
  destruct (Metadata.width m) as [width|]; [|constructor].
  destruct (Metadata.height m) as [height|]; [|constructor].
  destruct (Num.truthy width && Num.truthy height); [|constructor].
  rewrite trace_bind. apply List.Forall_app; split; [apply scaleLoop_in_range|].
  destruct (outcome (scaleLoop _ _ _ _ _ _ _ _)) as [[b|]| |]; constructor.
Qed.

Lemma compressImage_in_range fuel quality :
  inQualityRange quality ->
  Forall (encoderCallInRange targetFormat)
    (trace (compressImage sharp fuel imageBuffer targetFormat maxFileSize quality)).
Proof.
  intros Hq. unfold compressImage. cbv zeta. rewrite trace_bind.
  apply List.Forall_app; split.
  - apply qualityLoop_in_range, initialQuality_in_range, Hq.
  - destruct (outcome (qualityLoop _ _ _ _ _ _)) as [[b|]| |]; try constructor.
    apply resizePhase_in_range.
Qed.

End EncoderCalls.

(** X3. For a quality that is unset or a double of 0 to 100, every call
    that [compressImage] makes is a codec call in the target format: a
    re-encode at a quality of 10 to 100, a resize at quality 70, or the
    metadata read. In particular the encoder is never given a quality below
    10, whatever quality was asked for. *)
Theorem encoder_qualities_within_10_and_100
    sharp fuel imageBuffer targetFormat maxFileSize quality e :
  inQualityRange quality ->
  In e (trace (compressImage sharp fuel imageBuffer targetFormat maxFileSize quality)) ->
  encoderCallInRange targetFormat e.
Proof.
  intros Hq He.
  pose proof (compressImage_in_range sharp imageBuffer targetFormat maxFileSize fuel
                quality Hq) as Hall.
  rewrite List.Forall_forall in Hall. now apply Hall.
Qed.

(* ===================================================================== *)
(** * The sides that the scale ladder asks for *)
(* ===================================================================== *)

Lemma Forall2_combine_In {A B} (P : A -> B -> Prop) l l' :
  Forall2 P l l' -> forall a b, In (a, b) (combine l l') -> P a b.
Proof.
  induction 1 as [|x y l l' Hxy _ IH]; intros a b; cbn; [tauto|].
  intros [[= <- <-]|Hin]; [assumption | now apply IH].
Qed.

Lemma of_Z_zero_iff q : 0 <= q < 2 ^ 53 -> (Num.of_Z q = Num.lit_0 <-> q = 0).
Proof.
  intros Hq. split; [|now intros ->].
  destruct (Z.eq_dec q 0) as [|Hne]; [auto|]. intros Hz.
  destruct (of_Z_normal q) as [m [a [Hm _]]]; [lia|].
  rewrite Hm in Hz. discriminate.
Qed.

(** X25. At the step of the scale ladder that stands for [n] tenths, an
    image of [w] by [h] pixels (sides up to 2^31 - 1) is resized to
    [w * n / 10] by [h * n / 10], at quality 70; a side comes out as 0
    exactly when [side * n < 10]. So an image with a side of 1 pixel is asked
    to be resized to a side of 0 at every step, and a side of 4 pixels or
    more never is. *)
Theorem small_sides_are_resized_to_zero w h targetFormat s n :
  1 <= w <= maxSide -> 1 <= h <= maxSide ->
  In (s, n) (combine scaleFactors scaleTenths) ->
  resizeCall (Num.of_Z w) (Num.of_Z h) targetFormat s
  = EvResizeToBuffer (Num.of_Z (w * n / 10)) (Num.of_Z (h * n / 10)) targetFormat Num.lit_70
  /\ (Num.of_Z (w * n / 10) = Num.lit_0 <-> w * n < 10)
  /\ (Num.of_Z (h * n / 10) = Num.lit_0 <-> h * n < 10)
  /\ (w = 1 -> Num.of_Z (w * n / 10) = Num.lit_0)
  /\ (4 <= w -> Num.of_Z (w * n / 10) <> Num.lit_0).
Proof.
  intros Hw Hh Hin.
  pose proof (Forall2_combine_In _ _ _ (floors_are_tenths w Hw) s n Hin) as Hfw.
  pose proof (Forall2_combine_In _ _ _ (floors_are_tenths h Hh) s n Hin) as Hfh.
  assert (Hn : 3 <= n <= 9).
  { cbn in Hin. repeat destruct Hin as [[= <- <-]|Hin]; try lia; destruct Hin. }
  assert (Hside : forall d, 1 <= d <= maxSide ->
            (Num.of_Z (d * n / 10) = Num.lit_0 <-> d * n < 10)).
  { intros d Hd. unfold maxSide in Hd.
    assert (0 <= d * n / 10 < 2 ^ 53).
    { change (2 ^ 53) with 9007199254740992. split.
      - apply Z.div_pos; nia.
      - apply Z.div_lt_upper_bound; nia. }
    rewrite of_Z_zero_iff by assumption. split.
    - intros Hq. apply Z.div_small_iff in Hq; lia.
    - intros Hlt. apply Z.div_small. nia. }
  unfold resizeCall. rewrite Hfw, Hfh.
  split; [reflexivity|]. split; [now apply Hside|]. split; [now apply Hside|].
  split.
  - intros ->. apply Hside; lia.
  - intros H4 Hz. apply Hside in Hz; [|assumption]. nia.
Qed.

(* ===================================================================== *)
(** * The calls of [generatePdf] and [generateImage], step by step *)
(* ===================================================================== *)

Lemma applyViewport_returns page viewport :
  outcome (applyViewport page viewport) = Return tt ->
  trace (applyViewport page viewport) = viewportCalls viewport.
Proof. destruct viewport as [v|]; [|reflexivity]. intros _. apply await_trace. Qed.

Lemma applyViewport_accepted page viewport :
  viewportAccepted page viewport ->
  applyViewport page viewport = (Return tt, viewportCalls viewport).
Proof.
  intros H. destruct viewport as [v|]; [|reflexivity].
  cbn [applyViewport viewportCalls]. now rewrite (H v eq_refl).
Qed.

Lemma loadContent_returns page url html :
  outcome (loadContent page url html) = Return tt ->
  exists nav, navigationCall url html = Some nav
              /\ trace (loadContent page url html) = [nav].
Proof.
  unfold navigationCall.
  destruct (loadContent_cases page url html)
    as [[u [-> [Hu ->]]] | [[h [-> [Hu [Hh ->]]]] | [Hu [Hh ->]]]].
  - intros _. rewrite Hu. exists (EvGoto u). split; [reflexivity | apply await_trace].
  - intros _. rewrite Hu, Hh. exists (EvSetContent h).
    split; [reflexivity | apply await_trace].
  - discriminate.
Qed.

Lemma outcome_unit (m : M unit) : forall u, outcome m = Return u -> outcome m = Return tt.
Proof. now intros []. Qed.

(** X4. When [generatePdf] returns, it has made exactly these calls, in
    this order: [newPage], [setViewport] if the body has a viewport, one
    navigation ([goto] for a truthy url, else [setContent]), [pdf] with the
    export options of the body, and [close]. *)
Theorem pdf_calls_on_success browser body res :
  outcome (generatePdf browser body) = Return res ->
  exists nav,
    navigationCall (PdfRequest.url body) (PdfRequest.html body) = Some nav
    /\ trace (generatePdf browser body)
       = EvNewPage :: viewportCalls (PdfExport.viewport (PdfRequest.export body))
         ++ [nav; EvPdf (PdfRequest.export body); EvClose].
Proof.
  unfold generatePdf. destruct browser as [b|]; [|discriminate].
  cbn [getBrowser]. rewrite bind_ret_l.
  destruct (newPage b) as [page|e]; [|discriminate].
  rewrite await_Resolved, bind_Return. cbn [outcome trace fst snd].
  rewrite outcome_bind, trace_bind.
  destruct (outcome (applyViewport page _)) as [[]| |] eqn:Hv; try discriminate.
  rewrite (applyViewport_returns _ _ Hv).
  rewrite outcome_bind, trace_bind.
  destruct (outcome (loadContent page _ _)) as [[]| |] eqn:Hl; try discriminate.
  destruct (loadContent_returns _ _ _ Hl) as [nav [Hnav ->]].
  rewrite outcome_bind, trace_bind, await_trace.
  destruct (pdf page (PdfRequest.export body)) as [buf|e]; [|discriminate].
  cbn. intros _. exists nav. split; [assumption|].
  reflexivity.
Qed.

Lemma compressIfTooLarge_fits sharp fuel export shot r :
  outcome (compressIfTooLarge sharp fuel export shot) = Return r ->
  r = shot \/ fits r (ImageExport.maxFileSize export) = true.
Proof.
  unfold compressIfTooLarge. destruct (Num.gtb _ _).
  - intros H. apply compressImage_fits in H. tauto.
  - cbn. intros [= <-]. now left.
Qed.

(** X5. An image that [generateImage] returns is the screenshot that the
    page took, or it is within [maxFileSize]. *)
Theorem image_is_screenshot_or_fits fuel sharp browser body result :
  outcome (generateImage fuel sharp browser body) = Return result ->
  exists b page shot,
    browser = Some b /\ newPage b = Resolved page
    /\ screenshot page (screenshotOptions (ImageRequest.export body)) = Resolved shot
    /\ (result = shot
        \/ fits result (ImageExport.maxFileSize (ImageRequest.export body)) = true).
Proof.
  unfold generateImage. cbv zeta. destruct browser as [b|]; [|discriminate].
  cbn [getBrowser]. rewrite bind_ret_l.
  destruct (newPage b) as [page|e] eqn:Hpage; [|discriminate].
  rewrite await_Resolved, bind_Return. cbn [outcome fst].
  rewrite outcome_bind.
  destruct (outcome (applyViewport page _)) as [[]| |]; try discriminate.
  rewrite outcome_bind.
  destruct (outcome (loadContent page _ _)) as [[]| |]; try discriminate.
  rewrite outcome_bind.
  destruct (screenshot page _) as [shot|e] eqn:Hshot; [|discriminate].
  cbn [await outcome fst]. rewrite outcome_bind.
  destruct (close page) as [[]|e]; [|discriminate].
  cbn [await outcome fst]. intros H.
  exists b, page, shot. repeat split; try assumption.
  exact (compressIfTooLarge_fits _ _ _ _ _ H).
Qed.

Lemma applyViewport_browser page viewport :
  Forall (fun e => isBrowser e = true) (trace (applyViewport page viewport)).
Proof.
  destruct viewport as [v|]; [|constructor].
  cbn [applyViewport]. rewrite await_trace. now repeat constructor.
Qed.

Lemma loadContent_browser page url html :
  Forall (fun e => isBrowser e = true) (trace (loadContent page url html)).
Proof.
  destruct (loadContent_cases page url html)
    as [[u [_ [_ ->]]] | [[h [_ [_ [_ ->]]]] | [_ [_ ->]]]];
    rewrite ?await_trace; now repeat constructor.
Qed.

Lemma compressIfTooLarge_codecOnly sharp fuel export res :
  Forall (fun e => isCodec e = true) (trace (compressIfTooLarge sharp fuel export res)).
Proof.
  unfold compressIfTooLarge. destruct (Num.gtb _ _); [|constructor].
  apply compressImage_codecOnly.
Qed.

(** X6. In every run of [generateImage] the calls into the browser come
    first and the calls into the codec last, and no codec call is made
    before the page has been closed: compression never runs while the page
    is open. *)
Theorem page_closed_before_compression fuel sharp browser body :
  exists browserCalls codecCalls,
    trace (generateImage fuel sharp browser body) = browserCalls ++ codecCalls
    /\ Forall (fun e => isBrowser e = true) browserCalls
    /\ Forall (fun e => isCodec e = true) codecCalls
    /\ (codecCalls <> [] -> exists earlier, browserCalls = earlier ++ [EvClose]).
Proof.
  assert (Hnone : forall calls : list Event,
            Forall (fun e => isBrowser e = true) calls ->
            exists browserCalls codecCalls,
              calls = browserCalls ++ codecCalls
              /\ Forall (fun e => isBrowser e = true) browserCalls
              /\ Forall (fun e => isCodec e = true) codecCalls
              /\ (codecCalls <> [] -> exists earlier, browserCalls = earlier ++ [EvClose])).
  { intros calls Hcalls. exists calls, []. rewrite List.app_nil_r.
    repeat split; [assumption | constructor | congruence]. }
  unfold generateImage. cbv zeta. destruct browser as [b|]; [|apply Hnone; constructor].
  cbn [getBrowser]. rewrite bind_ret_l.
  destruct (newPage b) as [page|e]; [|apply Hnone; now repeat constructor].
  rewrite await_Resolved, bind_Return. cbn [trace snd].
  pose proof (applyViewport_browser page
                (ImageExport.viewport (ImageRequest.export body))) as Hv.
  pose proof (loadContent_browser page (ImageRequest.url body) (ImageRequest.html body))
    as Hl.
  rewrite trace_bind.
  destruct (outcome (applyViewport page _)) as [[]| |];
    [| apply Hnone; rewrite List.app_nil_r; now constructor..].
  rewrite trace_bind.
  destruct (outcome (loadContent page _ _)) as [[]| |];
    [| apply Hnone; rewrite List.app_nil_r; constructor;
       [reflexivity | apply List.Forall_app; split; assumption]..].
  rewrite trace_bind, await_trace.
  destruct (screenshot page _) as [shot|e]; cbn [await outcome fst].
  2:{ apply Hnone. constructor; [reflexivity|].
      repeat (apply List.Forall_app; split; try assumption); now repeat constructor. }
  rewrite trace_bind, await_trace.
  destruct (close page) as [[]|e]; cbn [await outcome fst].
  2:{ apply Hnone. constructor; [reflexivity|].
      repeat (apply List.Forall_app; split; try assumption); now repeat constructor. }
  exists ([EvNewPage]
          ++ (trace (applyViewport page (ImageExport.viewport (ImageRequest.export body)))
              ++ trace (loadContent page (ImageRequest.url body) (ImageRequest.html body))
              ++ [EvScreenshot (screenshotOptions (ImageRequest.export body))])
          ++ [EvClose]),
    (trace (compressIfTooLarge sharp fuel (ImageRequest.export body) shot)).
  split; [|split; [|split]].
  - cbn [app]. rewrite <- !List.app_assoc. reflexivity.
  - repeat (apply List.Forall_app; split; try assumption); now repeat constructor.
  - apply compressIfTooLarge_codecOnly.
  - intros _.
    exists (EvNewPage
            :: trace (applyViewport page (ImageExport.viewport (ImageRequest.export body)))
               ++ trace (loadContent page (ImageRequest.url body)
                           (ImageRequest.html body))
               ++ [EvScreenshot (screenshotOptions (ImageRequest.export body))]).
    reflexivity.
Qed.

(** X7. [generatePdf] does not wait for [page.close()]: whatever [close]
    answers, the run is the same, so a failed close never costs the PDF.
    [generateImage] awaits it: when [close] rejects, no image is returned
    and nothing is compressed. *)
Theorem close_is_awaited_for_images_only fuel sharp page answer message :
  (forall body,
     generatePdf (Some {| newPage := Resolved (withClose page answer) |}) body
     = generatePdf (Some {| newPage := Resolved page |}) body)
  /\ (forall body,
        let m := generateImage fuel sharp
                   (Some {| newPage := Resolved (withClose page (Rejected message)) |})
                   body in
        (forall result, outcome m <> Return result)
        /\ count isCodec (trace m) = 0%nat).
Proof.
  split; [reflexivity|].
  intros body m. subst m. unfold generateImage. cbv zeta.
  cbn [getBrowser]. rewrite bind_ret_l. cbn [newPage].
  rewrite await_Resolved, bind_Return. cbn [outcome trace fst snd].
  set (p := withClose page (Rejected message)).
  split.
  - intros result. rewrite outcome_bind.
    destruct (outcome (applyViewport p _)) as [[]| |]; try discriminate.
    rewrite outcome_bind.
    destruct (outcome (loadContent p _ _)) as [[]| |]; try discriminate.
    rewrite outcome_bind.
    destruct (outcome (await _ (screenshot p _))) as [shot| |]; discriminate.
  - rewrite count_app, count_one. cbn [isCodec isReencode isToBuffer isResizeToBuffer
      isMetadata orb Nat.add].
    rewrite count_bind, applyViewport_count by reflexivity.
    destruct (outcome (applyViewport p _)); [|reflexivity..].
    rewrite count_bind, loadContent_count by reflexivity.
    destruct (outcome (loadContent p _ _)); [|reflexivity..].
    rewrite count_bind, await_trace, count_one.
    destruct (outcome (await _ (screenshot p _))); reflexivity.
Qed.

(** X8. Called with neither a truthy [url] nor a truthy [html], on a page
    that accepts the viewport, both renderers throw "url or html is
    required" after they have opened the page, and they leave it open. *)
Theorem missing_target_leaves_page_open fuel sharp b page url html :
  newPage b = Resolved page ->
  truthyString url = false -> truthyString html = false ->
  (forall export,
     viewportAccepted page (PdfExport.viewport export) ->
     generatePdf (Some b)
       {| PdfRequest.url := url; PdfRequest.html := html; PdfRequest.export := export |}
     = (Throw "url or html is required",
        EvNewPage :: viewportCalls (PdfExport.viewport export)))
  /\ (forall export,
        viewportAccepted page (ImageExport.viewport export) ->
        generateImage fuel sharp (Some b)
          {| ImageRequest.url := url; ImageRequest.html := html;
             ImageRequest.export := export |}
        = (Throw "url or html is required",
           EvNewPage :: viewportCalls (ImageExport.viewport export))).
Proof.
  intros Hpage Hu Hh.
  assert (Hload : loadContent page url html = throw "url or html is required").
  { destruct (loadContent_cases page url html)
      as [[u [_ [Hu' _]]] | [[h [_ [_ [Hh' _]]]] | [_ [_ H]]]]; congruence. }
  split; intros export Hv.
  - unfold generatePdf. cbn [getBrowser PdfRequest.url PdfRequest.html PdfRequest.export].
    rewrite bind_ret_l, Hpage, await_Resolved, bind_Return.
    rewrite (applyViewport_accepted _ _ Hv), bind_Return, Hload.
    cbn. now rewrite List.app_nil_r.
  - unfold generateImage. cbv zeta.
    cbn [getBrowser ImageRequest.url ImageRequest.html ImageRequest.export].
    rewrite bind_ret_l, Hpage, await_Resolved, bind_Return.
    rewrite (applyViewport_accepted _ _ Hv), bind_Return, Hload.
    cbn. now rewrite List.app_nil_r.
Qed.

(* ===================================================================== *)
(** * The custom checks [urlCustom] and [htmlCustom] *)
(* ===================================================================== *)

Lemma url_field_thrown validURL fields u :
  fields !! "url" = Some (JStr u) -> validURL u = false ->
  z.field fields [] "url" (z.optional (z.refine truthyReturn (urlCustom validURL) None z.string))
  = z.THROWN "Invalid URL".
Proof.
  intros Hurl Hbad. unfold z.field. rewrite Hurl.
  cbn [z.optional z.refine z.string]. unfold urlCustom. now rewrite Hbad.
Qed.

Lemma url_field_not_thrown validURL fields :
  (forall u, fields !! "url" = Some (JStr u) -> validURL u = true) ->
  thrown (z.field fields [] "url"
            (z.optional (z.refine truthyReturn (urlCustom validURL) None z.string)))
  = false.
Proof.
  intros Hurl. unfold z.field.
  destruct (fields !! "url") as [[| | |u| |]|]; try reflexivity.
  cbn [z.optional z.refine z.string]. unfold urlCustom. rewrite (Hurl u eq_refl).
  now destruct (truthyReturn u).
Qed.

Lemma html_field_thrown fields :
  fields !! "html" = Some (JStr "") ->
  z.field fields [] "html" (z.optional (z.refine truthyReturn htmlCustom None z.string))
  = z.THROWN "HTML content is required".
Proof. intros Hhtml. unfold z.field. now rewrite Hhtml. Qed.

Lemma ap_THROWN_l {A B} e (x : z.ParseReturn A) :
  z.ap (B:=B) (z.THROWN e) x = z.THROWN e.
Proof. reflexivity. Qed.

Lemma ap_THROWN_r {A B} (f : z.ParseReturn (A -> B)) e :
  thrown f = false -> f <*> z.THROWN e = z.THROWN e.
Proof. now destruct f. Qed.

Lemma refine_THROWN {A B} (truthy : B -> bool) (check : A -> string + B) message
    (s : z.Schema A) p input e :
  s p input = z.THROWN e -> z.refine truthy check message s p input = z.THROWN e.
Proof. unfold z.refine. now intros ->. Qed.

Lemma safeParse_THROWN {A} (s : z.Schema A) body e :
  s [] (Some body) = z.THROWN e -> z.safeParse s body = z.Exception e.
Proof. unfold z.safeParse. now intros ->. Qed.

(** X9. The custom checks do not fail validation, they throw. A body whose
    [url] is a string that [new URL] rejects makes both schemas throw
    "Invalid URL", and a body whose [html] is the empty string makes them
    throw "HTML content is required" (unless an ill-formed url has thrown
    before); the routes then throw the same, before they touch the browser:
    neither the validator's 400 nor the handler's 400 is sent. *)
Theorem custom_checks_throw validURL sharp browser fuel fields :
  (forall u, fields !! "url" = Some (JStr u) -> validURL u = false ->
     z.safeParse (PdfRequestSchema validURL) (JObj fields) = z.Exception "Invalid URL"
     /\ z.safeParse (ImageRequestSchema validURL) (JObj fields) = z.Exception "Invalid URL"
     /\ postPdf validURL browser (JObj fields) = throw "Invalid URL"
     /\ postImage validURL sharp browser fuel (JObj fields) = throw "Invalid URL")
  /\ ((forall u, fields !! "url" = Some (JStr u) -> validURL u = true) ->
      fields !! "html" = Some (JStr "") ->
      z.safeParse (PdfRequestSchema validURL) (JObj fields)
      = z.Exception "HTML content is required"
      /\ z.safeParse (ImageRequestSchema validURL) (JObj fields)
         = z.Exception "HTML content is required"
      /\ postPdf validURL browser (JObj fields) = throw "HTML content is required"
      /\ postImage validURL sharp browser fuel (JObj fields)
         = throw "HTML content is required").
Proof.
  split.
  - intros u Hurl Hbad.
    assert (Hpdf : z.safeParse (PdfRequestSchema validURL) (JObj fields)
                   = z.Exception "Invalid URL").
    { apply safeParse_THROWN, refine_THROWN. cbn [z.object].
      now rewrite (url_field_thrown validURL fields u Hurl Hbad). }
    assert (Himage : z.safeParse (ImageRequestSchema validURL) (JObj fields)
                     = z.Exception "Invalid URL").
    { apply safeParse_THROWN, refine_THROWN. cbn [z.object].
      now rewrite (url_field_thrown validURL fields u Hurl Hbad). }
    unfold postPdf, postImage. rewrite Hpdf, Himage. auto.
  - intros Hurl Hhtml.
    pose proof (url_field_not_thrown validURL fields Hurl) as Hnot.
    assert (Hpdf : z.safeParse (PdfRequestSchema validURL) (JObj fields)
                   = z.Exception "HTML content is required").
    { apply safeParse_THROWN, refine_THROWN. cbn [z.object].
      rewrite (html_field_thrown fields Hhtml), ap_THROWN_r; [reflexivity|].
      now rewrite thrown_ap, Hnot. }
    assert (Himage : z.safeParse (ImageRequestSchema validURL) (JObj fields)
                     = z.Exception "HTML content is required").
    { apply safeParse_THROWN, refine_THROWN. cbn [z.object].
      rewrite (html_field_thrown fields Hhtml), ap_THROWN_r; [reflexivity|].
      now rewrite thrown_ap, Hnot. }
    unfold postPdf, postImage. rewrite Hpdf, Himage. auto.
Qed.

(* ===================================================================== *)
(** * Defaults and required parts of [export] *)
(* ===================================================================== *)

Lemma url_field_OK validURL fields u :
  fields !! "url" = Some (JStr u) -> validURL u = true -> u <> "" ->
  z.field fields [] "url" (z.optional (z.refine truthyReturn (urlCustom validURL) None z.string))
  = z.OK (Some u).
Proof.
  intros Hurl Hvalid Hu. unfold z.field. rewrite Hurl.
  cbn [z.optional z.refine z.string]. unfold urlCustom, truthyReturn. rewrite Hvalid.
  cbn [truthyString]. apply String.eqb_neq in Hu. now rewrite Hu.
Qed.

Lemma html_field_absent fields :
  fields !! "html" = None ->
  z.field fields [] "html" (z.optional (z.refine truthyReturn htmlCustom None z.string))
  = z.OK None.
Proof. intros Hhtml. unfold z.field. now rewrite Hhtml. Qed.

Lemma imageExport_of_empty_object p :
  imageExportSchema p (Some (JObj ∅)) = z.OK imageExportDefault.
Proof. reflexivity. Qed.

(** X10. A body with a well-formed url and no [export] key is accepted by
    both schemas with the default export: for a PDF scale 1, quality 100 and
    margins "0", for an image a [maxFileSize] of 4 MiB and type png, and no
    viewport. For an image an empty [export] object gives the same
    request. *)
Theorem omitted_export_gets_defaults validURL fields u :
  fields !! "url" = Some (JStr u) -> validURL u = true -> u <> "" ->
  fields !! "html" = None ->
  (fields !! "export" = None ->
   z.safeParse (PdfRequestSchema validURL) (JObj fields)
   = z.Success {| PdfRequest.url := Some u; PdfRequest.html := None;
                  PdfRequest.export := pdfExportDefault |})
  /\ (fields !! "export" = None \/ fields !! "export" = Some (JObj ∅) ->
      z.safeParse (ImageRequestSchema validURL) (JObj fields)
      = z.Success {| ImageRequest.url := Some u; ImageRequest.html := None;
                     ImageRequest.export := imageExportDefault |}).
Proof.
  intros Hurl Hvalid Hu Hhtml.
  assert (Hne : String.eqb u "" = false) by now apply String.eqb_neq.
  split.
  - intros Hexport. unfold z.safeParse, PdfRequestSchema.
    unfold z.refine at 1. cbn [z.object].
    rewrite (url_field_OK validURL fields u Hurl Hvalid Hu), (html_field_absent fields Hhtml).
    unfold z.field. rewrite Hexport. cbn. do 3 (rewrite ?Hne; cbn). reflexivity.
  - intros Hexport. unfold z.safeParse, ImageRequestSchema.
    unfold z.refine at 1. cbn [z.object].
    rewrite (url_field_OK validURL fields u Hurl Hvalid Hu), (html_field_absent fields Hhtml).
    unfold z.field.
    destruct Hexport as [-> | ->]; [|rewrite imageExport_of_empty_object];
      cbn; do 3 (rewrite ?Hne; cbn); reflexivity.
Qed.

(** X11. An [export] object that is given for a PDF must carry [margin]:
    when it does not, the request is not accepted, although a request
    without any [export] is. *)
Theorem pdf_export_needs_margin validURL fields export data :
  fields !! "export" = Some (JObj export) -> export !! "margin" = None ->
  z.safeParse (PdfRequestSchema validURL) (JObj fields) <> z.Success data.
Proof.
  intros Hexport Hmargin Hparse.
  apply PdfRequestSchema_Success in Hparse as [fields' [[= <-] H]].
  rewrite Hexport in H. unfold pdfExportSchema in H.
  cbn [z.default z.object] in H. invert_ap H.
  unfold z.field in *. rewrite Hmargin in *. discriminate.
Qed.

(* ===================================================================== *)
(** * What an accepted request guarantees to the renderer *)
(* ===================================================================== *)

Lemma positive_OK d p input n :
  Num.ltb Num.lit_0 d = true ->
  z.default d (z.number [z.positive]) p input = z.OK n ->
  Num.ltb Num.lit_0 n = true.
Proof.
  intros Hd. unfold z.default, z.number. destruct input as [[| |n'| | |]|];
    try discriminate; [|now intros [= <-]].
  destruct (z.isNaN n') eqn:Hnan; [discriminate|].
  cbn [flat_map z.runCheck z.positive app].
  destruct (Num.leb n' Num.lit_0) eqn:Hle; [discriminate|].
  intros [= <-].
  unfold Num.leb, Num.ltb, SFleb, SFltb in *.
  rewrite SFcompare_antisym.
  destruct n' as [s|s| |s m e]; try discriminate; destruct s; try discriminate;
    reflexivity.
Qed.

Lemma viewportSchema_OK p input v :
  z.optional viewportSchema p input = z.OK (Some v) ->
  Num.ltb Num.lit_0 (Viewport.width v) = true
  /\ Num.ltb Num.lit_0 (Viewport.height v) = true.
Proof.
  unfold z.optional. destruct input as [j|]; [|discriminate].
  intros H. apply ap_OK_inv in H as [g [a [[= <-] [H [= <-]]]]].
  unfold viewportSchema, z.object in H. destruct j as [| | | | |fields]; try discriminate.
  invert_ap H. cbn [Viewport.width Viewport.height].
  split; eapply positive_OK; try eassumption; reflexivity.
Qed.

(** X12. Sizes of an accepted request are positive: the [maxFileSize] of
    an image request, and the width and the height of a viewport of either
    kind of request. Zero, a negative number and NaN are never passed on to
    the page or to the size test. *)
Theorem accepted_sizes_are_positive validURL body :
  (forall r, z.safeParse (PdfRequestSchema validURL) body = z.Success r ->
     forall v, PdfExport.viewport (PdfRequest.export r) = Some v ->
       Num.ltb Num.lit_0 (Viewport.width v) = true
       /\ Num.ltb Num.lit_0 (Viewport.height v) = true)
  /\ (forall r, z.safeParse (ImageRequestSchema validURL) body = z.Success r ->
        Num.ltb Num.lit_0 (ImageExport.maxFileSize (ImageRequest.export r)) = true
        /\ forall v, ImageExport.viewport (ImageRequest.export r) = Some v ->
             Num.ltb Num.lit_0 (Viewport.width v) = true
             /\ Num.ltb Num.lit_0 (Viewport.height v) = true).
Proof.
  split; intros r Hparse.
  - apply PdfRequestSchema_Success in Hparse as [fields [-> H]].
    set (e := PdfRequest.export r) in *. clearbody e.
    unfold pdfExportSchema, z.default in H.
    destruct (fields !! "export") as [j|].
    + unfold z.object in H. destruct j as [| | | | |export]; try discriminate.
      invert_ap H. cbn [PdfExport.viewport]. intros v ->.
      eapply viewportSchema_OK. eassumption.
    + injection H as <-. discriminate.
  - apply ImageRequestSchema_Success in Hparse as [fields [-> H]].
    set (e := ImageRequest.export r) in *. clearbody e.
    unfold imageExportSchema, z.default in H.
    destruct (fields !! "export") as [j|].
    + unfold z.object in H. destruct j as [| | | | |export]; try discriminate.
      invert_ap H. cbn [ImageExport.viewport ImageExport.maxFileSize]. split.
      * eapply positive_OK; [|eassumption]. reflexivity.
      * intros v ->. eapply viewportSchema_OK. eassumption.
    + injection H as <-. split; [reflexivity | discriminate].
Qed.

Lemma url_field_Some validURL fields p u :
  z.field fields p "url" (z.optional (z.refine truthyReturn (urlCustom validURL) None z.string))
  = z.OK (Some u) ->
  validURL u = true /\ u <> "".
Proof.
  unfold z.field, z.optional. destruct (fields !! "url") as [j|]; [|discriminate].
  intros H. apply ap_OK_inv in H as [g [a [[= <-] [H [= <-]]]]].
  unfold z.refine, z.string, urlCustom, truthyReturn in H.
  destruct j; try discriminate.
  destruct (validURL s) eqn:Hvalid; [|discriminate].
  cbn [truthyString] in H. destruct (String.eqb_spec s ""); [discriminate|].
  injection H as <-. auto.
Qed.

Lemma html_field_Some fields p h :
  z.field fields p "html" (z.optional (z.refine truthyReturn htmlCustom None z.string))
  = z.OK (Some h) ->
  h <> "".
Proof.
  unfold z.field, z.optional. destruct (fields !! "html") as [j|]; [|discriminate].
  intros H. apply ap_OK_inv in H as [g [a [[= <-] [H [= <-]]]]].
  unfold z.refine, z.string, htmlCustom, truthyReturn in H.
  destruct j; try discriminate.
  cbn [truthyString] in H. destruct (String.eqb s "") eqn:E; cbn in H; [discriminate|].
  rewrite E in H. cbn in H. injection H as <-. now apply String.eqb_neq.
Qed.

Lemma refine_OK_truthy {A B} (truthy : B -> bool) (check : A -> string + B) message
    (s : z.Schema A) p input v :
  z.refine truthy check message s p input = z.OK v ->
  exists b, check v = inr b /\ truthy b = true.
Proof.
  unfold z.refine. destruct (s p input) as [a|a i|i|e]; try discriminate.
  - destruct (check a) as [e|b] eqn:Hc; [discriminate|].
    destruct (truthy b) eqn:Hb; [|discriminate]. intros [= <-]. now exists b.
  - destruct (check a) as [e|b]; [discriminate|]. now destruct (truthy b).
Qed.

Lemma accepted_targets url html :
  (forall u, url = Some u -> u <> "") -> (forall h, html = Some h -> h <> "") ->
  truthyString (if truthyString url then url else html) = true ->
  exists nav, navigationCall url html = Some nav
              /\ forall page, loadContent page url html
                              = match nav with
                                | EvGoto u => await nav (goto page u)
                                | EvSetContent h => await nav (setContent page h)
                                | _ => throw "url or html is required"
                                end.
Proof.
  intros Hu Hh Htarget. unfold navigationCall, loadContent.
  destruct url as [u|].
  - specialize (Hu u eq_refl). apply String.eqb_neq in Hu.
    cbn [truthyString]. rewrite Hu. cbn. now exists (EvGoto u).
  - cbn [truthyString] in *. destruct html as [h|]; [|discriminate].
    cbn [truthyString] in *. rewrite Htarget. cbn. now exists (EvSetContent h).
Qed.

(** X13. The check "url or html is required" of the renderers is never
    reached by a request that a schema accepted: such a request has a
    well-formed non-empty url or a non-empty html, and the renderer's
    loading step is one navigation, [goto(url)] when there is a url and
    [setContent(html)] otherwise. *)
Theorem accepted_request_navigates validURL body :
  (forall r, z.safeParse (PdfRequestSchema validURL) body = z.Success r ->
     (forall u, PdfRequest.url r = Some u -> validURL u = true /\ u <> "")
     /\ exists nav,
          navigationCall (PdfRequest.url r) (PdfRequest.html r) = Some nav
          /\ forall page,
               loadContent page (PdfRequest.url r) (PdfRequest.html r)
               = match nav with
                 | EvGoto u => await nav (goto page u)
                 | EvSetContent h => await nav (setContent page h)
                 | _ => throw "url or html is required"
                 end)
  /\ (forall r, z.safeParse (ImageRequestSchema validURL) body = z.Success r ->
        (forall u, ImageRequest.url r = Some u -> validURL u = true /\ u <> "")
        /\ exists nav,
             navigationCall (ImageRequest.url r) (ImageRequest.html r) = Some nav
             /\ forall page,
                  loadContent page (ImageRequest.url r) (ImageRequest.html r)
                  = match nav with
                    | EvGoto u => await nav (goto page u)
                    | EvSetContent h => await nav (setContent page h)
                    | _ => throw "url or html is required"
                    end).
Proof.
  split; intros r Hparse; apply safeParse_Success in Hparse.
  - unfold PdfRequestSchema in Hparse.
    pose proof (refine_OK_truthy _ _ _ _ _ _ _ Hparse) as [b [[= <-] Htarget]].
    apply refine_OK_inv in Hparse. unfold z.object in Hparse.
    destruct body as [| | | | |fields]; try discriminate.
    invert_ap Hparse. cbn [PdfRequest.url PdfRequest.html] in *.
    assert (Hu : forall u, a1 = Some u -> validURL u = true /\ u <> "")
      by (intros u ->; eapply url_field_Some; eassumption).
    split; [exact Hu|].
    apply accepted_targets; [intros u E; now apply Hu | | assumption].
    intros h ->. eapply html_field_Some; eassumption.
  - unfold ImageRequestSchema in Hparse.
    pose proof (refine_OK_truthy _ _ _ _ _ _ _ Hparse) as [b [[= <-] Htarget]].
    apply refine_OK_inv in Hparse. unfold z.object in Hparse.
    destruct body as [| | | | |fields]; try discriminate.
    invert_ap Hparse. cbn [ImageRequest.url ImageRequest.html] in *.
    assert (Hu : forall u, a1 = Some u -> validURL u = true /\ u <> "")
      by (intros u ->; eapply url_field_Some; eassumption).
    split; [exact Hu|].
    apply accepted_targets; [intros u E; now apply Hu | | assumption].
    intros h ->. eapply html_field_Some; eassumption.
Qed.

Lemma dimension_OK d p input n :
  z.default d (z.number [z.positive]) p input = z.OK n ->
  (input = None -> n = d) /\ (forall m, input = Some (JNum m) -> n = m).
Proof.
  unfold z.default, z.number. destruct input as [[| |n'| | |]|]; try discriminate.
  - destruct (z.isNaN n'); [discriminate|].
    destruct (flat_map _ _); [|discriminate].
    intros [= <-]. split; [discriminate | now intros m [= ->]].
  - intros [= <-]. split; [reflexivity | discriminate].
Qed.

Lemma viewport_of_object p fields v :
  z.optional viewportSchema p (Some (JObj fields)) = z.OK v ->
  exists vp, v = Some vp
    /\ (fields !! "width" = None -> Viewport.width vp = Num.lit_1280)
    /\ (fields !! "height" = None -> Viewport.height vp = Num.lit_720)
    /\ (forall n, fields !! "width" = Some (JNum n) -> Viewport.width vp = n)
    /\ (forall n, fields !! "height" = Some (JNum n) -> Viewport.height vp = n).
Proof.
  unfold z.optional. intros H. apply ap_OK_inv in H as [g [a [[= <-] [H ->]]]].
  unfold viewportSchema, z.object in H. invert_ap H. unfold z.field in *.
  eexists. split; [reflexivity|]. cbn [Viewport.width Viewport.height].
  repeat match goal with
    | H : z.default _ _ _ _ = z.OK _ |- _ => apply dimension_OK in H; destruct H
    end.
  auto.
Qed.

(** X23. A viewport object may leave out either side: a missing [width]
    becomes 1280 and a missing [height] 720, each on its own, and a side
    that is given is kept. This holds for both kinds of request. *)
Theorem viewport_sides_default validURL fields export viewport :
  fields !! "export" = Some (JObj export) ->
  export !! "viewport" = Some (JObj viewport) ->
  (forall r, z.safeParse (PdfRequestSchema validURL) (JObj fields) = z.Success r ->
     exists vp, PdfExport.viewport (PdfRequest.export r) = Some vp
       /\ (viewport !! "width" = None -> Viewport.width vp = Num.lit_1280)
       /\ (viewport !! "height" = None -> Viewport.height vp = Num.lit_720)
       /\ (forall n, viewport !! "width" = Some (JNum n) -> Viewport.width vp = n)
       /\ (forall n, viewport !! "height" = Some (JNum n) -> Viewport.height vp = n))
  /\ (forall r, z.safeParse (ImageRequestSchema validURL) (JObj fields) = z.Success r ->
        exists vp, ImageExport.viewport (ImageRequest.export r) = Some vp
          /\ (viewport !! "width" = None -> Viewport.width vp = Num.lit_1280)
          /\ (viewport !! "height" = None -> Viewport.height vp = Num.lit_720)
          /\ (forall n, viewport !! "width" = Some (JNum n) -> Viewport.width vp = n)
          /\ (forall n, viewport !! "height" = Some (JNum n) -> Viewport.height vp = n)).
Proof.
  intros Hexport Hviewport. split; intros r Hparse.
  - apply PdfRequestSchema_Success in Hparse as [fields' [[= <-] H]].
    set (e := PdfRequest.export r) in *. clearbody e.
    rewrite Hexport in H. unfold pdfExportSchema in H. cbn [z.default z.object] in H.
    invert_ap H. cbn [PdfExport.viewport].
    match goal with
    | H : z.field _ _ "viewport" _ = z.OK _ |- _ =>
        unfold z.field in H; rewrite Hviewport in H;
        apply viewport_of_object in H; destruct H as [vp [-> H]]
    end.
    now exists vp.
  - apply ImageRequestSchema_Success in Hparse as [fields' [[= <-] H]].
    set (e := ImageRequest.export r) in *. clearbody e.
    rewrite Hexport in H. unfold imageExportSchema in H. cbn [z.default z.object] in H.
    invert_ap H. cbn [ImageExport.viewport].
    match goal with
    | H : z.field _ _ "viewport" _ = z.OK _ |- _ =>
        unfold z.field in H; rewrite Hviewport in H;
        apply viewport_of_object in H; destruct H as [vp [-> H]]
    end.
    now exists vp.
Qed.

(* ===================================================================== *)
(** * Nothing else throws *)
(* ===================================================================== *)

Lemma ap_THROWN_inv {A B} (f : z.ParseReturn (A -> B)) (x : z.ParseReturn A) e :
  f <*> x = z.THROWN e -> f = z.THROWN e \/ x = z.THROWN e.
Proof.
  destruct f as [g|g i|i|e'], x as [a|a i'|i'|e'']; cbn; try discriminate;
    intros [= <-]; auto.
Qed.

Lemma url_field_THROWN_inv validURL fields p e :
  z.field fields p "url" (z.optional (z.refine truthyReturn (urlCustom validURL) None z.string))
  = z.THROWN e ->
  exists u, fields !! "url" = Some (JStr u) /\ validURL u = false /\ e = "Invalid URL".
Proof.
  unfold z.field, z.optional. destruct (fields !! "url") as [j|]; [|discriminate].
  intros H. apply ap_THROWN_inv in H as [H|H]; [discriminate|].
  unfold z.refine, z.string, urlCustom in H.
  destruct j as [| | |s| |]; try discriminate.
  destruct (validURL s) eqn:Hvalid.
  - now destruct (truthyReturn s).
  - injection H as <-. now exists s.
Qed.

Lemma html_field_THROWN_inv fields p e :
  z.field fields p "html" (z.optional (z.refine truthyReturn htmlCustom None z.string))
  = z.THROWN e ->
  fields !! "html" = Some (JStr "") /\ e = "HTML content is required".
Proof.
  unfold z.field, z.optional. destruct (fields !! "html") as [j|]; [|discriminate].
  intros H. apply ap_THROWN_inv in H as [H|H]; [discriminate|].
  unfold z.refine, z.string, htmlCustom, truthyReturn in H.
  destruct j as [| | |s| |]; try discriminate.
  cbn [truthyString] in H. destruct (String.eqb s "") eqn:E; cbn in H.
  - apply String.eqb_eq in E. subst s. injection H as <-. auto.
  - rewrite ?E in H. cbn in H. discriminate.
Qed.

Lemma refine_target_THROWN_inv {A} (url html : A -> option string) (s : z.Schema A)
    p input e :
  z.refine truthyString (fun data => urlOrHtml (url data) (html data)) (Some missingTarget)
    s p input = z.THROWN e ->
  s p input = z.THROWN e.
Proof.
  unfold z.refine, urlOrHtml. destruct (s p input) as [a|a i|i|e']; try discriminate.
  - now destruct (truthyString _).
  - now destruct (truthyString _).
  - auto.
Qed.

(** X26. Nothing but the two custom checks throws during validation: when
    parsing a body against either schema ends with an exception, the body is
    an object whose [url] is a string that [new URL] rejects, and the
    exception is "Invalid URL", or its [html] is the empty string, and the
    exception is "HTML content is required". Every other ill-formed body is
    answered with issues. *)
Theorem only_custom_checks_throw validURL body e :
  z.safeParse (PdfRequestSchema validURL) body = z.Exception e
  \/ z.safeParse (ImageRequestSchema validURL) body = z.Exception e ->
  exists fields,
    body = JObj fields
    /\ ((exists u, fields !! "url" = Some (JStr u) /\ validURL u = false
                   /\ e = "Invalid URL")
        \/ (fields !! "html" = Some (JStr "") /\ e = "HTML content is required")).
Proof.
  intros [H|H]; unfold z.safeParse in H.
  - destruct (PdfRequestSchema validURL [] (Some body)) as [| | |e'] eqn:E;
      try discriminate.
    injection H as ->. unfold PdfRequestSchema in E.
    apply refine_target_THROWN_inv in E. unfold z.object in E.
    destruct body as [| | | | |fields]; try discriminate. exists fields.
    split; [reflexivity|].
    apply ap_THROWN_inv in E as [E|E].
    + apply ap_THROWN_inv in E as [E|E].
      * apply ap_THROWN_inv in E as [E|E]; [discriminate|].
        left. eapply url_field_THROWN_inv. eassumption.
      * right. eapply html_field_THROWN_inv. eassumption.
    + unfold z.field in E.
      pose proof (thrown_pdfExport ([] ++ ["export"]) (fields !! "export")) as Hnot.
      rewrite E in Hnot. discriminate.
  - destruct (ImageRequestSchema validURL [] (Some body)) as [| | |e'] eqn:E;
      try discriminate.
    injection H as ->. unfold ImageRequestSchema in E.
    apply refine_target_THROWN_inv in E. unfold z.object in E.
    destruct body as [| | | | |fields]; try discriminate. exists fields.
    split; [reflexivity|].
    apply ap_THROWN_inv in E as [E|E].
    + apply ap_THROWN_inv in E as [E|E].
      * apply ap_THROWN_inv in E as [E|E]; [discriminate|].
        left. eapply url_field_THROWN_inv. eassumption.
      * right. eapply html_field_THROWN_inv. eassumption.
    + unfold z.field in E.
      pose proof (thrown_imageExport ([] ++ ["export"]) (fields !! "export")) as Hnot.
      rewrite E in Hnot. discriminate.
Qed.

(* ===================================================================== *)
(** * The handlers of [POST /pdf] and [POST /image] *)
(* ===================================================================== *)

Lemma tryCatch_answer {A} (m : M A) (ok : A -> Response) :
  tryCatch (a <- m ;; ret (ok a)) (fun errorMessage => ret (ErrorJson 400 errorMessage))
  = (match outcome m with
     | Return a => Return (ok a)
     | Throw e => Return (ErrorJson 400 e)
     | OutOfFuel => OutOfFuel
     end, trace m).
Proof.
  destruct m as [[a|e|] calls]; cbn; now rewrite ?List.app_nil_r.
Qed.

Lemma generateImage_fuel fuel sharp browser body :
  inQualityRange (Some (ImageExport.quality (ImageRequest.export body))) ->
  (11 <= fuel)%nat ->
  outcome (generateImage fuel sharp browser body) <> OutOfFuel.
Proof.
  intros Hq Hfuel. unfold generateImage. cbv zeta.
  destruct browser as [b|]; [|discriminate].
  cbn [getBrowser]. rewrite bind_ret_l, outcome_bind.
  destruct (outcome (await EvNewPage (newPage b))) as [page| |] eqn:Hp;
    [|discriminate | now apply await_not_OutOfFuel in Hp].
  rewrite outcome_bind.
  destruct (applyViewport page _) as [[[]| |] calls] eqn:Hv; cbn [outcome fst];
    [|discriminate|].
  2:{ destruct (ImageExport.viewport _) as [v|]; [|discriminate].
      cbn [applyViewport] in Hv. destruct (setViewport page v); discriminate. }
  rewrite outcome_bind.
  destruct (loadContent_cases page (ImageRequest.url body) (ImageRequest.html body))
    as [[u [_ [_ ->]]] | [[h [_ [_ [_ ->]]]] | [_ [_ ->]]]]; [| |discriminate].
  all: match goal with
       | |- context [outcome (await ?e ?p)] =>
           destruct (outcome (await e p)) as [[]| |] eqn:Hl;
           [|discriminate | now apply await_not_OutOfFuel in Hl]
       end.
  all: rewrite outcome_bind;
    destruct (screenshot page _) as [shot|e]; [|discriminate];
    cbn [await outcome fst]; rewrite outcome_bind;
    destruct (close page) as [[]|e]; [|discriminate];
    cbn [await outcome fst]; unfold compressIfTooLarge;
    destruct (Num.gtb _ _); [|discriminate];
    apply compressImage_calls; assumption.
Qed.

(** X14. Once a body is accepted, the handlers never throw: a PDF or an
    image that the renderer returns is sent with its content type, and
    every error of the renderer (a rejected browser or codec call, or
    "Browser not launched") is answered with status 400 and the message of
    the error. The handlers make the calls of the renderer and no other. *)
Theorem renderer_errors_are_answered_400 validURL sharp browser fuel body :
  (forall data, z.safeParse (PdfRequestSchema validURL) body = z.Success data ->
     postPdf validURL browser body
     = (match outcome (generatePdf browser data) with
        | Return pdfBuffer => Return (Body "application/pdf" pdfBuffer)
        | Throw errorMessage => Return (ErrorJson 400 errorMessage)
        | OutOfFuel => OutOfFuel
        end, trace (generatePdf browser data))
     /\ (browser = None ->
         postPdf validURL browser body
         = (Return (ErrorJson 400 "Browser not launched"), [])))
  /\ (forall data, z.safeParse (ImageRequestSchema validURL) body = z.Success data ->
        postImage validURL sharp browser fuel body
        = (match outcome (generateImage fuel sharp browser data) with
           | Return imageBuffer =>
               Return (Body (contentTypeOf (ImageExport.type (ImageRequest.export data)))
                         imageBuffer)
           | Throw errorMessage => Return (ErrorJson 400 errorMessage)
           | OutOfFuel => OutOfFuel
           end, trace (generateImage fuel sharp browser data))
        /\ (browser = None ->
            postImage validURL sharp browser fuel body
            = (Return (ErrorJson 400 "Browser not launched"), []))).
Proof.
  split; intros data Hparse.
  - unfold postPdf. rewrite Hparse.
    rewrite (tryCatch_answer (generatePdf browser data) (Body "application/pdf")).
    split; [reflexivity|]. now intros ->.
  - unfold postImage. rewrite Hparse.
    rewrite (tryCatch_answer (generateImage fuel sharp browser data)
               (Body (contentTypeOf (ImageExport.type (ImageRequest.export data))))).
    split; [reflexivity|]. now intros ->.
Qed.

(** X15. The image route always answers: for an accepted body whose
    quality is a double, 11 rounds of fuel are enough, because the
    validated quality lies in 0 to 100 and the loops of [compressImage]
    end for every such quality. The answer is the image or a 400. *)
Theorem image_route_always_answers validURL sharp browser fuel body data :
  z.safeParse (ImageRequestSchema validURL) body = z.Success data ->
  valid_binary Num.prec Num.emax (ImageExport.quality (ImageRequest.export data)) = true ->
  (11 <= fuel)%nat ->
  (exists imageBuffer,
     outcome (postImage validURL sharp browser fuel body)
     = Return (Body (contentTypeOf (ImageExport.type (ImageRequest.export data)))
                 imageBuffer))
  \/ (exists errorMessage,
        outcome (postImage validURL sharp browser fuel body)
        = Return (ErrorJson 400 errorMessage)).
Proof.
  intros Hparse Hvalid Hfuel.
  assert (Hq : inQualityRange (Some (ImageExport.quality (ImageRequest.export data)))).
  { pose proof Hparse as H.
    apply ImageRequestSchema_Success in H as [fields [_ H]].
    apply imageExportSchema_OK in H as [_ [[Hlo Hhi] _]].
    repeat split; assumption. }
  pose proof (generateImage_fuel fuel sharp browser data Hq Hfuel) as Hends.
  unfold postImage. rewrite Hparse.
  rewrite (tryCatch_answer (generateImage fuel sharp browser data)
             (Body (contentTypeOf (ImageExport.type (ImageRequest.export data))))).
  cbn [outcome fst].
  destruct (outcome (generateImage fuel sharp browser data)) as [b|e|];
    [left; now exists b | right; now exists e | contradiction].
Qed.

Lemma type_of_object p input t :
  z.default png (z.enum imageTypes) p input = z.OK t ->
  (input = None -> t = png)
  /\ (forall s, input = Some (JStr s) ->
        contentTypeOf t = ("image/" ++ s)%string /\ In s ["jpeg"; "png"; "webp"]).
Proof.
  unfold z.default, z.enum. destruct input as [[| | |s| |]|]; try discriminate.
  - unfold imageTypes. cbn [z.lookupEnum].
    destruct (String.eqb_spec "jpeg" s) as [<-|_];
      [|destruct (String.eqb_spec "png" s) as [<-|_];
        [|destruct (String.eqb_spec "webp" s) as [<-|_]; [|discriminate]]];
      intros [= <-]; (split; [discriminate|]); intros s' [= <-]; cbn; auto.
  - intros [= <-]. split; [reflexivity | discriminate].
Qed.

(** X24. The content type of an image answer follows the requested type:
    for an accepted body with [export.type] the string [s], which is then
    one of jpeg, png and webp, an image is sent as ["image/" ++ s]; without
    [export.type] it is sent as image/png. *)
Theorem content_type_follows_type validURL sharp browser fuel body data imageBuffer :
  z.safeParse (ImageRequestSchema validURL) body = z.Success data ->
  outcome (generateImage fuel sharp browser data) = Return imageBuffer ->
  (forall s, exportField body "type" = Some (JStr s) ->
     In s ["jpeg"; "png"; "webp"]
     /\ outcome (postImage validURL sharp browser fuel body)
        = Return (Body ("image/" ++ s)%string imageBuffer))
  /\ (exportField body "type" = None ->
      outcome (postImage validURL sharp browser fuel body)
      = Return (Body "image/png" imageBuffer)).
Proof.
  intros Hparse Himage.
  assert (Hroute : outcome (postImage validURL sharp browser fuel body)
                   = Return (Body (contentTypeOf (ImageExport.type
                                                    (ImageRequest.export data)))
                               imageBuffer)).
  { unfold postImage. rewrite Hparse.
    rewrite (tryCatch_answer (generateImage fuel sharp browser data)
               (Body (contentTypeOf (ImageExport.type (ImageRequest.export data))))).
    rewrite Himage. reflexivity. }
  rewrite Hroute. clear Hroute Himage.
  apply ImageRequestSchema_Success in Hparse as [fields [-> H]].
  set (e := ImageRequest.export data) in *. clearbody e.
  unfold exportField, bodyField. unfold imageExportSchema, z.default in H.
  destruct (fields !! "export") as [j|].
  - unfold z.object in H. destruct j as [| | | | |export]; try discriminate.
    invert_ap H. cbn [ImageExport.type].
    match goal with
    | H : z.field _ _ "type" _ = z.OK _ |- _ =>
        unfold z.field in H; apply type_of_object in H; destruct H as [Hnone Hsome]
    end.
    split.
    + intros s Hs. destruct (Hsome s Hs) as [-> Hin]. auto.
    + intros Hs. now rewrite (Hnone Hs).
  - injection H as <-. split; [discriminate | reflexivity].
Qed.

(* ===================================================================== *)
(** * browser.ts *)
(* ===================================================================== *)

(** X16. [launchBrowser] is idempotent: calling it a second time launches
    nothing and changes nothing, whatever puppeteer answered the first
    time and whether or not a browser was there before. *)
Theorem launchBrowser_is_idempotent env puppeteer browser :
  io.bind (launchBrowser env puppeteer) (fun _ => launchBrowser env puppeteer) browser
  = launchBrowser env puppeteer browser.
Proof.
  unfold launchBrowser, getBrowserWebsocket, io.bind, io.get, io.await, io.call, io.ret,
    io.set.
  destruct browser as [b|]; [reflexivity|].
  destruct (launch puppeteer (launchOptions env)) as [endpoint|e]; [|reflexivity].
  destruct (connect puppeteer endpoint) as [b|e]; [|reflexivity].
  reflexivity.
Qed.

(** X17. When [launchBrowser] returns, the module variable holds a browser
    and [getBrowser] returns it instead of throwing; the browser is the one
    that was there or, if there was none, the one that puppeteer connected
    to at the endpoint of the browser it launched. When puppeteer rejects
    the launch or the connection, [launchBrowser] throws that error, the
    variable stays unset and [getBrowser] keeps throwing "Browser not
    launched". *)
Theorem launchBrowser_then_getBrowser env puppeteer browser :
  let r := launchBrowser env puppeteer browser in
  match io.outcome r with
  | Return _ =>
      exists b, io.state r = Some b /\ getBrowser (io.state r) = ret b
        /\ (browser = Some b
            \/ browser = None
               /\ exists endpoint,
                    launch puppeteer (launchOptions env) = Resolved endpoint
                    /\ connect puppeteer endpoint = Resolved b)
  | Throw message =>
      browser = None /\ io.state r = None
      /\ getBrowser (io.state r) = throw "Browser not launched"
      /\ (launch puppeteer (launchOptions env) = Rejected message
          \/ exists endpoint,
               launch puppeteer (launchOptions env) = Resolved endpoint
               /\ connect puppeteer endpoint = Rejected message)
  | OutOfFuel => False
  end.
Proof.
  unfold launchBrowser, getBrowserWebsocket, io.bind, io.get, io.await, io.call, io.ret,
    io.set.
  destruct browser as [b|]; cbn.
  - exists b. auto.
  - destruct (launch puppeteer (launchOptions env)) as [endpoint|e] eqn:Hl; cbn.
    + destruct (connect puppeteer endpoint) as [b|e] eqn:Hc; cbn.
      * exists b. repeat split. right. split; [reflexivity|]. now exists endpoint.
      * repeat split. right. now exists endpoint.
    + repeat split. now left.
Qed.

(* ===================================================================== *)
(** * [run] *)
(* ===================================================================== *)

(** X18. [run] starts the server only once a browser is there: when it
    returns, the module variable holds a browser and [serve] was called
    exactly once, on [PORT], as the last call before the line "started" is
    logged; when the launch or the connection fails, [run] throws and
    [serve] is never called. *)
Theorem server_starts_with_a_browser env puppeteer parseInt browser :
  let r := index.run env puppeteer parseInt browser in
  match io.outcome r with
  | Return _ =>
      (exists b, io.state r = Some b)
      /\ exists before,
           io.effects r
           = before ++ [EvServe (index.PORT env parseInt);
                        EvLog [LStr "started";
                               LObj [("PORT", LNum (index.PORT env parseInt))]]]
           /\ Forall (fun e => isServe e = false) before
  | Throw _ =>
      browser = None /\ io.state r = None
      /\ Forall (fun e => isServe e = false) (io.effects r)
  | OutOfFuel => False
  end.
Proof.
  unfold index.run, launchBrowser, getBrowserWebsocket, log, io.bind, io.get, io.await,
    io.call, io.ret, io.set.
  cbv zeta.
  destruct (truthyString (Env.API_KEY env)); destruct browser as [b|]; cbn.
  1,3: split; [now exists b|];
    match goal with
    | |- exists before, ?l = _ /\ _ => exists (removelast (removelast l))
    end; split; [reflexivity | now repeat constructor].
  all: destruct (launch puppeteer (launchOptions env)) as [endpoint|e]; cbn;
    [|repeat split; now repeat constructor].
  all: destruct (connect puppeteer endpoint) as [b|e]; cbn;
    [|repeat split; now repeat constructor].
  all: split; [now exists b|];
    match goal with
    | |- exists before, ?l = _ /\ _ => exists (removelast (removelast l))
    end; split; [reflexivity | now repeat constructor].
Qed.

(* ===================================================================== *)
(** * The chain of handlers *)
(* ===================================================================== *)

Lemma onError_run (m : IO AppResponse) browser :
  hono.onError m browser
  = match m browser with
    | (Throw message, effects, browser') =>
        (Return InternalServerError, effects ++ [EvConsoleError message], browser')
    | r => r
    end.
Proof.
  unfold hono.onError, io.tryCatch, io.bind, io.call, io.ret.
  now destruct (m browser) as [[[res|message|] effects] browser'].
Qed.

Lemma compose_never_throws routes c : forall browser message,
  io.outcome (hono.compose routes c browser) <> Throw message.
Proof.
  induction routes as [|r rest IH]; intros browser message; cbn [hono.compose];
    [discriminate|].
  destruct (hono.matches r c); [|apply IH].
  rewrite onError_run.
  now destruct (hono.handle r c (hono.compose rest c) browser)
    as [[[res|e|] effects] browser'].
Qed.

Lemma callsOf_app l l' : callsOf (l ++ l') = callsOf l ++ callsOf l'.
Proof. unfold callsOf. apply List.flat_map_app. Qed.

Lemma callsOf_Call calls : callsOf (map Call calls) = calls.
Proof.
  induction calls as [|e calls IH]; [reflexivity|].
  change (callsOf (map Call (e :: calls))) with (e :: callsOf (map Call calls)).
  now rewrite IH.
Qed.

Lemma noRequestLog_Call (calls : list Event) :
  Forall (fun e => isRequestLog e = false) (map Call calls).
Proof. induction calls; now constructor. Qed.

Section Chain.

Variable env : Env.t.
Variable clock : Clock.t.
Variable validURL : string -> bool.
Variable sharp : Sharp.
Variable fuel : nat.

(** The handler of [/pdf] against the route [postPdf]. *)
Lemma pdfRoute_run c browser :
  let r := index.zValidator (PdfRequestSchema validURL) index.pdfHandler c browser in
  let route := postPdf validURL browser (Request.json c) in
  match outcome route with
  | Throw message => r = (Throw message, [], browser)
  | o => io.outcome r = answerOf o
  end
  /\ callsOf (io.effects r) = trace route
  /\ io.state r = browser
  /\ Forall (fun e => isRequestLog e = false) (io.effects r).
Proof.
  unfold index.zValidator, postPdf. cbv zeta.
  destruct (z.safeParse (PdfRequestSchema validURL) (Request.json c)) as [data|issues|e];
    [|cbn; repeat split; constructor..].
  rewrite (tryCatch_answer (generatePdf browser data) (Body "application/pdf")).
  unfold index.pdfHandler, index.answerError, log, io.tryCatch, io.bind, io.lift,
    io.call, io.ret.
  destruct (generatePdf browser data) as [[buf|e|] calls]; cbn;
    rewrite ?List.app_nil_r, ?callsOf_app, ?callsOf_Call, ?List.app_nil_r;
    repeat split; try apply noRequestLog_Call.
  apply List.Forall_app; split; [apply noRequestLog_Call | now repeat constructor].
Qed.

Lemma imageRoute_run c browser :
  let r := index.zValidator (ImageRequestSchema validURL)
             (index.imageHandler sharp fuel) c browser in
  let route := postImage validURL sharp browser fuel (Request.json c) in
  match outcome route with
  | Throw message => r = (Throw message, [], browser)
  | o => io.outcome r = answerOf o
  end
  /\ callsOf (io.effects r) = trace route
  /\ io.state r = browser
  /\ Forall (fun e => isRequestLog e = false) (io.effects r).
Proof.
  unfold index.zValidator, postImage. cbv zeta.
  destruct (z.safeParse (ImageRequestSchema validURL) (Request.json c))
    as [data|issues|e]; [|cbn; repeat split; constructor..].
  rewrite (tryCatch_answer (generateImage fuel sharp browser data)
             (Body (contentTypeOf (ImageExport.type (ImageRequest.export data))))).
  unfold index.imageHandler, index.answerError, log, io.tryCatch, io.bind, io.lift,
    io.call, io.ret.
  destruct (generateImage fuel sharp browser data) as [[buf|e|] calls]; cbn;
    rewrite ?List.app_nil_r, ?callsOf_app, ?callsOf_Call, ?List.app_nil_r;
    repeat split; try apply noRequestLog_Call.
  apply List.Forall_app; split; [apply noRequestLog_Call | now repeat constructor].
Qed.

End Chain.

Lemma onError_id (m : IO AppResponse) browser :
  (forall message, io.outcome (m browser) <> Throw message) ->
  hono.onError m browser = m browser.
Proof.
  intros H. rewrite onError_run.
  destruct (m browser) as [[[res|message|] effects] browser']; try reflexivity.
  now destruct (H message).
Qed.

Lemma onError_quiet (m : IO AppResponse) : noRequestLog m -> noRequestLog (hono.onError m).
Proof.
  intros H browser. specialize (H browser). rewrite onError_run.
  destruct (m browser) as [[[res|message|] effects] browser']; try assumption.
  cbn in *. apply List.Forall_app; split; [assumption | now repeat constructor].
Qed.

Lemma compose_quiet routes c :
  (forall r, In r routes ->
     forall next, noRequestLog next -> noRequestLog (hono.handle r c next)) ->
  noRequestLog (hono.compose routes c).
Proof.
  induction routes as [|r rest IH]; intros H; cbn [hono.compose];
    [intros browser; constructor|].
  assert (Hrest : noRequestLog (hono.compose rest c))
    by (apply IH; intros r' Hr'; apply H; now right).
  destruct (hono.matches r c); [|assumption].
  apply onError_quiet, H; [now left | assumption].
Qed.

Section Fetch.

Variable env : Env.t.
Variable clock : Clock.t.
Variable validURL : string -> bool.
Variable sharp : Sharp.
Variable fuel : nat.

(** The handlers behind the first middleware. *)
Let behindLogger : list hono.Route := List.tl (index.app env clock validURL sharp fuel).
(** The handlers behind the check of the API key. *)
Let behindKey : list hono.Route := List.tl (List.tl behindLogger).

Lemma fetch_run c browser :
  index.fetch env clock validURL sharp fuel c browser
  = match hono.compose behindLogger c browser with
    | (Return res, effects, browser') =>
        (Return res, effects ++ [requestLog clock c res], browser')
    | r => r
    end.
Proof.
  unfold index.fetch. change (index.app env clock validURL sharp fuel)
    with (hono.use (index.requestLogger clock) :: behindLogger).
  cbn [hono.compose hono.use hono.matches hono.handle].
  pose proof (compose_never_throws behindLogger c browser) as Hnot.
  rewrite onError_run.
  unfold index.requestLogger, log, io.bind, io.call, io.ret. cbv zeta.
  destruct (hono.compose behindLogger c browser) as [[[res|message|] effects] browser'];
    try reflexivity.
  now destruct (Hnot message).
Qed.

Lemma behindLogger_run c browser :
  hono.compose behindLogger c browser
  = if hono.isMethod (Request.method c) GET && String.eqb (Request.path c) "/health" then
      (Return (StatusJson 200 "ok"), [], browser)
    else if keyAccepted env c then hono.compose behindKey c browser
    else
      (Return (Routed (ErrorJson 401
                 (if truthyString (Request.apiKey c) then "Invalid API key"
                  else "API key is required"))), [], browser).
Proof.
  unfold behindLogger, behindKey, index.app.
  cbn [List.tl hono.compose hono.get hono.use hono.matches hono.handle].
  destruct (hono.isMethod (Request.method c) GET && String.eqb (Request.path c) "/health");
    [reflexivity|].
  set (next := hono.compose _ c).
  assert (Hnext : forall message, io.outcome (next browser) <> Throw message)
    by (intros message; apply compose_never_throws).
  unfold index.apiKeyMiddleware, keyAccepted. cbv zeta.
  destruct (truthyString (Env.API_KEY env)) eqn:Hkey; cbn [negb orb];
    [|now apply onError_id].
  destruct (Request.apiKey c) as [provided|] eqn:Hprovided;
    destruct (Env.API_KEY env) as [configured|] eqn:Hconfigured;
    cbn [index.sameString truthyString negb] in *; try discriminate; try reflexivity.
  destruct (String.eqb_spec provided configured) as [->|Hne]; cbn [negb].
  - rewrite Hkey. cbn [negb]. now apply onError_id.
  - now destruct (negb (String.eqb provided "")).
Qed.

Lemma behindKey_quiet c : noRequestLog (hono.compose behindKey c).
Proof.
  apply compose_quiet. unfold behindKey, behindLogger, index.app. cbn [List.tl].
  intros r [<-|[<-|[<-|[]]]] next Hnext browser; cbn [hono.handle hono.get hono.post].
  - constructor.
  - apply (pdfRoute_run validURL c browser).
  - apply (imageRoute_run validURL sharp fuel c browser).
Qed.

Lemma behindLogger_quiet c : noRequestLog (hono.compose behindLogger c).
Proof.
  intros browser. rewrite behindLogger_run.
  destruct (_ && _); [constructor|].
  destruct (keyAccepted env c); [apply behindKey_quiet | constructor].
Qed.

End Fetch.

(** X19. Every request is answered and logged: [app.fetch] never throws,
    and when it returns a response, its last effect is the line "request"
    with the method, the path and the status of that response, and no other
    such line was logged before. *)
Theorem every_request_is_logged_once env clock validURL sharp fuel c browser :
  let r := index.fetch env clock validURL sharp fuel c browser in
  (forall message, io.outcome r <> Throw message)
  /\ forall res, io.outcome r = Return res ->
       exists before,
         io.effects r = before ++ [requestLog clock c res]
         /\ Forall (fun e => isRequestLog e = false) before.
Proof.
  cbv zeta. split.
  - intros message. apply compose_never_throws.
  - intros res. rewrite fetch_run.
    pose proof (behindLogger_quiet env clock validURL sharp fuel c browser) as Hquiet.
    destruct (hono.compose _ c browser) as [[[res'|message|] effects] browser'];
      cbn; try discriminate.
    intros [= ->]. now exists effects.
Qed.

(** X20. [GET /health] is answered before the API key is looked at: with
    any key or none, configured or not, the answer is 200 with status "ok",
    and nothing happens besides the request line in the log. *)
Theorem health_needs_no_key env clock validURL sharp fuel c browser :
  Request.method c = GET -> Request.path c = "/health" ->
  index.fetch env clock validURL sharp fuel c browser
  = (Return (StatusJson 200 "ok"), [requestLog clock c (StatusJson 200 "ok")], browser).
Proof.
  intros Hm Hp. rewrite fetch_run, behindLogger_run, Hm, Hp. reflexivity.
Qed.

(** X21. With a key configured, every other request whose [X-API-Key]
    header is not that key is answered 401 before any work is done: the body
    is not parsed, neither the browser nor the codec is called, and the only
    effect is the request line in the log. The message is "API key is
    required" for a missing or empty header and "Invalid API key"
    otherwise. *)
Theorem wrong_key_is_refused env clock validURL sharp fuel c browser :
  keyAccepted env c = false ->
  ~ (Request.method c = GET /\ Request.path c = "/health") ->
  let res := Routed (ErrorJson 401
               (if truthyString (Request.apiKey c) then "Invalid API key"
                else "API key is required")) in
  index.fetch env clock validURL sharp fuel c browser
  = (Return res, [requestLog clock c res], browser).
Proof.
  intros Hkey Hpath res. rewrite fetch_run, behindLogger_run, Hkey.
  destruct (hono.isMethod (Request.method c) GET && String.eqb (Request.path c) "/health")
    eqn:Hhealth; [|reflexivity].
  apply andb_prop in Hhealth as [Hm Hp]. apply String.eqb_eq in Hp.
  destruct Hpath. split; [|assumption]. now destruct (Request.method c).
Qed.

(** X22. With an accepted key (none configured, or the header equal to the
    configured one), [POST /pdf] and [POST /image] are the routes [postPdf]
    and [postImage] on the body of the request: the same calls into the
    browser and the codec, and the answer of the route; an exception of the
    validation is answered 500. The module variable is left as it was. *)
Theorem accepted_key_reaches_the_route env clock validURL sharp fuel c browser :
  keyAccepted env c = true -> Request.method c = POST ->
  let r := index.fetch env clock validURL sharp fuel c browser in
  (Request.path c = "/pdf" ->
   let route := postPdf validURL browser (Request.json c) in
   io.outcome r = answerOf (outcome route)
   /\ callsOf (io.effects r) = trace route /\ io.state r = browser)
  /\ (Request.path c = "/image" ->
      let route := postImage validURL sharp browser fuel (Request.json c) in
      io.outcome r = answerOf (outcome route)
      /\ callsOf (io.effects r) = trace route /\ io.state r = browser).
Proof.
  intros Hkey Hm r. subst r.
  split; intros Hp route; subst route;
    rewrite fetch_run, behindLogger_run, Hkey, Hm, Hp;
    cbn [hono.isMethod andb String.eqb Ascii.eqb Bool.eqb];
    unfold index.app;
    cbn [List.tl hono.compose hono.get hono.post hono.use hono.matches hono.handle];
    rewrite Hm, Hp; cbn [hono.isMethod andb String.eqb Ascii.eqb Bool.eqb];
    rewrite onError_run.
  - pose proof (pdfRoute_run validURL c browser) as [Hout [Hcalls [Hstate _]]].
    cbv zeta in *.
    generalize dependent
      (index.zValidator (PdfRequestSchema validURL) index.pdfHandler c browser).
    intros [[o effects] browser']. unfold io.outcome, io.effects, io.state. cbn [fst snd].
    intros Hout Hcalls Hstate.
    destruct (outcome (postPdf validURL browser (Request.json c))) as [res|message|].
    + subst o. cbn [answerOf fst snd]. rewrite callsOf_app, Hcalls. cbn.
      now rewrite List.app_nil_r.
    + injection Hout as -> -> ->. cbn. auto.
    + subst o. cbn. auto.
  - pose proof (imageRoute_run validURL sharp fuel c browser) as [Hout [Hcalls [Hstate _]]].
    cbv zeta in *.
    generalize dependent
      (index.zValidator (ImageRequestSchema validURL) (index.imageHandler sharp fuel)
         c browser).
    intros [[o effects] browser']. unfold io.outcome, io.effects, io.state. cbn [fst snd].
    intros Hout Hcalls Hstate.
    destruct (outcome (postImage validURL sharp browser fuel (Request.json c))) as [res|message|].
    + subst o. cbn [answerOf fst snd]. rewrite callsOf_app, Hcalls. cbn.
      now rewrite List.app_nil_r.
    + injection Hout as -> -> ->. cbn. auto.
    + subst o. cbn. auto.
Qed.

(* ===================================================================== *)
(** * Further examples: the theorems at concrete inputs *)
(* ===================================================================== *)

Import Examples Samples.

Lemma compressed_fits_or_is_input_witness :
  fits oneByte oneByteBudget = true \/ oneByte = screenshotBytes.
Proof.
  apply (compressed_fits_or_is_input qualitySharp 11 screenshotBytes png oneByteBudget
           (Some Num.lit_100) oneByte).
  vm_compute. reflexivity.
Defined.

Lemma codec_rejection_ends_compression_witness :
  outcome (compressImage failingSharp 11 screenshotBytes png oneByteBudget None)
  = Throw "Input buffer contains unsupported image format".
Proof.
  apply (proj2 (proj1 (codec_rejection_ends_compression failingSharp 11 screenshotBytes
                         png oneByteBudget None) _)).
  exists [], (EvToBuffer png Num.lit_100). split; reflexivity.
Defined.

Lemma encoder_qualities_within_10_and_100_witness :
  encoderCallInRange png (EvToBuffer png Num.lit_100).
Proof.
  apply (encoder_qualities_within_10_and_100 stubbornSharp 11 screenshotBytes png
           oneByteBudget (Some Num.lit_100)).
  - repeat split.
  - vm_compute. left. reflexivity.
Defined.

Lemma pdf_calls_on_success_witness :
  exists nav,
    navigationCall (PdfRequest.url pdfOfUrl) (PdfRequest.html pdfOfUrl) = Some nav
    /\ trace (generatePdf goodBrowser pdfOfUrl)
       = EvNewPage :: viewportCalls (PdfExport.viewport (PdfRequest.export pdfOfUrl))
         ++ [nav; EvPdf (PdfRequest.export pdfOfUrl); EvClose].
Proof.
  apply (pdf_calls_on_success goodBrowser pdfOfUrl screenshotBytes). reflexivity.
Defined.

Lemma image_is_screenshot_or_fits_witness :
  exists b page shot,
    goodBrowser = Some b /\ newPage b = Resolved page
    /\ screenshot page
         (screenshotOptions (ImageRequest.export (imageOfUrl Num.lit_4MiB)))
       = Resolved shot
    /\ (screenshotBytes = shot
        \/ fits screenshotBytes
             (ImageExport.maxFileSize (ImageRequest.export (imageOfUrl Num.lit_4MiB)))
           = true).
Proof.
  apply (image_is_screenshot_or_fits 11 stubbornSharp goodBrowser
           (imageOfUrl Num.lit_4MiB) screenshotBytes).
  vm_compute. reflexivity.
Defined.

Lemma missing_target_leaves_page_open_witness :
  generatePdf (Some goodBrowser')
    {| PdfRequest.url := None; PdfRequest.html := Some "";
       PdfRequest.export := pdfExport |}
  = (Throw "url or html is required",
     EvNewPage :: viewportCalls (PdfExport.viewport pdfExport)).
Proof.
  apply (proj1 (missing_target_leaves_page_open 11 stubbornSharp goodBrowser' goodPage
                  None (Some "") eq_refl eq_refl eq_refl)).
  intros v Hv. discriminate Hv.
Defined.

Lemma custom_checks_throw_witness :
  z.safeParse (PdfRequestSchema anyURL) (JObj badUrlFields) = z.Exception "Invalid URL"
  /\ postPdf anyURL goodBrowser (JObj badUrlFields) = throw "Invalid URL"
  /\ z.safeParse (ImageRequestSchema anyURL) (JObj emptyHtmlFields)
     = z.Exception "HTML content is required".
Proof.
  destruct (proj1 (custom_checks_throw anyURL stubbornSharp goodBrowser 11 badUrlFields)
              "" eq_refl eq_refl) as [H1 [_ [H3 _]]].
  assert (Hurl : forall u, emptyHtmlFields !! "url" = Some (JStr u) -> anyURL u = true)
    by (intros u Hu; vm_compute in Hu; discriminate Hu).
  destruct (proj2 (custom_checks_throw anyURL stubbornSharp goodBrowser 11 emptyHtmlFields)
              Hurl eq_refl) as [_ [H2 _]].
  auto.
Defined.

Lemma omitted_export_gets_defaults_witness :
  z.safeParse (PdfRequestSchema anyURL) (JObj urlFields) = z.Success urlPdfRequest
  /\ z.safeParse (ImageRequestSchema anyURL) (JObj emptyExportFields)
     = z.Success urlImageRequest.
Proof.
  assert (Hne : exampleUrl <> "") by discriminate.
  split.
  - apply (proj1 (omitted_export_gets_defaults anyURL urlFields exampleUrl
                    eq_refl eq_refl Hne eq_refl)).
    reflexivity.
  - apply (proj2 (omitted_export_gets_defaults anyURL emptyExportFields exampleUrl
                    eq_refl eq_refl Hne eq_refl)).
    right. reflexivity.
Defined.

Lemma pdf_export_needs_margin_witness :
  z.safeParse (PdfRequestSchema anyURL) (JObj emptyExportFields) <> z.Success urlPdfRequest.
Proof.
  apply (pdf_export_needs_margin anyURL emptyExportFields ∅ urlPdfRequest); reflexivity.
Defined.

Lemma accepted_sizes_are_positive_witness :
  Num.ltb Num.lit_0 (ImageExport.maxFileSize (ImageRequest.export viewportImageRequest))
  = true
  /\ forall v, ImageExport.viewport (ImageRequest.export viewportImageRequest) = Some v ->
       Num.ltb Num.lit_0 (Viewport.width v) = true
       /\ Num.ltb Num.lit_0 (Viewport.height v) = true.
Proof.
  apply (proj2 (accepted_sizes_are_positive anyURL (JObj emptyViewportFields))
           viewportImageRequest).
  vm_compute. reflexivity.
Defined.

Lemma accepted_request_navigates_witness :
  (forall u, PdfRequest.url urlPdfRequest = Some u -> anyURL u = true /\ u <> "")
  /\ exists nav,
       navigationCall (PdfRequest.url urlPdfRequest) (PdfRequest.html urlPdfRequest)
       = Some nav
       /\ forall page,
            loadContent page (PdfRequest.url urlPdfRequest) (PdfRequest.html urlPdfRequest)
            = match nav with
              | EvGoto u => await nav (goto page u)
              | EvSetContent h => await nav (setContent page h)
              | _ => throw "url or html is required"
              end.
Proof.
  apply (proj1 (accepted_request_navigates anyURL (JObj urlFields)) urlPdfRequest).
  vm_compute. reflexivity.
Defined.

Lemma renderer_errors_are_answered_400_witness :
  postPdf anyURL None (JObj urlFields)
  = (Return (ErrorJson 400 "Browser not launched"), []).
Proof.
  assert (H : z.safeParse (PdfRequestSchema anyURL) (JObj urlFields)
              = z.Success urlPdfRequest) by (vm_compute; reflexivity).
  exact (proj2 (proj1 (renderer_errors_are_answered_400 anyURL stubbornSharp None 11
                         (JObj urlFields)) urlPdfRequest H) eq_refl).
Defined.

Lemma image_route_always_answers_witness :
  (exists imageBuffer,
     outcome (postImage anyURL stubbornSharp goodBrowser 11 (JObj urlFields))
     = Return (Body (contentTypeOf (ImageExport.type (ImageRequest.export urlImageRequest)))
                 imageBuffer))
  \/ (exists errorMessage,
        outcome (postImage anyURL stubbornSharp goodBrowser 11 (JObj urlFields))
        = Return (ErrorJson 400 errorMessage)).
Proof.
  apply (image_route_always_answers anyURL stubbornSharp goodBrowser 11 (JObj urlFields)
           urlImageRequest).
  - vm_compute. reflexivity.
  - reflexivity.
  - lia.
Defined.

Lemma every_request_is_logged_once_witness :
  exists before,
    io.effects (index.fetch keyEnv noon anyURL stubbornSharp 11 healthRequest None)
    = before ++ [requestLog noon healthRequest (StatusJson 200 "ok")]
    /\ Forall (fun e => isRequestLog e = false) before.
Proof.
  apply (proj2 (every_request_is_logged_once keyEnv noon anyURL stubbornSharp 11
                  healthRequest None) (StatusJson 200 "ok")).
  reflexivity.
Defined.

Lemma health_needs_no_key_witness :
  index.fetch keyEnv noon anyURL stubbornSharp 11 healthRequest None
  = (Return (StatusJson 200 "ok"), [requestLog noon healthRequest (StatusJson 200 "ok")],
     None).
Proof.
  apply (health_needs_no_key keyEnv noon anyURL stubbornSharp 11 healthRequest None);
    reflexivity.
Defined.

Lemma wrong_key_is_refused_witness :
  index.fetch keyEnv noon anyURL stubbornSharp 11 (pdfRequestWithKey (Some "guess")) goodBrowser
  = (Return (Routed (ErrorJson 401 "Invalid API key")),
     [requestLog noon (pdfRequestWithKey (Some "guess"))
        (Routed (ErrorJson 401 "Invalid API key"))],
     goodBrowser).
Proof.
  apply (wrong_key_is_refused keyEnv noon anyURL stubbornSharp 11
           (pdfRequestWithKey (Some "guess")) goodBrowser).
  - reflexivity.
  - intros [Hm _]. discriminate Hm.
Defined.

Lemma accepted_key_reaches_the_route_witness :
  let r := index.fetch keyEnv noon anyURL stubbornSharp 11 (pdfRequestWithKey (Some "secret"))
             goodBrowser in
  let route := postPdf anyURL goodBrowser (JObj urlFields) in
  io.outcome r = answerOf (outcome route)
  /\ callsOf (io.effects r) = trace route /\ io.state r = goodBrowser.
Proof.
  exact (proj1 (accepted_key_reaches_the_route keyEnv noon anyURL stubbornSharp 11
                  (pdfRequestWithKey (Some "secret")) goodBrowser eq_refl eq_refl)
           eq_refl).
Defined.

Lemma viewport_sides_default_witness :
  exists vp, ImageExport.viewport (ImageRequest.export viewportImageRequest) = Some vp
    /\ ((∅ : gmap string json) !! "width" = None -> Viewport.width vp = Num.lit_1280)
    /\ ((∅ : gmap string json) !! "height" = None -> Viewport.height vp = Num.lit_720)
    /\ (forall n, (∅ : gmap string json) !! "width" = Some (JNum n) -> Viewport.width vp = n)
    /\ (forall n, (∅ : gmap string json) !! "height" = Some (JNum n) -> Viewport.height vp = n).
Proof.
  apply (proj2 (viewport_sides_default anyURL emptyViewportFields
                  {[ "viewport" := JObj ∅ ]} ∅ eq_refl eq_refl) viewportImageRequest).
  vm_compute. reflexivity.
Defined.

Lemma content_type_follows_type_witness :
  In "jpeg" ["jpeg"; "png"; "webp"]
  /\ outcome (postImage anyURL stubbornSharp goodBrowser 11 (JObj jpegFields))
     = Return (Body ("image/" ++ "jpeg")%string screenshotBytes).
Proof.
  apply (proj1 (content_type_follows_type anyURL stubbornSharp goodBrowser 11
                  (JObj jpegFields) jpegImageRequest screenshotBytes
                  ltac:(vm_compute; reflexivity) ltac:(vm_compute; reflexivity))).
  reflexivity.
Defined.

Lemma small_sides_are_resized_to_zero_witness :
  resizeCall (Num.of_Z 1) (Num.of_Z 100) png Num.lit_0_9
  = EvResizeToBuffer (Num.of_Z (1 * 9 / 10)) (Num.of_Z (100 * 9 / 10)) png Num.lit_70
  /\ Num.of_Z (1 * 9 / 10) = Num.lit_0.
Proof.
  assert (Hw : 1 <= 1 <= maxSide) by (unfold maxSide; lia).
  assert (Hh : 1 <= 100 <= maxSide) by (unfold maxSide; lia).
  assert (Hin : In (Num.lit_0_9, 9) (combine scaleFactors scaleTenths))
    by (left; reflexivity).
  destruct (small_sides_are_resized_to_zero 1 100 png Num.lit_0_9 9 Hw Hh Hin)
    as [Hcall [_ [_ [Hone _]]]].
  split; [exact Hcall | exact (Hone eq_refl)].
Defined.

Lemma only_custom_checks_throw_witness :
  exists fields,
    JObj badUrlFields = JObj fields
    /\ ((exists u, fields !! "url" = Some (JStr u) /\ anyURL u = false
                   /\ "Invalid URL" = "Invalid URL")
        \/ (fields !! "html" = Some (JStr "")
            /\ "Invalid URL" = "HTML content is required")).
Proof.
  apply (only_custom_checks_throw anyURL (JObj badUrlFields) "Invalid URL").
  left. vm_compute. reflexivity.
Defined.

(* ===================================================================== *)
(** * The fallback when a call of the codec is rejected *)
(* ===================================================================== *)

Import Examples Samples.

(** C3, the claim as it was stated, refuted. For an image of 1 by 100
    pixels and a budget of one byte, no step of the quality ladder fits and
    no step of the scale ladder produces an encoding, because the first one
    asks for a width of [Math.floor(1 * 0.9) = 0] and the codec rejects it:
    [compressImage] throws that rejection instead of returning its input.
    It also throws when the metadata cannot be read after the quality
    ladder has failed. *)
Lemma one_pixel_side_throws_instead_of_falling_back :
  Forall (fun q => toBuffer strictSharp screenshotBytes png q = Resolved twoBytes)
    (qualityValues None)
  /\ fits twoBytes oneByteBudget = false
  /\ Forall (fun s => resizeToBuffer strictSharp screenshotBytes
                        (Num.floor (Num.mul (Num.of_Z 1) s))
                        (Num.floor (Num.mul (Num.of_Z 100) s)) png Num.lit_70
                      = Rejected zeroWidth)
       scaleFactors
  /\ compressImage strictSharp 11 screenshotBytes png oneByteBudget None
     = (Throw zeroWidth,
        map (toBufferCall png) (qualitySteps 100)
        ++ [EvMetadata;
            EvResizeToBuffer (Num.of_Z 0) (Num.of_Z 90) png Num.lit_70])
  /\ outcome (compressImage strictSharp 11 screenshotBytes png oneByteBudget None)
     <> Return screenshotBytes
  /\ compressImage unreadableSharp 11 screenshotBytes png oneByteBudget None
     = (Throw "Input buffer contains unsupported image format",
        map (toBufferCall png) (qualitySteps 100) ++ [EvMetadata]).
Proof.
  assert (Hrun : compressImage strictSharp 11 screenshotBytes png oneByteBudget None
                 = (Throw zeroWidth,
                    map (toBufferCall png) (qualitySteps 100)
                    ++ [EvMetadata;
                        EvResizeToBuffer (Num.of_Z 0) (Num.of_Z 90) png Num.lit_70]))
    by (vm_compute; reflexivity).
  split; [vm_compute; repeat constructor|].
  split; [vm_compute; reflexivity|].
  split.
  { unfold scaleFactors. repeat (constructor; [vm_compute; reflexivity|]). constructor. }
  split; [exact Hrun|].
  split; [rewrite Hrun; discriminate|].
  vm_compute. reflexivity.
Qed.
